(** * x402 facilitator: verification, settlement and the discovery catalog

    A shallow embedding of the facilitator's TypeScript sources:

    - [base/index.ts]      the Base (EVM, EIP-3009) backend, module [Base];
    - [solana/index.ts]    the Solana backend, module [Solana];
    - [discovery/index.ts] the in-memory Bazaar registry, module [Discovery];
    - [index.ts]           network dispatch and the POST /verify and
                           POST /settle handlers, module [Server].

    Asynchronous code is sequential here: every [await] is a call to an
    oracle of the environment [Env] (the RPC node, the signature library,
    the transaction decoders).  An oracle may throw; exceptions, [try] and
    [catch] are those of the monad [M], which also records every chain
    interaction in a trace. *)

From Stdlib Require Import ZArith List String Ascii Bool Lia.
From Stdlib Require Import Permutation Sorted.
Import ListNotations.

Local Open Scope string_scope.
Local Open Scope Z_scope.

(* ===================================================================== *)
(** ** JavaScript primitives *)
(* ===================================================================== *)

Module JS.

(** The exceptions the sources and their libraries raise. *)
Inductive JsError : Type :=
| TypeError                  (* destructuring undefined, reading [x[0].f] *)
| SyntaxError                (* BigInt of a non-numeric string *)
| UnsupportedNetworkError    (* [throw new Error(`Unsupported network`)] *)
| UnsupportedChainError      (* [throw new Error(`Unsupported chain ID`)] *)
| DecodeError                (* a transaction or key that fails to decode *)
| TokenAccountNotFoundError  (* spl-token: the token account does not exist *)
| RpcError.                  (* the node is unreachable or answers garbage *)

(** The outcome of an expression that may throw. *)
Inductive Res (A : Type) : Type :=
| Ok (a : A)
| Throw (e : JsError).
Arguments Ok {A} a.
Arguments Throw {A} e.

(** A JavaScript Number as [parseInt] produces it.  Only comparisons with
    the integer clock are made on these values; rounding to a double is
    monotone and the clock is a safe integer, so the exact integer gives
    the same comparison results. *)
Inductive Number : Type :=
| NaN
| Num (z : Z).

(** [a < b] and [a > b] on Numbers: false as soon as one side is NaN. *)
Definition num_lt (a b : Number) : bool :=
  match a, b with
  | Num x, Num y => x <? y
  | _, _ => false
  end.

Definition num_gt (a b : Number) : bool :=
  match a, b with
  | Num x, Num y => x >? y
  | _, _ => false
  end.

(** Truthiness of a string: the empty string is falsy. *)
Definition truthy (s : string) : bool :=
  match s with
  | EmptyString => false
  | String _ _ => true
  end.

(** [a || b] on strings. *)
Definition or_else (a b : string) : string :=
  if truthy a then a else b.

(** [s.startsWith(p)] *)
Definition startsWith (s p : string) : bool := String.prefix p s.

(** [s.includes(sub)] *)
Fixpoint includes (s sub : string) : bool :=
  String.prefix sub s ||
  match s with
  | EmptyString => false
  | String _ t => includes t sub
  end.

(** [s.toLowerCase()] on an ASCII string: the letters A to Z are the only
    characters it changes.  The strings of this development are byte
    strings; a statement that depends on what [toLowerCase], [parseInt]
    or [BigInt] do with other characters assumes the strings ASCII
    ([Spec.ascii_only]). *)
Definition lower_char (c : ascii) : ascii :=
  let n := nat_of_ascii c in
  if (Nat.leb 65 n && Nat.leb n 90)%bool then ascii_of_nat (n + 32) else c.

Fixpoint toLowerCase (s : string) : string :=
  match s with
  | EmptyString => EmptyString
  | String c t => String (lower_char c) (toLowerCase t)
  end.

(** White space as [parseInt] and [BigInt] skip it in an ASCII string:
    space, tab, line feed, vertical tab, form feed, carriage return. *)
Definition is_space (c : ascii) : bool :=
  let n := nat_of_ascii c in
  (Nat.eqb n 32 || (Nat.leb 9 n && Nat.leb n 13))%bool.

Fixpoint trimStart (s : string) : string :=
  match s with
  | EmptyString => EmptyString
  | String c t => if is_space c then trimStart t else s
  end.

Fixpoint trimEnd (s : string) : string :=
  match s with
  | EmptyString => EmptyString
  | String c t =>
      match trimEnd t with
      | EmptyString => if is_space c then EmptyString else String c EmptyString
      | t' => String c t'
      end
  end.

Definition trim (s : string) : string := trimEnd (trimStart s).

(** The value of a digit character, for radices up to 36. *)
Definition digit_of (c : ascii) : option Z :=
  let n := Z.of_nat (nat_of_ascii c) in
  if (48 <=? n) && (n <=? 57) then Some (n - 48)
  else if (97 <=? n) && (n <=? 122) then Some (n - 87)
  else if (65 <=? n) && (n <=? 90) then Some (n - 55)
  else None.

Definition digit_in (radix : Z) (c : ascii) : option Z :=
  match digit_of c with
  | Some d => if d <? radix then Some d else None
  | None => None
  end.

(** The longest prefix of digits, as [parseInt] reads it: [acc] is [None]
    until a first digit is seen. *)
Fixpoint digits_prefix (radix : Z) (s : string) (acc : option Z) : option Z :=
  match s with
  | EmptyString => acc
  | String c t =>
      match digit_in radix c with
      | Some d =>
          digits_prefix radix t
            (Some (radix * (match acc with Some a => a | None => 0 end) + d))
      | None => acc
      end
  end.

(** A whole string of digits, as [BigInt] requires it. *)
Fixpoint digits_all (radix : Z) (s : string) (acc : Z) : option Z :=
  match s with
  | EmptyString => Some acc
  | String c t =>
      match digit_in radix c with
      | Some d => digits_all radix t (radix * acc + d)
      | None => None
      end
  end.

Definition strip_sign (s : string) : Z * string :=
  match s with
  | String "-" t => (-1, t)
  | String "+" t => (1, t)
  | _ => (1, s)
  end.

(** [parseInt(s)] without a radix: leading white space, a sign, an
    optional [0x], then as many digits as there are. *)
Definition parseInt (s : string) : Number :=
  let '(sign, body) := strip_sign (trimStart s) in
  let '(radix, ds) :=
    match body with
    | String "0" (String "x" t) => (16, t)
    | String "0" (String "X" t) => (16, t)
    | _ => (10, body)
    end in
  match digits_prefix radix ds None with
  | Some n => Num (sign * n)
  | None => NaN
  end.

(** [BigInt(s)]: white space is trimmed, the empty string is 0n, a decimal
    literal may carry a sign, a prefixed literal may not, and anything else
    is a SyntaxError. *)
Definition BigInt (s : string) : Res Z :=
  let nonempty (radix : Z) (ds : string) : Res Z :=
    match ds with
    | EmptyString => Throw SyntaxError
    | _ => match digits_all radix ds 0 with
           | Some n => Ok n
           | None => Throw SyntaxError
           end
    end in
  match trim s with
  | EmptyString => Ok 0
  | String "0" (String "x" t) | String "0" (String "X" t) => nonempty 16 t
  | String "0" (String "o" t) | String "0" (String "O" t) => nonempty 8 t
  | String "0" (String "b" t) | String "0" (String "B" t) => nonempty 2 t
  | t =>
      let '(sign, ds) := strip_sign t in
      match nonempty 10 ds with
      | Ok n => Ok (sign * n)
      | Throw e => Throw e
      end
  end.

End JS.
Import JS.

(* ===================================================================== *)
(** ** Wire types ([types/index.ts]) *)
(* ===================================================================== *)

Module Types.

(** [ErrorReason]: the closed set of reason tags. *)
Inductive ErrorReason : Type :=
| invalid_signature
| invalid_payload
| invalid_network
| invalid_scheme
| invalid_x402_version
| payment_expired
| insufficient_funds
| recipient_mismatch
| amount_mismatch
| settlement_failed
| unsupported_network
| unexpected_error.

Record EvmAuthorization : Type := {
  from : string;
  to : string;
  value : string;
  validAfter : string;
  validBefore : string;
  nonce : string
}.

(** The [payload] member of a payment payload: the EVM shape carries a
    signature and an authorization, the Solana shape a serialized
    transaction.  The handlers cast without looking, so a backend can
    receive the other shape. *)
Inductive PayloadBody : Type :=
| EvmBody (signature : string) (authorization : EvmAuthorization)
| SolanaBody (transaction : string).

Record PaymentPayload : Type := {
  pp_x402Version : Z;
  network : string;                  (* empty when absent *)
  accepted_network : option string;  (* v2: [accepted.network] *)
  payload : PayloadBody
}.

(** JSON values the engine only copies around. *)
Definition Json : Type := string.

Record BazaarOutput : Type := {
  out_type : string;
  example : option Json
}.

Record BazaarInfo : Type := {
  input : option Json;
  output : option BazaarOutput
}.

Record BazaarExtension : Type := {
  info : option BazaarInfo;
  schema : option Json
}.

(** [PaymentRequirementsWithExtensions]; [bazaar] is
    [extensions?.bazaar]. *)
Record PaymentRequirements : Type := {
  scheme : string;
  req_network : string;
  maxAmountRequired : string;
  resource : string;
  description : string;
  mimeType : string;
  payTo : string;
  maxTimeoutSeconds : Z;
  asset : string;
  bazaar : option BazaarExtension
}.

Record VerifyResponse : Type := {
  isValid : bool;
  invalidReason : option ErrorReason;
  payer : option string
}.

Record SettleResponse : Type := {
  success : bool;
  transaction : option string;
  settle_network : option string;
  errorReason : option ErrorReason;
  settle_payer : option string
}.

End Types.
Import Types.

(* ===================================================================== *)
(** ** The chain and the effect monad *)
(* ===================================================================== *)

(** The message signed under EIP-712 and relayed by
    [transferWithAuthorization], numbers already converted by [BigInt]. *)
Record TransferMessage : Type := {
  m_from : string;
  m_to : string;
  m_value : Z;
  m_validAfter : Z;
  m_validBefore : Z;
  m_nonce : string
}.

Inductive ReceiptStatus : Type :=
| receipt_success
| receipt_reverted.

(** A decoded Solana transaction, versioned or legacy.  [v_wire] and
    [l_wire] stand for everything else the bytes decode to. *)
Record VersionedTransaction : Type := {
  staticAccountKeys : list string;
  v_wire : string
}.

Record Transaction : Type := {
  feePayer : option string;
  l_wire : string
}.

Record Keypair : Type := {
  publicKey : string;
  secretKey : string
}.

(** One interaction with a node. *)
Inductive Event : Type :=
| ReadBalanceOf (chainId : Z) (account : string)
| ReadAuthorizationState (chainId : Z) (authorizer nonce : string)
| WriteTransferWithAuthorization
    (chainId : Z) (relayer : string) (msg : TransferMessage)
    (signature : string)
| WaitForTransactionReceipt (hash : string)
| GetAccount (ata : string)
| SendTransaction (tx : VersionedTransaction)
| SendAndConfirmTransaction (tx : Transaction) (signers : list Keypair)
| ConfirmTransaction (signature : string).

(** The interactions that submit something to the ledger. *)
Definition is_write (e : Event) : bool :=
  match e with
  | WriteTransferWithAuthorization _ _ _ _
  | SendTransaction _
  | SendAndConfirmTransaction _ _ => true
  | _ => false
  end.

(** Everything outside the process at the time of one call: the clock,
    the local crypto and codec libraries, and the nodes' answers. *)
Record Env : Type := {
  dateNow : Z;   (* [Date.now()], milliseconds *)
  (* viem *)
  verifyTypedData : string -> Z -> TransferMessage -> string -> Res bool;
  privateKeyToAccount : string -> Res string;
  balanceOf : Z -> string -> Res Z;
  authorizationState : Z -> string -> string -> Res bool;
  writeContract : Z -> string -> TransferMessage -> string -> Res string;
  waitForTransactionReceipt : string -> Res ReceiptStatus;
  (* @solana/web3.js and @solana/spl-token; the decoders take the
     base64 text, [Buffer.from(_, 'base64')] never throws on a string *)
  deserialize : string -> Res VersionedTransaction;
  transactionFrom : string -> Res Transaction;
  getAssociatedTokenAddress : string -> string -> Res string;
  getAccount : string -> Res Z;
  sendTransaction : VersionedTransaction -> Res string;
  sendAndConfirmTransaction : Transaction -> list Keypair -> Res string;
  confirmTransaction : string -> Res (option string)
}.

(** A computation: its outcome and the interactions it made, oldest
    first.  Interactions made before a throw stay in the trace. *)
Definition M (A : Type) : Type := Res A * list Event.

Definition ret {A} (a : A) : M A := (Ok a, []).

Definition bind {A B} (m : M A) (k : A -> M B) : M B :=
  match fst m with
  | Ok a => let r := k a in (fst r, (snd m ++ snd r)%list)
  | Throw e => (Throw e, snd m)
  end.

(** [try { m } catch { h }] *)
Definition try_catch {A} (m : M A) (h : JsError -> M A) : M A :=
  match fst m with
  | Ok a => m
  | Throw e => let r := h e in (fst r, (snd m ++ snd r)%list)
  end.

(** A local computation that may throw. *)
Definition lift {A} (r : Res A) : M A := (r, []).

(** An awaited call to a node: the event is recorded, the answer is the
    oracle's. *)
Definition call {A} (ev : Event) (r : Res A) : M A := (r, [ev]).

Declare Scope js_scope.
Delimit Scope js_scope with js.
Notation "x <- m ;; k" := (bind m (fun x => k))
  (at level 61, m at next level, right associativity) : js_scope.
Local Open Scope js_scope.

Definition invalid (reason : ErrorReason) (p : option string)
    : VerifyResponse :=
  {| isValid := false; invalidReason := Some reason; payer := p |}.

Definition valid (p : string) : VerifyResponse :=
  {| isValid := true; invalidReason := None; payer := Some p |}.

Definition settle_failure (reason : option ErrorReason) (tx : option string)
    (net : string) (p : option string) : SettleResponse :=
  {| success := false; transaction := tx; settle_network := Some net;
     errorReason := reason; settle_payer := p |}.

Definition settle_success (tx : string) (net : string) (p : option string)
    : SettleResponse :=
  {| success := true; transaction := Some tx; settle_network := Some net;
     errorReason := None; settle_payer := p |}.

(* ===================================================================== *)
(** ** The Base backend ([base/index.ts]) *)
(* ===================================================================== *)

Module Base.

(** Parse network string to chain ID. *)
Definition getChainId (network : string) : Res Z :=
  if ((network =? "base") || (network =? "eip155:8453"))%string then Ok 8453
  else if ((network =? "base-sepolia") || (network =? "eip155:84532"))%string
       then Ok 84532
  else Throw UnsupportedNetworkError.

Inductive Chain : Type :=
| base
| baseSepolia.

Definition getChain (chainId : Z) : Res Chain :=
  if chainId =? 8453 then Ok base
  else if chainId =? 84532 then Ok baseSepolia
  else Throw UnsupportedChainError.

Record BaseFacilitator : Type := {
  rpcUrl : string;
  privateKey : option string;
  chainId : Z
}.

(** The constructor: an empty key is no key, a zero chain id is 8453. *)
Definition new (cfg_rpcUrl : string) (cfg_privateKey : option string)
    (cfg_chainId : option Z) : BaseFacilitator :=
  {| rpcUrl := cfg_rpcUrl;
     privateKey :=
       match cfg_privateKey with
       | Some k => if truthy k then Some k else None
       | None => None
       end;
     chainId :=
       match cfg_chainId with
       | Some c => if c =? 0 then 8453 else c
       | None => 8453
       end |}.

(** [const { signature, authorization } = paymentPayload.payload] followed
    by the destructuring of [authorization]: a TypeError on the other
    shape, whose [authorization] is undefined. *)
Definition evm_body (p : PaymentPayload) : Res (string * EvmAuthorization) :=
  match payload p with
  | EvmBody sig auth => Ok (sig, auth)
  | SolanaBody _ => Throw TypeError
  end.

(** [Math.floor(Date.now() / 1000)] *)
Definition now (env : Env) : Z := dateNow env / 1000.

(** The [message] of the typed data; the three [BigInt] conversions are
    made in this order while the argument object is built. *)
Definition message (a : EvmAuthorization) : Res TransferMessage :=
  match BigInt (value a) with
  | Throw e => Throw e
  | Ok v =>
    match BigInt (validAfter a) with
    | Throw e => Throw e
    | Ok va =>
      match BigInt (validBefore a) with
      | Throw e => Throw e
      | Ok vb =>
          Ok {| m_from := from a; m_to := to a; m_value := v;
                m_validAfter := va; m_validBefore := vb;
                m_nonce := nonce a |}
      end
    end
  end.

(** The [try] block of [verify]. *)
Definition verify_checks (env : Env) (p : PaymentPayload)
    (r : PaymentRequirements) : M VerifyResponse :=
  chainId <- lift (getChainId (network p)) ;;
  sa <- lift (evm_body p) ;;
  let signature := fst sa in
  let a := snd sa in
  (* 1. Validate timing *)
  if num_lt (Num (now env)) (parseInt (validAfter a)) then
    ret (invalid payment_expired (Some (from a)))
  else if num_gt (Num (now env)) (parseInt (validBefore a)) then
    ret (invalid payment_expired (Some (from a)))
  (* 2. Validate amount *)
  else if negb (value a =? maxAmountRequired r)%string then
    ret (invalid amount_mismatch (Some (from a)))
  (* 3. Validate recipient *)
  else if negb (toLowerCase (to a) =? toLowerCase (payTo r))%string then
    ret (invalid recipient_mismatch (Some (from a)))
  else
    (* 4. Verify EIP-712 signature *)
    msg <- lift (message a) ;;
    sigOk <- lift (verifyTypedData env (from a) chainId msg signature) ;;
    if negb sigOk then
      ret (invalid invalid_signature (Some (from a)))
    else
      (* 5. Check balance *)
      _ <- lift (getChain chainId) ;;
      balance <- call (ReadBalanceOf chainId (from a))
                      (balanceOf env chainId (from a)) ;;
      v <- lift (BigInt (value a)) ;;
      if balance <? v then
        ret (invalid insufficient_funds (Some (from a)))
      else
        (* 6. Check if nonce already used *)
        nonceUsed <- call (ReadAuthorizationState chainId (from a) (nonce a))
                          (authorizationState env chainId (from a) (nonce a)) ;;
        if nonceUsed then
          ret (invalid invalid_payload (Some (from a)))
        else
          ret (valid (from a)).

(** Verify a payment signature. *)
Definition verify (this : BaseFacilitator) (env : Env) (p : PaymentPayload)
    (r : PaymentRequirements) : M VerifyResponse :=
  try_catch (verify_checks env p r)
            (fun _ => ret (invalid unexpected_error None)).

(** The [try] block of [settle], entered with the funding key [key]. *)
Definition settle_steps (this : BaseFacilitator) (env : Env) (key : string)
    (p : PaymentPayload) (r : PaymentRequirements) : M SettleResponse :=
  (* First verify *)
  verification <- verify this env p r ;;
  if negb (isValid verification) then
    ret (settle_failure (invalidReason verification) None (network p)
                        (payer verification))
  else
    chainId <- lift (getChainId (network p)) ;;
    _ <- lift (getChain chainId) ;;
    sa <- lift (evm_body p) ;;
    let signature := fst sa in
    let a := snd sa in
    account <- lift (privateKeyToAccount env key) ;;
    msg <- lift (message a) ;;
    (* Call transferWithAuthorization *)
    hash <- call (WriteTransferWithAuthorization chainId account msg signature)
                 (writeContract env chainId account msg signature) ;;
    (* Wait for confirmation *)
    receipt <- call (WaitForTransactionReceipt hash)
                    (waitForTransactionReceipt env hash) ;;
    match receipt with
    | receipt_success =>
        ret (settle_success hash (network p) (Some (from a)))
    | receipt_reverted =>
        ret (settle_failure (Some settlement_failed) (Some hash) (network p)
                            (Some (from a)))
    end.

(** Settle a payment (actually transfer the funds). *)
Definition settle (this : BaseFacilitator) (env : Env) (p : PaymentPayload)
    (r : PaymentRequirements) : M SettleResponse :=
  match privateKey this with
  | None => ret (settle_failure (Some settlement_failed) None (network p) None)
  | Some key =>
      try_catch (settle_steps this env key p r)
                (fun _ => ret (settle_failure (Some settlement_failed) None
                                              (network p) None))
  end.

(** Get facilitator wallet address. *)
Definition getSignerAddress (this : BaseFacilitator) (env : Env)
    : Res (option string) :=
  match privateKey this with
  | None => Ok None
  | Some key =>
      match privateKeyToAccount env key with
      | Ok addr => Ok (Some addr)
      | Throw e => Throw e
      end
  end.

(** Get supported networks. *)
Definition getSupportedNetworks : list string :=
  ["base"; "base-sepolia"; "eip155:8453"; "eip155:84532"].

End Base.

(* ===================================================================== *)
(** ** The Solana backend ([solana/index.ts]) *)
(* ===================================================================== *)

Module Solana.

Definition mainnet_mint : string :=
  "EPjFWdd5AufqSSqeM2qN1xzybapC8G4wEGGkZwyTDt1v".

Definition devnet_mint : string :=
  "4zMMC9srt5Ri5X14GAgXhaHii3GnPAEERYPJgZJDncDU".

(** USDC mint addresses: the own keys of [USDC_MINTS]. *)
Definition USDC_MINTS (network : string) : option string :=
  if (network =? "solana")%string then Some mainnet_mint
  else if (network =? "solana-devnet")%string then Some devnet_mint
  else if (network =? "solana:5eykt4UsFv8P8NJdTREpY1vzqKqZKvdp")%string
       then Some mainnet_mint
  else if (network =? "solana:EtWTRABZaYq6iMfeYKouRu166VU2xqa1")%string
       then Some devnet_mint
  else None.

Definition isDevnet (network : string) : bool :=
  includes network "devnet" ||
  includes network "EtWTRABZaYq6iMfeYKouRu166VU2xqa1".

Record SolanaFacilitator : Type := {
  rpcUrl : string;
  keypair : option Keypair;
  sol_network : string
}.

(** [const { transaction: txBase64 } = paymentPayload.payload] and
    [Buffer.from(txBase64, 'base64')], which throws a TypeError when the
    member is undefined. *)
Definition solana_body (p : PaymentPayload) : Res string :=
  match payload p with
  | SolanaBody tx => Ok tx
  | EvmBody _ _ => Throw TypeError
  end.

(** [staticAccountKeys[0].toBase58()] *)
Definition first_key (tx : VersionedTransaction) : Res string :=
  match staticAccountKeys tx with
  | k :: _ => Ok k
  | [] => Throw TypeError
  end.

(** Decode the transaction: versioned first, legacy on any failure of the
    versioned attempt.  The legacy attempt is not guarded. *)
Definition decode_payer (env : Env) (txBase64 : string) : M string :=
  try_catch
    (tx <- lift (deserialize env txBase64) ;;
     lift (first_key tx))
    (fun _ =>
       tx <- lift (transactionFrom env txBase64) ;;
       ret (match feePayer tx with
            | Some k => or_else k EmptyString
            | None => EmptyString
            end)).

(** Check payer's USDC balance: the inner [try] and its [catch]. *)
Definition check_balance (env : Env) (payerAta payer : string)
    (r : PaymentRequirements) : M VerifyResponse :=
  try_catch
    (amount <- call (GetAccount payerAta) (getAccount env payerAta) ;;
     requiredAmount <- lift (BigInt (maxAmountRequired r)) ;;
     if amount <? requiredAmount then
       ret (invalid insufficient_funds (Some payer))
     else
       ret (valid payer))
    (fun _ =>
       (* Token account doesn't exist *)
       ret (invalid insufficient_funds (Some payer))).

(** The outer [try] block of [verify]. *)
Definition verify_steps (this : SolanaFacilitator) (env : Env)
    (p : PaymentPayload) (r : PaymentRequirements) : M VerifyResponse :=
  txBase64 <- lift (solana_body p) ;;
  payer <- decode_payer env txBase64 ;;
  if negb (truthy payer) then
    ret (invalid invalid_payload None)
  else
    (* Get USDC mint for this network *)
    match USDC_MINTS (network p) with
    | None => ret (invalid unsupported_network (Some payer))
    | Some usdcMint =>
        payerAta <- lift (getAssociatedTokenAddress env usdcMint payer) ;;
        check_balance env payerAta payer r
    end.

(** Verify a Solana payment transaction. *)
Definition verify (this : SolanaFacilitator) (env : Env) (p : PaymentPayload)
    (r : PaymentRequirements) : M VerifyResponse :=
  try_catch (verify_steps this env p r)
            (fun _ => ret (invalid unexpected_error None)).

(** The broadcast: the versioned attempt covers decoding and sending; the
    legacy attempt sets the fee payer when there is a keypair and none is
    set, and passes the keypair as signer. *)
Definition broadcast (this : SolanaFacilitator) (env : Env)
    (txBase64 : string) : M string :=
  try_catch
    (versionedTx <- lift (deserialize env txBase64) ;;
     call (SendTransaction versionedTx) (sendTransaction env versionedTx))
    (fun _ =>
       legacyTx <- lift (transactionFrom env txBase64) ;;
       let legacyTx :=
         match keypair this, feePayer legacyTx with
         | Some kp, None =>
             {| feePayer := Some (publicKey kp); l_wire := l_wire legacyTx |}
         | _, _ => legacyTx
         end in
       let signers :=
         match keypair this with
         | Some kp => [kp]
         | None => []
         end in
       call (SendAndConfirmTransaction legacyTx signers)
            (sendAndConfirmTransaction env legacyTx signers)).

Definition settle_steps (this : SolanaFacilitator) (env : Env)
    (p : PaymentPayload) (r : PaymentRequirements) : M SettleResponse :=
  (* First verify *)
  verification <- verify this env p r ;;
  if negb (isValid verification) then
    ret (settle_failure (invalidReason verification) None (network p)
                             (payer verification))
  else
    txBase64 <- lift (solana_body p) ;;
    signature <- broadcast this env txBase64 ;;
    (* Confirm transaction *)
    confirmation <- call (ConfirmTransaction signature)
                         (confirmTransaction env signature) ;;
    match confirmation with
    | Some _ =>
        ret (settle_failure (Some settlement_failed) (Some signature)
                                 (network p) (payer verification))
    | None =>
        ret (settle_success signature (network p) (payer verification))
    end.

(** Settle a Solana payment (submit the pre-signed transaction). *)
Definition settle (this : SolanaFacilitator) (env : Env) (p : PaymentPayload)
    (r : PaymentRequirements) : M SettleResponse :=
  try_catch (settle_steps this env p r)
            (fun _ => ret (settle_failure (Some settlement_failed) None
                                               (network p) None)).

(** Get facilitator wallet address. *)
Definition getSignerAddress (this : SolanaFacilitator) : option string :=
  match keypair this with
  | None => None
  | Some kp => Some (publicKey kp)
  end.

(** Get supported networks. *)
Definition getSupportedNetworks : list string :=
  ["solana"; "solana-devnet";
   "solana:5eykt4UsFv8P8NJdTREpY1vzqKqZKvdp";
   "solana:EtWTRABZaYq6iMfeYKouRu166VU2xqa1"].

End Solana.

(* ===================================================================== *)
(** ** The Bazaar discovery registry ([discovery/index.ts]) *)
(* ===================================================================== *)

Module Discovery.

(** One element of [accepts]. *)
Record Accept : Type := {
  a_scheme : string;
  a_network : string;
  a_amount : string;
  a_asset : string;
  a_payTo : string
}.

Record Metadata : Type := {
  md_description : option string;
  md_input : option Json;
  md_inputSchema : option Json;
  md_output : option Json;
  md_outputSchema : option Json
}.

(** [lastUpdated] is held as the milliseconds [new Date(_).getTime()]
    reads back from the ISO string [toISOString()] wrote: the two are
    inverse of each other on valid dates. *)
Record DiscoveredResource : Type := {
  resource : string;
  type : string;
  x402Version : Z;
  accepts : list Accept;
  lastUpdated : Z;
  metadata : option Metadata
}.

(** The [Map] of the registry: keys in insertion order. *)
Definition Registry : Type := list (string * DiscoveredResource).

(** [resourceRegistry.get(key)] *)
Fixpoint get (reg : Registry) (key : string) : option DiscoveredResource :=
  match reg with
  | [] => None
  | (k, v) :: rest => if (k =? key)%string then Some v else get rest key
  end.

(** [resourceRegistry.set(key, v)]: an existing key keeps its place. *)
Fixpoint set (reg : Registry) (key : string) (v : DiscoveredResource)
    : Registry :=
  match reg with
  | [] => [(key, v)]
  | (k, old) :: rest =>
      if (k =? key)%string then (k, v) :: rest
      else (k, old) :: set rest key v
  end.

(** [resourceRegistry.values()] *)
Definition values (reg : Registry) : list DiscoveredResource := map snd reg.

(** The key of an [accepts] element: the template
    [`${a.network}:${a.asset}`]. *)
Definition accept_key (a : Accept) : string :=
  (a_network a ++ ":" ++ a_asset a)%string.

(** [existingNetworks.has(key)] *)
Definition has (keys : list string) (key : string) : bool :=
  existsb (String.eqb key) keys.

(** Extract discovery metadata from payment requirements. *)
Definition extractDiscoveryInfo (env : Env) (version : Z)
    (r : PaymentRequirements) : option DiscoveredResource :=
  match bazaar r with
  | None => None   (* opt-in discovery *)
  | Some bazaarExt =>
      let has_info :=
        match info bazaarExt with Some _ => true | None => false end in
      Some
        {| resource := Types.resource r;
           type := "http";
           x402Version := version;
           accepts :=
             [ {| a_scheme := scheme r;
                  a_network := req_network r;
                  a_amount := maxAmountRequired r;
                  a_asset := asset r;
                  a_payTo := payTo r |} ];
           lastUpdated := dateNow env;
           metadata :=
             if has_info || truthy (description r) then
               Some
                 {| md_description :=
                      if truthy (description r) then Some (description r)
                      else None;
                    md_input :=
                      match info bazaarExt with
                      | Some i => input i
                      | None => None
                      end;
                    md_inputSchema := None;
                    md_output :=
                      match info bazaarExt with
                      | Some i =>
                          match output i with
                          | Some o => example o
                          | None => None
                          end
                      | None => None
                      end;
                    md_outputSchema := schema bazaarExt |}
             else None |}
  end.

(** The loop over [resource.accepts]: an element is pushed when its key
    is not in the set computed before the loop. *)
Definition push_new (existingNetworks : list string)
    (existing incoming : list Accept) : list Accept :=
  fold_left
    (fun acc accept =>
       if has existingNetworks (accept_key accept) then acc
       else (acc ++ [accept])%list)
    incoming existing.

Definition or_field {A} (newer older : option A) : option A :=
  match newer with
  | Some v => Some v
  | None => older
  end.

(** [{ ...existing.metadata, ...resource.metadata }] *)
Definition spread (older : option Metadata) (newer : Metadata) : Metadata :=
  match older with
  | None => newer
  | Some o =>
      {| md_description := or_field (md_description newer) (md_description o);
         md_input := or_field (md_input newer) (md_input o);
         md_inputSchema := or_field (md_inputSchema newer) (md_inputSchema o);
         md_output := or_field (md_output newer) (md_output o);
         md_outputSchema :=
           or_field (md_outputSchema newer) (md_outputSchema o) |}
  end.

(** The in-place update of the stored entry. *)
Definition merge (existing incoming : DiscoveredResource)
    : DiscoveredResource :=
  let existingNetworks := map accept_key (accepts existing) in
  {| resource := resource existing;
     type := type existing;
     x402Version := Z.max (x402Version existing) (x402Version incoming);
     accepts := push_new existingNetworks (accepts existing) (accepts incoming);
     lastUpdated := lastUpdated incoming;
     metadata :=
       match metadata incoming with
       | Some m => Some (spread (metadata existing) m)
       | None => metadata existing
       end |}.

(** Register or update a resource in the discovery catalog. *)
Definition registerResource (reg : Registry) (r : DiscoveredResource)
    : Registry :=
  match get reg (resource r) with
  | Some existing => set reg (resource r) (merge existing r)
  | None => set reg (resource r) r
  end.

(** Catalog a resource from a payment (called during verify). *)
Definition catalogFromPayment (env : Env) (reg : Registry) (version : Z)
    (r : PaymentRequirements) : Registry :=
  match extractDiscoveryInfo env version r with
  | Some res => registerResource reg res
  | None => reg
  end.

Record DiscoveryQueryParams : Type := {
  q_type : option string;
  q_limit : option Z;
  q_offset : option Z
}.

Record Pagination : Type := {
  limit : Z;
  offset : Z;
  total : Z
}.

Record DiscoveryListResponse : Type := {
  list_x402Version : Z;
  items : list DiscoveredResource;
  pagination : Pagination
}.

(** A relative index of [Array.prototype.slice]: negative counts from the
    end, and the result is clamped to the array. *)
Definition relative_index (len k : Z) : Z :=
  if k <? 0 then Z.max (len + k) 0 else Z.min k len.

(** [items.slice(start, stop)] *)
Definition slice {A} (l : list A) (start stop : Z) : list A :=
  let len := Z.of_nat (List.length l) in
  let k := relative_index len start in
  let final := relative_index len stop in
  firstn (Z.to_nat (final - k)) (skipn (Z.to_nat k) l).

(** [items.sort((a, b) => time(b) - time(a))]: newest first, and stable,
    as Array.prototype.sort is. *)
Fixpoint insert_newest (x : DiscoveredResource) (l : list DiscoveredResource)
    : list DiscoveredResource :=
  match l with
  | [] => [x]
  | y :: rest =>
      if lastUpdated y <=? lastUpdated x then x :: y :: rest
      else y :: insert_newest x rest
  end.

Definition sort_newest (l : list DiscoveredResource)
    : list DiscoveredResource :=
  fold_right insert_newest [] l.

Definition default {A} (d : A) (o : option A) : A :=
  match o with
  | Some a => a
  | None => d
  end.

(** List discovered resources with optional filtering and pagination. *)
Definition listResources (reg : Registry) (params : DiscoveryQueryParams)
    : DiscoveryListResponse :=
  let type_ := default "http" (q_type params) in
  let limit_ := default 20 (q_limit params) in
  let offset_ := default 0 (q_offset params) in
  (* Get all resources as array *)
  let all := values reg in
  (* Filter by type *)
  let filtered :=
    if truthy type_ then filter (fun r => (type r =? type_)%string) all
    else all in
  (* Sort by lastUpdated (newest first) *)
  let sorted := sort_newest filtered in
  {| list_x402Version := 2;
     items := slice sorted offset_ (offset_ + limit_);
     pagination :=
       {| limit := limit_; offset := offset_;
          total := Z.of_nat (List.length sorted) |} |}.

(** Get a specific resource by URL. *)
Definition getResource (reg : Registry) (url : string)
    : option DiscoveredResource :=
  get reg url.

(** Remove a resource from the catalog. *)
Fixpoint removeResource (reg : Registry) (url : string) : bool * Registry :=
  match reg with
  | [] => (false, [])
  | (k, v) :: rest =>
      if (k =? url)%string then (true, rest)
      else let '(found, rest') := removeResource rest url in
           (found, (k, v) :: rest')
  end.

(** [networks.add(n)] on a Set kept in insertion order. *)
Definition add (set : list string) (n : string) : list string :=
  if has set n then set else (set ++ [n])%list.

(** Get registry stats. *)
Definition getStats (reg : Registry) : Z * list string :=
  (Z.of_nat (List.length reg),
   fold_left
     (fun nets r =>
        fold_left (fun nets a => add nets (a_network a)) (accepts r) nets)
     (values reg) []).

(** Clear the registry (for testing). *)
Definition clearRegistry : Registry := [].

End Discovery.

(* ===================================================================== *)
(** ** Dispatch and the HTTP handlers ([index.ts]) *)
(* ===================================================================== *)

Module Server.

Record Config : Type := {
  basePrivateKey : option string;   (* [process.env.BASE_PRIVATE_KEY] *)
  solanaPrivateKey : option string
}.

(** The process: its configuration and the two facilitator instances. *)
Record Server : Type := {
  config : Config;
  baseFacilitator : Base.BaseFacilitator;
  solanaFacilitator : Solana.SolanaFacilitator
}.

(** Helper to determine if payload is EVM or Solana. *)
Definition isEvmNetwork (network : string) : bool :=
  includes network "base" || startsWith network "eip155:".

Definition isSolanaNetwork (network : string) : bool :=
  includes network "solana".

Record Request : Type := {
  x402Version : Z;
  paymentPayload : option PaymentPayload;
  paymentRequirements : option PaymentRequirements
}.

(** Support both v1 (network at root) and v2 (network in accepted):
    [payload.network || payload.accepted?.network || requirements.network]. *)
Definition request_network (pp : PaymentPayload) (pr : PaymentRequirements)
    : string :=
  or_else (network pp)
    (or_else
       (match accepted_network pp with Some n => n | None => EmptyString end)
       (req_network pr)).

(** What a handler did: the HTTP status, the JSON body, the registry
    afterwards and the chain interactions made. *)
Record Outcome (Body : Type) : Type := {
  status : Z;
  body : Body;
  registry : Discovery.Registry;
  interactions : list Event
}.
Arguments status {Body} _.
Arguments body {Body} _.
Arguments registry {Body} _.
Arguments interactions {Body} _.

(** The [if / else if / else] chain of POST /verify. *)
Definition dispatch_verify (srv : Server) (env : Env) (network : string)
    (pp : PaymentPayload) (pr : PaymentRequirements) : M VerifyResponse :=
  if isEvmNetwork network then
    Base.verify (baseFacilitator srv) env pp pr
  else if isSolanaNetwork network then
    Solana.verify (solanaFacilitator srv) env pp pr
  else
    ret (invalid unsupported_network None).

(** POST /verify *)
Definition post_verify (srv : Server) (env : Env) (reg : Discovery.Registry)
    (req : Request) : Outcome VerifyResponse :=
  match paymentPayload req, paymentRequirements req with
  | Some pp, Some pr =>
      let network := request_network pp pr in
      if negb (truthy network) then
        {| status := 400; body := invalid invalid_payload None;
           registry := reg; interactions := [] |}
      else
        let m := dispatch_verify srv env network pp pr in
        match fst m with
        | Ok response =>
            (* Catalog resource for Bazaar discovery (if valid and has
               bazaar extension) *)
            {| status := if isValid response then 200 else 400;
               body := response;
               registry :=
                 if isValid response then
                   Discovery.catalogFromPayment env reg (x402Version req) pr
                 else reg;
               interactions := snd m |}
        | Throw _ =>
            {| status := 500; body := invalid unexpected_error None;
               registry := reg; interactions := snd m |}
        end
  | _, _ =>
      {| status := 400; body := invalid invalid_payload None;
         registry := reg; interactions := [] |}
  end.

Definition failure_body (reason : ErrorReason) (net : option string)
    : SettleResponse :=
  {| success := false; transaction := None; settle_network := net;
     errorReason := Some reason; settle_payer := None |}.

(** The [if / else if / else] chain of POST /settle, once the Base key
    is known to be configured. *)
Definition dispatch_settle (srv : Server) (env : Env) (network : string)
    (pp : PaymentPayload) (pr : PaymentRequirements) : M SettleResponse :=
  if isEvmNetwork network then
    Base.settle (baseFacilitator srv) env pp pr
  else if isSolanaNetwork network then
    Solana.settle (solanaFacilitator srv) env pp pr
  else
    ret (failure_body unsupported_network (Some network)).

(** POST /settle *)
Definition post_settle (srv : Server) (env : Env) (reg : Discovery.Registry)
    (req : Request) : Outcome SettleResponse :=
  match paymentPayload req, paymentRequirements req with
  | Some pp, Some pr =>
      let network := request_network pp pr in
      if negb (truthy network) then
        {| status := 400; body := failure_body invalid_payload None;
           registry := reg; interactions := [] |}
      else if isEvmNetwork network
              && match basePrivateKey (config srv) with
                 | Some k => negb (truthy k)
                 | None => true
                 end then
        {| status := 503;
           body := failure_body settlement_failed (Some network);
           registry := reg; interactions := [] |}
      else
        let m := dispatch_settle srv env network pp pr in
        match fst m with
        | Ok response =>
            {| status := if success response then 200 else 400;
               body := response; registry := reg; interactions := snd m |}
        | Throw _ =>
            {| status := 500; body := failure_body unexpected_error None;
               registry := reg; interactions := snd m |}
        end
  | _, _ =>
      {| status := 400; body := failure_body invalid_payload None;
         registry := reg; interactions := [] |}
  end.


Record SupportedKind : Type := {
  kind_x402Version : Z;
  kind_scheme : string;
  kind_network : string
}.

(** [SupportedResponse]; the two fields of [signers] are its entries
    'eip155:*' and 'solana:*'. *)
Record SupportedResponse : Type := {
  kinds : list SupportedKind;
  signers_eip155 : list string;
  signers_solana : list string
}.

Definition kind (version : Z) (network : string) : SupportedKind :=
  {| kind_x402Version := version; kind_scheme := "exact";
     kind_network := network |}.

(** GET /supported.  The handler has no [try]: an exception of
    [getSignerAddress] leaves it. *)
Definition get_supported (srv : Server) (env : Env) : Res SupportedResponse :=
  match Base.getSignerAddress (baseFacilitator srv) env with
  | Throw e => Throw e
  | Ok baseAddress =>
      let solanaAddress := Solana.getSignerAddress (solanaFacilitator srv) in
      let one (address : option string) : list string :=
        match address with
        | Some a => if truthy a then [a] else []
        | None => []
        end in
      Ok {| kinds :=
              [ (* Base networks (v1 format) *)
                kind 1 "base"; kind 1 "base-sepolia";
                (* Base networks (v2 CAIP-2 format) *)
                kind 2 "eip155:8453"; kind 2 "eip155:84532";
                (* Solana networks (v1 format) *)
                kind 1 "solana"; kind 1 "solana-devnet";
                (* Solana networks (v2 CAIP-2 format) *)
                kind 2 "solana:5eykt4UsFv8P8NJdTREpY1vzqKqZKvdp";
                kind 2 "solana:EtWTRABZaYq6iMfeYKouRu166VU2xqa1" ];
            signers_eip155 := one baseAddress;
            signers_solana := one solanaAddress |}
  end.

End Server.

(* ===================================================================== *)
(** ** The checks in the words of the specification *)
(* ===================================================================== *)

Module Spec.

(** The string is ASCII: every character is below 128.  On such strings
    [toLowerCase], [parseInt] and [BigInt] above are the primitives of
    the language. *)
Definition ascii_only (s : string) : bool :=
  forallb (fun c => Nat.ltb (nat_of_ascii c) 128) (list_ascii_of_string s).

(** The strings the Base backend lower-cases or reads as numbers are
    ASCII: the recipient and [payTo], the value and the two bounds. *)
Definition ascii_authorization (a : EvmAuthorization)
    (r : PaymentRequirements) : bool :=
  ascii_only (to a) && ascii_only (payTo r) && ascii_only (value a) &&
  ascii_only (validAfter a) && ascii_only (validBefore a).

(** The same of a payload, when it has the EVM shape. *)
Definition ascii_payment (p : PaymentPayload) (r : PaymentRequirements)
    : bool :=
  match payload p with
  | EvmBody _ a => ascii_authorization a r
  | SolanaBody _ => true
  end.

(** validAfter <= now <= validBefore, on the integers the two strings
    denote. *)
Definition timing_ok (env : Env) (a : EvmAuthorization) : Prop :=
  exists va vb,
    parseInt (validAfter a) = Num va /\
    parseInt (validBefore a) = Num vb /\
    va <= Base.now env <= vb.

(** now is before validAfter or after validBefore. *)
Definition timing_expired (env : Env) (a : EvmAuthorization) : Prop :=
  (exists va, parseInt (validAfter a) = Num va /\ Base.now env < va) \/
  (exists vb, parseInt (validBefore a) = Num vb /\ vb < Base.now env).

(** The authorization value exactly equals the required amount. *)
Definition amount_ok (a : EvmAuthorization) (r : PaymentRequirements) : Prop :=
  value a = maxAmountRequired r.

(** The recipient equals payTo, case-insensitively. *)
Definition recipient_ok (a : EvmAuthorization) (r : PaymentRequirements)
    : Prop :=
  toLowerCase (to a) = toLowerCase (payTo r).

(** The signature check completes with answer [b] on chain [cid]. *)
Definition signature_is (env : Env) (cid : Z) (sig : string)
    (a : EvmAuthorization) (b : bool) : Prop :=
  exists msg,
    Base.message a = Ok msg /\
    verifyTypedData env (from a) cid msg sig = Ok b.

(** The balance read completes and the balance covers the value. *)
Definition balance_covers (env : Env) (cid : Z) (a : EvmAuthorization) : Prop :=
  exists bal v,
    balanceOf env cid (from a) = Ok bal /\
    BigInt (value a) = Ok v /\
    v <= bal.

(** The balance read completes and the balance is below the value. *)
Definition balance_short (env : Env) (cid : Z) (a : EvmAuthorization) : Prop :=
  exists bal v,
    balanceOf env cid (from a) = Ok bal /\
    BigInt (value a) = Ok v /\
    bal < v.

(** The replay read completes with answer [used]. *)
Definition nonce_is (env : Env) (cid : Z) (a : EvmAuthorization)
    (used : bool) : Prop :=
  authorizationState env cid (from a) (nonce a) = Ok used.

(** The signature check, the balance read or the replay read throws
    instead of completing. *)
Definition signature_faults (env : Env) (cid : Z) (sig : string)
    (a : EvmAuthorization) : Prop :=
  (exists e, Base.message a = Throw e) \/
  (exists msg e,
     Base.message a = Ok msg /\
     verifyTypedData env (from a) cid msg sig = Throw e).

Definition balance_faults (env : Env) (cid : Z) (a : EvmAuthorization) : Prop :=
  exists e, balanceOf env cid (from a) = Throw e.

Definition nonce_faults (env : Env) (cid : Z) (a : EvmAuthorization) : Prop :=
  exists e, authorizationState env cid (from a) (nonce a) = Throw e.

(** No event of a trace submits anything to the ledger. *)
Definition read_only (t : list Event) : Prop :=
  forallb (fun e => negb (is_write e)) t = true.

(** A computation whose interactions are all reads. *)
Definition reads {A} (m : M A) : Prop := read_only (snd m).

(** The payer the decoders resolve from a serialized transaction: the
    first static account key of the versioned decoding, or, when that
    attempt fails, the fee payer of the legacy decoding. *)
Definition resolves_payer (env : Env) (tx : string) (who : string) : Prop :=
  truthy who = true /\
  ((exists vtx rest,
      deserialize env tx = Ok vtx /\ staticAccountKeys vtx = who :: rest) \/
   ((exists e, deserialize env tx = Throw e) \/
    (exists vtx, deserialize env tx = Ok vtx /\ staticAccountKeys vtx = [])) /\
   (exists ltx, transactionFrom env tx = Ok ltx /\ feePayer ltx = Some who)).

(** One call of [catalogFromPayment]: the environment at that time (its
    clock stamps the entry), the protocol version and the requirements. *)
Definition CatalogCall : Type := Env * Z * PaymentRequirements.

(** The registry after a sequence of catalog calls. *)
Definition replay (reg : Discovery.Registry) (calls : list CatalogCall)
    : Discovery.Registry :=
  fold_left
    (fun reg c =>
       Discovery.catalogFromPayment (fst (fst c)) reg (snd (fst c)) (snd c))
    calls reg.

(** An operation that adds to the catalog: a catalog call, or a direct
    call of the exported [registerResource]. *)
Inductive Operation : Type :=
| Catalog (env : Env) (version : Z) (r : PaymentRequirements)
| Register (res : Discovery.DiscoveredResource).

Definition perform (reg : Discovery.Registry) (op : Operation)
    : Discovery.Registry :=
  match op with
  | Catalog env version r => Discovery.catalogFromPayment env reg version r
  | Register res => Discovery.registerResource reg res
  end.

(** The registry after a sequence of operations. *)
Definition run (reg : Discovery.Registry) (ops : list Operation)
    : Discovery.Registry :=
  fold_left perform ops reg.

(** The resource lists each key string [network:asset] once. *)
Definition distinct_offers (res : Discovery.DiscoveredResource) : Prop :=
  NoDup (map Discovery.accept_key (Discovery.accepts res)).

(** A registration passes a resource with distinct offers; a catalog
    call builds such a resource itself. *)
Definition distinct_operation (op : Operation) : Prop :=
  match op with
  | Catalog _ _ _ => True
  | Register res => distinct_offers res
  end.

(** The (network, asset) pair of an [accepts] element. *)
Definition pair_of (a : Discovery.Accept) : string * string :=
  (Discovery.a_network a, Discovery.a_asset a).

(** At most one entry per resource URL, each stored under its own URL. *)
Definition one_entry_per_resource (reg : Discovery.Registry) : Prop :=
  NoDup (map fst reg) /\
  Forall (fun kv => fst kv = Discovery.resource (snd kv)) reg.

(** At most one [accepts] element per (network, asset) pair. *)
Definition one_accept_per_pair (reg : Discovery.Registry) : Prop :=
  Forall (fun kv => NoDup (map pair_of (Discovery.accepts (snd kv)))) reg.

(** At most one [accepts] element per key string. *)
Definition one_accept_per_key (reg : Discovery.Registry) : Prop :=
  Forall
    (fun kv => NoDup (map Discovery.accept_key (Discovery.accepts (snd kv))))
    reg.

(** Every entry has type 'http'. *)
Definition all_http (reg : Discovery.Registry) : Prop :=
  Forall (fun kv => Discovery.type (snd kv) = "http") reg.

(** What every registry built by catalog calls satisfies. *)
Definition catalog_invariant (reg : Discovery.Registry) : Prop :=
  one_entry_per_resource reg /\ one_accept_per_key reg /\ all_http reg.

(** The string holds no colon. *)
Definition colon_free (s : string) : Prop := includes s ":" = false.

(** The [accepts] element the extractor builds from requirements. *)
Definition accept_of (r : PaymentRequirements) : Discovery.Accept :=
  {| Discovery.a_scheme := scheme r;
     Discovery.a_network := req_network r;
     Discovery.a_amount := maxAmountRequired r;
     Discovery.a_asset := asset r;
     Discovery.a_payTo := payTo r |}.

(** [a] comes before [b] in a newest-first sequence. *)
Definition newest_first (a b : Discovery.DiscoveredResource) : Prop :=
  Discovery.lastUpdated b <= Discovery.lastUpdated a.

(** The elements of [l] at the indices of the interval
    [offset, offset + limit), [i] being the index of the head. *)
Fixpoint window_from {A} (i : Z) (l : list A) (offset limit : Z) : list A :=
  match l with
  | [] => []
  | x :: rest =>
      if (offset <=? i) && (i <? offset + limit)
      then x :: window_from (i + 1) rest offset limit
      else window_from (i + 1) rest offset limit
  end.

Definition window {A} (l : list A) (offset limit : Z) : list A :=
  window_from 0 l offset limit.

End Spec.

(* ===================================================================== *)
(** ** Concrete requests and environments *)
(* ===================================================================== *)

Module Fixtures.

(** An environment from the answers of its oracles; the clock reads
    1700000000.5 seconds. *)
Definition world (sigAnswer : Res bool) (balance : Res Z) (used : Res bool)
    (versioned : Res VersionedTransaction) (legacy : Res Transaction)
    (tokenAccount : Res Z) (sent : Res string)
    (confirmed : Res (option string)) : Env :=
  {| dateNow := 1700000000500;
     verifyTypedData := fun _ _ _ _ => sigAnswer;
     privateKeyToAccount := fun _ => Ok "0xRelayer";
     balanceOf := fun _ _ => balance;
     authorizationState := fun _ _ _ => used;
     writeContract := fun _ _ _ _ => sent;
     waitForTransactionReceipt := fun _ => Ok receipt_success;
     deserialize := fun _ => versioned;
     transactionFrom := fun _ => legacy;
     getAssociatedTokenAddress := fun _ _ => Ok "PayerTokenAccount";
     getAccount := fun _ => tokenAccount;
     sendTransaction := fun _ => sent;
     sendAndConfirmTransaction := fun _ _ => sent;
     confirmTransaction := fun _ => confirmed |}.

Definition versionedTx : VersionedTransaction :=
  {| staticAccountKeys := ["PayerPubkey"; "MerchantPubkey"];
     v_wire := "AQAB" |}.

Definition legacyTx : Transaction :=
  {| feePayer := Some "PayerPubkey"; l_wire := "AQAB" |}.

(** Every check passes, every call succeeds. *)
Definition sunny : Env :=
  world (Ok true) (Ok 50000) (Ok false) (Ok versionedTx)
        (Throw DecodeError) (Ok 50000) (Ok "0xfeed") (Ok None).

(** The node does not answer the token account read. *)
Definition node_down : Env :=
  world (Ok true) (Ok 50000) (Ok false) (Ok versionedTx)
        (Throw DecodeError) (Throw RpcError) (Ok "0xfeed") (Ok None).

(** The transaction decodes under neither format. *)
Definition undecodable : Env :=
  world (Ok true) (Ok 50000) (Ok false) (Throw DecodeError)
        (Throw DecodeError) (Ok 50000) (Ok "0xfeed") (Ok None).

(** Only the legacy decoder accepts the transaction. *)
Definition legacy_only : Env :=
  world (Ok true) (Ok 50000) (Ok false) (Throw DecodeError)
        (Ok legacyTx) (Ok 50000) (Ok "5igSent") (Ok None).

Definition payerlessTx : Transaction :=
  {| feePayer := None; l_wire := "AQAB" |}.

(** The node refuses the versioned broadcast; the legacy decoder reads
    the same bytes as a transaction without fee payer. *)
Definition send_refused : Env :=
  {| dateNow := 1700000000500;
     verifyTypedData := fun _ _ _ _ => Ok true;
     privateKeyToAccount := fun _ => Ok "0xRelayer";
     balanceOf := fun _ _ => Ok 50000;
     authorizationState := fun _ _ _ => Ok false;
     writeContract := fun _ _ _ _ => Ok "0xfeed";
     waitForTransactionReceipt := fun _ => Ok receipt_success;
     deserialize := fun _ => Ok versionedTx;
     transactionFrom := fun _ => Ok payerlessTx;
     getAssociatedTokenAddress := fun _ _ => Ok "PayerTokenAccount";
     getAccount := fun _ => Ok 50000;
     sendTransaction := fun _ => Throw RpcError;
     sendAndConfirmTransaction := fun _ _ => Ok "5igSent";
     confirmTransaction := fun _ => Ok None |}.

(** The node does not answer the balance read of the Base backend. *)
Definition base_node_down : Env :=
  world (Ok true) (Throw RpcError) (Ok false) (Ok versionedTx)
        (Throw DecodeError) (Ok 50000) (Ok "0xfeed") (Ok None).

Definition authorization : EvmAuthorization :=
  {| from := "0xPayer";
     to := "0xMerchant";
     value := "10000";
     validAfter := "1699999000";
     validBefore := "1700003600";
     nonce := "0x01" |}.

Definition expired : EvmAuthorization :=
  {| from := "0xPayer";
     to := "0xMerchant";
     value := "10000";
     validAfter := "1599999000";
     validBefore := "1600000000";
     nonce := "0x02" |}.

Definition evmPayload (net : string) (a : EvmAuthorization) : PaymentPayload :=
  {| pp_x402Version := 1; network := net; accepted_network := None;
     payload := EvmBody "0xsigned" a |}.

Definition solanaPayload (net : string) : PaymentPayload :=
  {| pp_x402Version := 1; network := net; accepted_network := None;
     payload := SolanaBody "AQABsigned" |}.

Definition requirements (net asset_ : string) (ext : option BazaarExtension)
    : PaymentRequirements :=
  {| scheme := "exact";
     req_network := net;
     maxAmountRequired := "10000";
     resource := "https://api.example.com/weather";
     description := "Weather report";
     mimeType := "application/json";
     payTo := "0xmerchant";
     maxTimeoutSeconds := 60;
     asset := asset_;
     bazaar := ext |}.

Definition usdc : string := "0x833589fCD6eDb6E08f4c7C32D4f71b54bdA02913".

Definition listed : option BazaarExtension :=
  Some {| info := None; schema := None |}.

Definition relayer : Base.BaseFacilitator :=
  Base.new "https://mainnet.base.org" (Some "0xkey") (Some 8453).

Definition keyless : Base.BaseFacilitator :=
  Base.new "https://mainnet.base.org" None (Some 8453).

Definition funder : Keypair :=
  {| publicKey := "FacilitatorPubkey"; secretKey := "secret" |}.

Definition solana (kp : option Keypair) : Solana.SolanaFacilitator :=
  {| Solana.rpcUrl := "https://api.mainnet-beta.solana.com";
     Solana.keypair := kp;
     Solana.sol_network := "solana" |}.

Definition server : Server.Server :=
  {| Server.config :=
       {| Server.basePrivateKey := Some "0xkey";
          Server.solanaPrivateKey := None |};
     Server.baseFacilitator := relayer;
     Server.solanaFacilitator := solana None |}.

Definition verifyRequest (p : PaymentPayload) (r : PaymentRequirements)
    : Server.Request :=
  {| Server.x402Version := 1;
     Server.paymentPayload := Some p;
     Server.paymentRequirements := Some r |}.

(** A catalog entry for [url], last updated at [ms]. *)
Definition entry (url : string) (ms : Z) : Discovery.DiscoveredResource :=
  {| Discovery.resource := url;
     Discovery.type := "http";
     Discovery.x402Version := 1;
     Discovery.accepts :=
       [ {| Discovery.a_scheme := "exact";
            Discovery.a_network := "base";
            Discovery.a_amount := "10000";
            Discovery.a_asset := usdc;
            Discovery.a_payTo := "0xmerchant" |} ];
     Discovery.lastUpdated := ms;
     Discovery.metadata := None |}.

(** Three resources, registered oldest, newest, middle. *)
Definition three : Discovery.Registry :=
  [ ("https://a.example/1", entry "https://a.example/1" 1000);
    ("https://b.example/2", entry "https://b.example/2" 3000);
    ("https://c.example/3", entry "https://c.example/3" 2000) ].

Definition query (t : option string) (lim off : option Z)
    : Discovery.DiscoveryQueryParams :=
  {| Discovery.q_type := t; Discovery.q_limit := lim;
     Discovery.q_offset := off |}.

(** Two requirements for one resource whose (network, asset) pairs differ
    and whose key strings coincide. *)
Definition colliding_first : PaymentRequirements :=
  requirements "eip155:8453" "0xA0b8" listed.

Definition colliding_second : PaymentRequirements :=
  requirements "eip155" "8453:0xA0b8" listed.

(** A resource that lists one offer twice. *)
Definition twice_offered : Discovery.DiscoveredResource :=
  {| Discovery.resource := "https://api.example.com/weather";
     Discovery.type := "http";
     Discovery.x402Version := 1;
     Discovery.accepts :=
       [ {| Discovery.a_scheme := "exact";
            Discovery.a_network := "solana";
            Discovery.a_amount := "10000";
            Discovery.a_asset := Solana.mainnet_mint;
            Discovery.a_payTo := "MerchantPubkey" |};
         {| Discovery.a_scheme := "exact";
            Discovery.a_network := "solana";
            Discovery.a_amount := "10000";
            Discovery.a_asset := Solana.mainnet_mint;
            Discovery.a_payTo := "MerchantPubkey" |} ];
     Discovery.lastUpdated := 5000;
     Discovery.metadata := None |}.

(** The same resource offered on Base and on Solana. *)
Definition on_base : PaymentRequirements :=
  requirements "base" usdc listed.

Definition on_solana : PaymentRequirements :=
  requirements "solana" Solana.mainnet_mint listed.

End Fixtures.

(* ===================================================================== *)
(** ** Notions for the properties beyond the checks *)
(* ===================================================================== *)

Module Derived.

(** How many events of a trace submit something to the ledger. *)
Definition submissions (t : list Event) : nat :=
  List.length (filter is_write t).

(** The fields of the authorization as [message] carries them. *)
Definition carries (msg : TransferMessage) (a : EvmAuthorization) : Prop :=
  m_from msg = from a /\
  m_to msg = to a /\
  m_nonce msg = nonce a /\
  BigInt (value a) = Ok (m_value msg) /\
  BigInt (validAfter a) = Ok (m_validAfter msg) /\
  BigInt (validBefore a) = Ok (m_validBefore msg).

(** [a] is a prefix of [b]. *)
Definition prefix_of {A} (a b : list A) : Prop :=
  exists rest, b = (a ++ rest)%list.

(** The property names every plain object inherits from
    [Object.prototype]: a lookup [USDC_MINTS[name]] of one of them finds
    the inherited member, not a mint. *)
Definition inherited_key (name : string) : bool :=
  existsb (String.eqb name)
    ["constructor"; "__proto__"; "hasOwnProperty"; "isPrototypeOf";
     "propertyIsEnumerable"; "toLocaleString"; "toString"; "valueOf";
     "__defineGetter__"; "__defineSetter__"; "__lookupGetter__";
     "__lookupSetter__"].

End Derived.

Module Scenarios.

(** The relayed transaction is included and reverts. *)
Definition reverting : Env :=
  {| dateNow := 1700000000500;
     verifyTypedData := fun _ _ _ _ => Ok true;
     privateKeyToAccount := fun _ => Ok "0xRelayer";
     balanceOf := fun _ _ => Ok 50000;
     authorizationState := fun _ _ _ => Ok false;
     writeContract := fun _ _ _ _ => Ok "0xfeed";
     waitForTransactionReceipt := fun _ => Ok receipt_reverted;
     deserialize := fun _ => Ok Fixtures.versionedTx;
     transactionFrom := fun _ => Throw DecodeError;
     getAssociatedTokenAddress := fun _ _ => Ok "PayerTokenAccount";
     getAccount := fun _ => Ok 50000;
     sendTransaction := fun _ => Ok "5igSent";
     sendAndConfirmTransaction := fun _ _ => Ok "5igSent";
     confirmTransaction := fun _ => Ok (Some "InstructionError") |}.

(** The node accepts the submission and is lost before it confirms. *)
Definition lost_after_submit : Env :=
  {| dateNow := 1700000000500;
     verifyTypedData := fun _ _ _ _ => Ok true;
     privateKeyToAccount := fun _ => Ok "0xRelayer";
     balanceOf := fun _ _ => Ok 50000;
     authorizationState := fun _ _ _ => Ok false;
     writeContract := fun _ _ _ _ => Ok "0xfeed";
     waitForTransactionReceipt := fun _ => Throw RpcError;
     deserialize := fun _ => Ok Fixtures.versionedTx;
     transactionFrom := fun _ => Throw DecodeError;
     getAssociatedTokenAddress := fun _ _ => Ok "PayerTokenAccount";
     getAccount := fun _ => Ok 50000;
     sendTransaction := fun _ => Ok "5igSent";
     sendAndConfirmTransaction := fun _ _ => Ok "5igSent";
     confirmTransaction := fun _ => Throw RpcError |}.

(** An authorization whose validity bounds are not numbers. *)
Definition unbounded : EvmAuthorization :=
  {| from := "0xPayer";
     to := "0xMerchant";
     value := "10000";
     validAfter := EmptyString;
     validBefore := EmptyString;
     nonce := "0x03" |}.

(** A v2 payload: the network is under [accepted] only. *)
Definition v2Payload (net : string) : PaymentPayload :=
  {| pp_x402Version := 2; network := EmptyString;
     accepted_network := Some net;
     payload := EvmBody "0xsigned" Fixtures.authorization |}.

(** A registry of two resources; the first is offered on two networks. *)
Definition two_offers : Discovery.Registry :=
  Discovery.catalogFromPayment Fixtures.sunny
    (Discovery.catalogFromPayment Fixtures.sunny
       (Discovery.catalogFromPayment Fixtures.sunny [] 1 Fixtures.on_base)
       2 Fixtures.on_solana)
    1
    {| scheme := "exact";
       req_network := "base";
       maxAmountRequired := "500";
       resource := "https://api.example.com/news";
       description := EmptyString;
       mimeType := "application/json";
       payTo := "0xmerchant";
       maxTimeoutSeconds := 60;
       asset := Fixtures.usdc;
       bazaar := Fixtures.listed |}.

(** The weather resource on Base again, at ten times the price and to
    another recipient. *)
Definition dearer : PaymentRequirements :=
  {| scheme := "exact";
     req_network := "base";
     maxAmountRequired := "100000";
     resource := "https://api.example.com/weather";
     description := "Weather report";
     mimeType := "application/json";
     payTo := "0xsomeoneelse";
     maxTimeoutSeconds := 60;
     asset := Fixtures.usdc;
     bazaar := Fixtures.listed |}.

End Scenarios.

(* ===================================================================== *)
(** ** The primitives on examples *)
(* ===================================================================== *)

Example parseInt_decimal : parseInt "1700000000" = Num 1700000000.
Proof. reflexivity. Qed.

Example parseInt_stops_at_garbage : parseInt " 12px" = Num 12.
Proof. reflexivity. Qed.

Example parseInt_of_garbage : parseInt "soon" = NaN.
Proof. reflexivity. Qed.

Example NaN_compares_false :
  num_lt (Num 5) (parseInt "soon") = false /\
  num_gt (Num 5) (parseInt "soon") = false.
Proof. split; reflexivity. Qed.

Example BigInt_decimal : BigInt "10000" = Ok 10000.
Proof. reflexivity. Qed.

Example BigInt_of_garbage : BigInt "12px" = Throw SyntaxError.
Proof. reflexivity. Qed.

Example BigInt_of_empty : BigInt EmptyString = Ok 0.
Proof. reflexivity. Qed.

Example includes_inside : includes "my-base-net" "base" = true.
Proof. reflexivity. Qed.

Example toLowerCase_address : toLowerCase "0xAbCdEF12" = "0xabcdef12".
Proof. reflexivity. Qed.

Example slice_from_the_end :
  Discovery.slice [1; 2; 3; 4] (-2) 4 = [3; 4] /\
  Discovery.slice [1; 2; 3; 4] 0 (-1) = [1; 2; 3] /\
  Discovery.slice [1; 2; 3; 4] 1 3 = [2; 3].
Proof. repeat split. Qed.

(* ===================================================================== *)
(** ** Laws of the effect monad *)
(* ===================================================================== *)

Lemma bind_lift_Ok {A B} (a : A) (k : A -> M B) :
  bind (lift (Ok a)) k = k a.
Proof. unfold bind, lift; simpl. now destruct (k a). Qed.

Lemma bind_lift_Throw {A B} (e : JsError) (k : A -> M B) :
  bind (lift (Throw e)) k = (Throw e, []).
Proof. reflexivity. Qed.

Lemma bind_Ok_nil {A B} (a : A) (k : A -> M B) :
  bind (Ok a, []) k = k a.
Proof. apply bind_lift_Ok. Qed.

Lemma bind_ret {A B} (a : A) (k : A -> M B) :
  bind (ret a) k = k a.
Proof. apply bind_lift_Ok. Qed.

Lemma bind_call_Ok {A B} (ev : Event) (a : A) (k : A -> M B) :
  bind (call ev (Ok a)) k = (fst (k a), ev :: snd (k a)).
Proof. reflexivity. Qed.

Lemma bind_call_Throw {A B} (ev : Event) (e : JsError) (k : A -> M B) :
  bind (call ev (Throw e)) k = (Throw e, [ev]).
Proof. reflexivity. Qed.

Lemma bind_Ok {A B} (m : M A) (a : A) (k : A -> M B) :
  fst m = Ok a -> bind m k = (fst (k a), (snd m ++ snd (k a))%list).
Proof. intros H; unfold bind; now rewrite H. Qed.

Lemma bind_Throw {A B} (m : M A) (e : JsError) (k : A -> M B) :
  fst m = Throw e -> bind m k = (Throw e, snd m).
Proof. intros H; unfold bind; now rewrite H. Qed.

Lemma bind_ext {A B} (m : M A) (k k' : A -> M B) :
  (forall a, k a = k' a) -> bind m k = bind m k'.
Proof. intros H; unfold bind; destruct (fst m); [rewrite H|]; reflexivity. Qed.

Lemma try_catch_Ok {A} (m : M A) (a : A) (h : JsError -> M A) :
  fst m = Ok a -> try_catch m h = m.
Proof. intros H; unfold try_catch; now rewrite H. Qed.

Lemma try_catch_Throw {A} (m : M A) (e : JsError) (h : JsError -> M A) :
  fst m = Throw e ->
  try_catch m h = (fst (h e), (snd m ++ snd (h e))%list).
Proof. intros H; unfold try_catch; now rewrite H. Qed.

(** A [try] whose handler returns normally never throws. *)
Lemma try_catch_total {A} (m : M A) (h : JsError -> M A) :
  (forall e, exists a, fst (h e) = Ok a) ->
  exists a, fst (try_catch m h) = Ok a.
Proof.
  intros Hh; unfold try_catch.
  destruct (fst m) as [a|e] eqn:E.
  - exists a; exact E.
  - destruct (Hh e) as [a Ha]; exists a; exact Ha.
Qed.

Lemma read_only_app (t u : list Event) :
  Spec.read_only t -> Spec.read_only u -> Spec.read_only (t ++ u).
Proof.
  unfold Spec.read_only; intros Ht Hu.
  rewrite forallb_app, Ht, Hu; reflexivity.
Qed.

Ltac js_step :=
  first
    [ rewrite bind_lift_Ok
    | rewrite bind_ret
    | rewrite bind_lift_Throw
    | rewrite bind_call_Ok
    | rewrite bind_call_Throw ].

Ltac js_simpl := repeat (js_step; cbn beta iota).

(* ===================================================================== *)
(** ** The Base backend: ordered checks *)
(* ===================================================================== *)

Section BaseVerify.

Variable this : Base.BaseFacilitator.
Variable env : Env.
Variable p : PaymentPayload.
Variable r : PaymentRequirements.

(** [verify] always returns a response: no exception leaves it. *)
Lemma base_verify_total :
  exists v, fst (Base.verify this env p r) = Ok v.
Proof.
  apply try_catch_total; intros e; eexists; reflexivity.
Qed.

Variable sig : string.
Variable a : EvmAuthorization.
Variable cid : Z.
Hypothesis Hnet : Base.getChainId (network p) = Ok cid.
Hypothesis Hbody : payload p = EvmBody sig a.

Lemma chain_known : Base.getChain cid = Ok Base.base \/
                    Base.getChain cid = Ok Base.baseSepolia.
Proof.
  revert Hnet; unfold Base.getChainId.
  destruct (_ || _)%bool.
  - intros [= <-]; now left.
  - destruct (_ || _)%bool; [intros [= <-]; now right | discriminate].
Qed.

(** The timing check passes exactly when the authorization is not
    expired: a bound that does not read as a number excludes nothing. *)
Lemma not_expired_passes :
  ~ Spec.timing_expired env a <->
  num_lt (Num (Base.now env)) (parseInt (validAfter a)) = false /\
  num_gt (Num (Base.now env)) (parseInt (validBefore a)) = false.
Proof.
  unfold Spec.timing_expired; split.
  - intros H; split.
    + destruct (parseInt (validAfter a)) as [|va]; [reflexivity|]; simpl.
      apply Z.ltb_ge.
      destruct (Z.le_gt_cases va (Base.now env)) as [Hle|Hgt]; [exact Hle|].
      exfalso; apply H; left; exists va; split; [reflexivity | lia].
    + destruct (parseInt (validBefore a)) as [|vb]; [reflexivity|]; simpl.
      rewrite Z.gtb_ltb; apply Z.ltb_ge.
      destruct (Z.le_gt_cases (Base.now env) vb) as [Hle|Hgt]; [exact Hle|].
      exfalso; apply H; right; exists vb; split; [reflexivity | lia].
  - intros [H1 H2] [(va & E & Hlt) | (vb & E & Hlt)].
    + rewrite E in H1; simpl in H1. apply Z.ltb_ge in H1; lia.
    + rewrite E in H2; simpl in H2.
      rewrite Z.gtb_ltb in H2; apply Z.ltb_ge in H2; lia.
Qed.

(** Between the two bounds, when both read as numbers, is not expired. *)
Lemma timing_ok_not_expired :
  Spec.timing_ok env a -> ~ Spec.timing_expired env a.
Proof.
  intros (va & vb & Ea & Eb & Hle) [(va' & Ea' & Hlt) | (vb' & Eb' & Hlt)].
  - rewrite Ea in Ea'; injection Ea' as <-; lia.
  - rewrite Eb in Eb'; injection Eb' as <-; lia.
Qed.

(** The part of [verify_checks] after the destructuring. *)
Lemma verify_checks_unfold :
  Base.verify_checks env p r =
  if num_lt (Num (Base.now env)) (parseInt (validAfter a)) then
    ret (invalid payment_expired (Some (from a)))
  else if num_gt (Num (Base.now env)) (parseInt (validBefore a)) then
    ret (invalid payment_expired (Some (from a)))
  else if negb (value a =? maxAmountRequired r)%string then
    ret (invalid amount_mismatch (Some (from a)))
  else if negb (toLowerCase (to a) =? toLowerCase (payTo r))%string then
    ret (invalid recipient_mismatch (Some (from a)))
  else
    bind (lift (Base.message a)) (fun msg =>
    bind (lift (verifyTypedData env (from a) cid msg sig)) (fun sigOk =>
    if negb sigOk then ret (invalid invalid_signature (Some (from a)))
    else
      bind (lift (Base.getChain cid)) (fun _ =>
      bind (call (ReadBalanceOf cid (from a)) (balanceOf env cid (from a)))
        (fun balance =>
      bind (lift (BigInt (value a))) (fun v =>
      if balance <? v then ret (invalid insufficient_funds (Some (from a)))
      else
        bind (call (ReadAuthorizationState cid (from a) (nonce a))
                   (authorizationState env cid (from a) (nonce a)))
          (fun nonceUsed =>
        if nonceUsed then ret (invalid invalid_payload (Some (from a)))
        else ret (valid (from a)))))))).
Proof.
  unfold Base.verify_checks.
  rewrite Hnet, bind_lift_Ok.
  unfold Base.evm_body; rewrite Hbody, bind_lift_Ok.
  reflexivity.
Qed.

Lemma verify_of_checks (v : VerifyResponse) (t : list Event) :
  Base.verify_checks env p r = (Ok v, t) ->
  Base.verify this env p r = (Ok v, t).
Proof.
  intros H; unfold Base.verify.
  rewrite (try_catch_Ok _ v); rewrite H; reflexivity.
Qed.

Lemma expired_verdict :
  Spec.timing_expired env a ->
  Base.verify this env p r =
  (Ok (invalid payment_expired (Some (from a))), []).
Proof.
  intros H; apply verify_of_checks; rewrite verify_checks_unfold.
  destruct H as [(va & Ea & Hlt) | (vb & Eb & Hlt)].
  - rewrite Ea; simpl. apply Z.ltb_lt in Hlt; rewrite Hlt; reflexivity.
  - destruct (num_lt _ _); [reflexivity|].
    rewrite Eb; simpl. rewrite Z.gtb_ltb.
    apply Z.ltb_lt in Hlt; rewrite Hlt; reflexivity.
Qed.

Lemma amount_verdict :
  ~ Spec.timing_expired env a -> ~ Spec.amount_ok a r ->
  Base.verify this env p r =
  (Ok (invalid amount_mismatch (Some (from a))), []).
Proof.
  intros Ht Ha; apply verify_of_checks; rewrite verify_checks_unfold.
  destruct (proj1 not_expired_passes Ht) as [-> ->].
  apply String.eqb_neq in Ha; rewrite Ha; reflexivity.
Qed.

Lemma recipient_verdict :
  ~ Spec.timing_expired env a -> Spec.amount_ok a r ->
  ~ Spec.recipient_ok a r ->
  Base.verify this env p r =
  (Ok (invalid recipient_mismatch (Some (from a))), []).
Proof.
  intros Ht Ha Hr; apply verify_of_checks; rewrite verify_checks_unfold.
  destruct (proj1 not_expired_passes Ht) as [-> ->].
  apply String.eqb_eq in Ha; rewrite Ha.
  apply String.eqb_neq in Hr; rewrite Hr; reflexivity.
Qed.

(** Once the three local checks pass, the verdict is that of the
    signature and the two reads. *)
Lemma local_checks_pass :
  ~ Spec.timing_expired env a -> Spec.amount_ok a r -> Spec.recipient_ok a r ->
  Base.verify_checks env p r =
  bind (lift (Base.message a)) (fun msg =>
  bind (lift (verifyTypedData env (from a) cid msg sig)) (fun sigOk =>
  if negb sigOk then ret (invalid invalid_signature (Some (from a)))
  else
    bind (lift (Base.getChain cid)) (fun _ =>
    bind (call (ReadBalanceOf cid (from a)) (balanceOf env cid (from a)))
      (fun balance =>
    bind (lift (BigInt (value a))) (fun v =>
    if balance <? v then ret (invalid insufficient_funds (Some (from a)))
    else
      bind (call (ReadAuthorizationState cid (from a) (nonce a))
                 (authorizationState env cid (from a) (nonce a)))
        (fun nonceUsed =>
      if nonceUsed then ret (invalid invalid_payload (Some (from a)))
      else ret (valid (from a)))))))).
Proof.
  intros Ht Ha Hr; rewrite verify_checks_unfold.
  destruct (proj1 not_expired_passes Ht) as [-> ->].
  apply String.eqb_eq in Ha; rewrite Ha.
  apply String.eqb_eq in Hr; rewrite Hr; reflexivity.
Qed.

Lemma signature_verdict :
  ~ Spec.timing_expired env a -> Spec.amount_ok a r -> Spec.recipient_ok a r ->
  Spec.signature_is env cid sig a false ->
  Base.verify this env p r =
  (Ok (invalid invalid_signature (Some (from a))), []).
Proof.
  intros Ht Ha Hr (msg & Em & Es); apply verify_of_checks.
  rewrite (local_checks_pass Ht Ha Hr), Em, bind_lift_Ok, Es, bind_lift_Ok.
  reflexivity.
Qed.

Lemma after_signature :
  ~ Spec.timing_expired env a -> Spec.amount_ok a r -> Spec.recipient_ok a r ->
  Spec.signature_is env cid sig a true ->
  forall bal v,
    balanceOf env cid (from a) = Ok bal -> BigInt (value a) = Ok v ->
    Base.verify_checks env p r =
    if bal <? v then
      (Ok (invalid insufficient_funds (Some (from a))),
       [ReadBalanceOf cid (from a)])
    else
      match authorizationState env cid (from a) (nonce a) with
      | Ok nonceUsed =>
          (Ok (if nonceUsed then invalid invalid_payload (Some (from a))
               else valid (from a)),
           [ReadBalanceOf cid (from a);
            ReadAuthorizationState cid (from a) (nonce a)])
      | Throw e =>
          (Throw e,
           [ReadBalanceOf cid (from a);
            ReadAuthorizationState cid (from a) (nonce a)])
      end.
Proof.
  intros Ht Ha Hr (msg & Em & Es) bal v Eb Ev.
  rewrite (local_checks_pass Ht Ha Hr), Em, bind_lift_Ok, Es, bind_lift_Ok.
  cbn [negb].
  destruct chain_known as [-> | ->]; rewrite bind_lift_Ok, Eb, bind_call_Ok,
    Ev, bind_lift_Ok; (destruct (bal <? v); [reflexivity|]);
    (destruct (authorizationState _ _ _ _) as [[|]|e]; reflexivity).
Qed.

Lemma balance_verdict :
  ~ Spec.timing_expired env a -> Spec.amount_ok a r -> Spec.recipient_ok a r ->
  Spec.signature_is env cid sig a true ->
  Spec.balance_short env cid a ->
  Base.verify this env p r =
  (Ok (invalid insufficient_funds (Some (from a))),
   [ReadBalanceOf cid (from a)]).
Proof.
  intros Ht Ha Hr Hs (bal & v & Eb & Ev & Hlt); apply verify_of_checks.
  rewrite (after_signature Ht Ha Hr Hs bal v Eb Ev).
  apply Z.ltb_lt in Hlt; rewrite Hlt; reflexivity.
Qed.

Lemma replay_verdict (used : bool) :
  ~ Spec.timing_expired env a -> Spec.amount_ok a r -> Spec.recipient_ok a r ->
  Spec.signature_is env cid sig a true ->
  Spec.balance_covers env cid a ->
  Spec.nonce_is env cid a used ->
  Base.verify this env p r =
  (Ok (if used then invalid invalid_payload (Some (from a))
       else valid (from a)),
   [ReadBalanceOf cid (from a);
    ReadAuthorizationState cid (from a) (nonce a)]).
Proof.
  intros Ht Ha Hr Hs (bal & v & Eb & Ev & Hle) Hn; apply verify_of_checks.
  rewrite (after_signature Ht Ha Hr Hs bal v Eb Ev).
  apply Z.ltb_ge in Hle; rewrite Hle.
  unfold Spec.nonce_is in Hn; rewrite Hn; reflexivity.
Qed.

Lemma verify_of_fault (e : JsError) (t : list Event) :
  Base.verify_checks env p r = (Throw e, t) ->
  Base.verify this env p r = (Ok (invalid unexpected_error None), t).
Proof.
  intros H; unfold Base.verify.
  rewrite (try_catch_Throw _ e) by (rewrite H; reflexivity).
  rewrite H; simpl; now rewrite app_nil_r.
Qed.

Lemma signature_fault_verdict :
  ~ Spec.timing_expired env a -> Spec.amount_ok a r -> Spec.recipient_ok a r ->
  Spec.signature_faults env cid sig a ->
  Base.verify this env p r = (Ok (invalid unexpected_error None), []).
Proof.
  intros Ht Ha Hr Hs.
  destruct Hs as [[e Em] | (msg & e & Em & Es)];
    apply (verify_of_fault e); rewrite (local_checks_pass Ht Ha Hr), Em.
  - reflexivity.
  - rewrite bind_lift_Ok, Es; reflexivity.
Qed.

Lemma balance_fault_verdict :
  ~ Spec.timing_expired env a -> Spec.amount_ok a r -> Spec.recipient_ok a r ->
  Spec.signature_is env cid sig a true ->
  Spec.balance_faults env cid a ->
  Base.verify this env p r =
  (Ok (invalid unexpected_error None), [ReadBalanceOf cid (from a)]).
Proof.
  intros Ht Ha Hr (msg & Em & Es) [e Eb]; apply (verify_of_fault e).
  rewrite (local_checks_pass Ht Ha Hr), Em, bind_lift_Ok, Es, bind_lift_Ok.
  cbn [negb].
  destruct chain_known as [-> | ->]; rewrite bind_lift_Ok, Eb; reflexivity.
Qed.

Lemma nonce_fault_verdict :
  ~ Spec.timing_expired env a -> Spec.amount_ok a r -> Spec.recipient_ok a r ->
  Spec.signature_is env cid sig a true ->
  Spec.balance_covers env cid a ->
  Spec.nonce_faults env cid a ->
  Base.verify this env p r =
  (Ok (invalid unexpected_error None),
   [ReadBalanceOf cid (from a);
    ReadAuthorizationState cid (from a) (nonce a)]).
Proof.
  intros Ht Ha Hr Hs (bal & v & Eb & Ev & Hle) [e En].
  apply (verify_of_fault e).
  rewrite (after_signature Ht Ha Hr Hs bal v Eb Ev).
  apply Z.ltb_ge in Hle; rewrite Hle, En; reflexivity.
Qed.

End BaseVerify.

(** On a network [getChainId] does not know, [verify] stops before the
    first check. *)
Lemma unknown_network_verdict (this : Base.BaseFacilitator) (env : Env)
    (p : PaymentPayload) (r : PaymentRequirements) (e : JsError) :
  Base.getChainId (network p) = Throw e ->
  Base.verify this env p r = (Ok (invalid unexpected_error None), []).
Proof.
  intros H; unfold Base.verify, Base.verify_checks.
  rewrite H, bind_lift_Throw; reflexivity.
Qed.

(** C1 (amended).  For an Account-Authorization payload whose network is
    one of the four identifiers [getChainId] knows and whose recipient,
    [payTo], value and bounds are ASCII strings, [verify] reports the
    first check that fails, in the order timing ([payment_expired]), amount
    ([amount_mismatch]), recipient ([recipient_mismatch]), signature
    ([invalid_signature]), balance ([insufficient_funds]), replay
    ([invalid_payload]), always with [payer = from]; the verdict of a check
    holds whatever the later checks would answer, and the later reads are
    not even made (the trace lists the reads that were).  The timing check
    passes when the clock is neither before [validAfter] nor after
    [validBefore] as [parseInt] reads them: between the two bounds when
    both read as numbers, and a bound that does not read as a number
    excludes nothing.  When all six pass the result is
    [{isValid: true, payer: from}].  A check fails or passes when it
    completes with that answer; when the signature check or one of the two
    reads throws instead, the result is [unexpected_error], without
    payer. *)
Theorem base_verify_first_failing_check
    (this : Base.BaseFacilitator) (env : Env) (p : PaymentPayload)
    (r : PaymentRequirements) (sig : string) (a : EvmAuthorization)
    (cid : Z) :
  payload p = EvmBody sig a ->
  Base.getChainId (network p) = Ok cid ->
  Spec.ascii_authorization a r = true ->
  let in_time := ~ Spec.timing_expired env a in
  let passed_locally :=
    in_time /\ Spec.amount_ok a r /\ Spec.recipient_ok a r in
  let no_read : list Event := [] in
  let balance_read := [ReadBalanceOf cid (from a)] in
  let both_reads :=
    [ReadBalanceOf cid (from a);
     ReadAuthorizationState cid (from a) (nonce a)] in
  (* in time: between the bounds, or no bound to be outside of *)
  (Spec.timing_ok env a -> in_time)
  /\
  (parseInt (validAfter a) = NaN -> parseInt (validBefore a) = NaN ->
   in_time)
  /\
  (* the six checks, in order *)
  (Spec.timing_expired env a ->
   Base.verify this env p r =
   (Ok (invalid payment_expired (Some (from a))), no_read))
  /\
  (in_time -> ~ Spec.amount_ok a r ->
   Base.verify this env p r =
   (Ok (invalid amount_mismatch (Some (from a))), no_read))
  /\
  (in_time -> Spec.amount_ok a r -> ~ Spec.recipient_ok a r ->
   Base.verify this env p r =
   (Ok (invalid recipient_mismatch (Some (from a))), no_read))
  /\
  (passed_locally ->
   Spec.signature_is env cid sig a false ->
   Base.verify this env p r =
   (Ok (invalid invalid_signature (Some (from a))), no_read))
  /\
  (passed_locally ->
   Spec.signature_is env cid sig a true ->
   Spec.balance_short env cid a ->
   Base.verify this env p r =
   (Ok (invalid insufficient_funds (Some (from a))), balance_read))
  /\
  (passed_locally ->
   Spec.signature_is env cid sig a true ->
   Spec.balance_covers env cid a ->
   Spec.nonce_is env cid a true ->
   Base.verify this env p r =
   (Ok (invalid invalid_payload (Some (from a))), both_reads))
  /\
  (* all six pass *)
  (passed_locally ->
   Spec.signature_is env cid sig a true ->
   Spec.balance_covers env cid a ->
   Spec.nonce_is env cid a false ->
   Base.verify this env p r = (Ok (valid (from a)), both_reads))
  /\
  (* a check throws *)
  (passed_locally ->
   Spec.signature_faults env cid sig a ->
   Base.verify this env p r = (Ok (invalid unexpected_error None), no_read))
  /\
  (passed_locally ->
   Spec.signature_is env cid sig a true ->
   Spec.balance_faults env cid a ->
   Base.verify this env p r =
   (Ok (invalid unexpected_error None), balance_read))
  /\
  (passed_locally ->
   Spec.signature_is env cid sig a true ->
   Spec.balance_covers env cid a ->
   Spec.nonce_faults env cid a ->
   Base.verify this env p r =
   (Ok (invalid unexpected_error None), both_reads)).
Proof.
  intros Hbody Hnet _ in_time passed_locally no_read balance_read both_reads.
  unfold passed_locally, in_time.
  split; [exact (timing_ok_not_expired env a)|].
  split.
  { intros Ea Eb [(va & E & _) | (vb & E & _)]; congruence. }
  repeat split; intros;
    repeat match goal with H : _ /\ _ |- _ => destruct H end.
  - now apply (expired_verdict this env p r sig a cid).
  - now apply (amount_verdict this env p r sig a cid).
  - now apply (recipient_verdict this env p r sig a cid).
  - now apply (signature_verdict this env p r sig a cid).
  - now apply (balance_verdict this env p r sig a cid).
  - now apply (replay_verdict this env p r sig a cid Hnet Hbody true).
  - now apply (replay_verdict this env p r sig a cid Hnet Hbody false).
  - now apply (signature_fault_verdict this env p r sig a cid).
  - now apply (balance_fault_verdict this env p r sig a cid).
  - now apply (nonce_fault_verdict this env p r sig a cid).
Qed.

Lemma base_verify_first_failing_check_witness :
  Base.verify Fixtures.relayer Fixtures.sunny
    (Fixtures.evmPayload "base" Fixtures.authorization)
    (Fixtures.requirements "base" Fixtures.usdc None) =
  (Ok (valid "0xPayer"),
   [ReadBalanceOf 8453 "0xPayer";
    ReadAuthorizationState 8453 "0xPayer" "0x01"]).
Proof.
  destruct (base_verify_first_failing_check Fixtures.relayer Fixtures.sunny
              (Fixtures.evmPayload "base" Fixtures.authorization)
              (Fixtures.requirements "base" Fixtures.usdc None)
              "0xsigned" Fixtures.authorization 8453 eq_refl eq_refl eq_refl)
    as (Htime & _ & _ & _ & _ & _ & _ & _ & Hvalid & _).
  apply Hvalid.
  - split; [|split; reflexivity].
    apply Htime.
    exists 1699999000, 1700003600; repeat split; vm_compute; discriminate.
  - eexists; split; reflexivity.
  - exists 50000, 10000; repeat split; vm_compute; discriminate.
  - reflexivity.
Defined.

(** C1, as stated, fails in two ways.  The node does not answer the
    balance read: timing, amount, recipient and signature pass, and the
    answer is [unexpected_error], which is none of the six reasons (nor
    [isValid: true]).  The payload names a network [getChainId] throws on:
    every one of the six conditions holds, on every chain id, and the
    answer is [unexpected_error] again. *)
Lemma base_verify_fault_counterexample :
  let a := Fixtures.authorization in
  (let p := Fixtures.evmPayload "base" a in
   let r := Fixtures.requirements "base" Fixtures.usdc None in
   Spec.timing_ok Fixtures.base_node_down a /\
   Spec.amount_ok a r /\
   Spec.recipient_ok a r /\
   Spec.signature_is Fixtures.base_node_down 8453 "0xsigned" a true /\
   Spec.nonce_is Fixtures.base_node_down 8453 a false /\
   Base.verify Fixtures.relayer Fixtures.base_node_down p r =
     (Ok (invalid unexpected_error None), [ReadBalanceOf 8453 "0xPayer"]))
  /\
  (let p := Fixtures.evmPayload "eip155:1" a in
   let r := Fixtures.requirements "eip155:1" Fixtures.usdc None in
   payload p = EvmBody "0xsigned" a /\
   Spec.timing_ok Fixtures.sunny a /\
   Spec.amount_ok a r /\
   Spec.recipient_ok a r /\
   (forall cid, Spec.signature_is Fixtures.sunny cid "0xsigned" a true) /\
   (forall cid, Spec.balance_covers Fixtures.sunny cid a) /\
   (forall cid, Spec.nonce_is Fixtures.sunny cid a false) /\
   Base.verify Fixtures.relayer Fixtures.sunny p r =
     (Ok (invalid unexpected_error None), []) /\
   fst (Base.verify Fixtures.relayer Fixtures.sunny p r) <>
     Ok (valid (from a))).
Proof.
  cbv zeta; split; repeat split.
  - exists 1699999000, 1700003600; repeat split; vm_compute; discriminate.
  - eexists; split; reflexivity.
  - exists 1699999000, 1700003600; repeat split; vm_compute; discriminate.
  - intros cid; eexists; split; reflexivity.
  - intros cid; exists 50000, 10000; repeat split; vm_compute; discriminate.
  - vm_compute; discriminate.
Qed.

(* ===================================================================== *)
(** ** Settlement re-verifies; verification only reads *)
(* ===================================================================== *)

Section ReadOnly.

Lemma reads_ret {A} (x : A) : Spec.reads (ret x).
Proof. reflexivity. Qed.

Lemma reads_lift {A} (x : Res A) : Spec.reads (lift x).
Proof. reflexivity. Qed.

Lemma reads_call {A} (ev : Event) (x : Res A) :
  is_write ev = false -> Spec.reads (call ev x).
Proof. intros H; unfold Spec.reads, Spec.read_only; simpl; now rewrite H. Qed.

Lemma reads_bind {A B} (m : M A) (k : A -> M B) :
  Spec.reads m -> (forall x, Spec.reads (k x)) -> Spec.reads (bind m k).
Proof.
  intros Hm Hk; unfold bind.
  destruct (fst m) as [x|e]; [|exact Hm].
  apply read_only_app; [exact Hm | apply Hk].
Qed.

Lemma reads_try_catch {A} (m : M A) (h : JsError -> M A) :
  Spec.reads m -> (forall e, Spec.reads (h e)) -> Spec.reads (try_catch m h).
Proof.
  intros Hm Hh; unfold try_catch.
  destruct (fst m) as [x|e]; [exact Hm|].
  apply read_only_app; [exact Hm | apply Hh].
Qed.

End ReadOnly.

Ltac reads_tac :=
  repeat first
    [ apply reads_ret
    | apply reads_lift
    | apply reads_call; reflexivity
    | apply reads_bind; [| intro]
    | apply reads_try_catch; [| intro]
    | match goal with
      | |- Spec.reads (if ?b then _ else _) => destruct b
      | |- Spec.reads (match ?x with _ => _ end) => destruct x
      end ].

(** [Base.verify] submits nothing. *)
Lemma base_verify_reads (this : Base.BaseFacilitator) (env : Env)
    (p : PaymentPayload) (r : PaymentRequirements) :
  Spec.reads (Base.verify this env p r).
Proof. unfold Base.verify, Base.verify_checks; reads_tac. Qed.

(** [Solana.verify] submits nothing. *)
Lemma solana_verify_reads (this : Solana.SolanaFacilitator) (env : Env)
    (p : PaymentPayload) (r : PaymentRequirements) :
  Spec.reads (Solana.verify this env p r).
Proof.
  unfold Solana.verify, Solana.verify_steps, Solana.decode_payer,
    Solana.check_balance; reads_tac.
Qed.

Lemma solana_verify_total (this : Solana.SolanaFacilitator) (env : Env)
    (p : PaymentPayload) (r : PaymentRequirements) :
  exists v, fst (Solana.verify this env p r) = Ok v.
Proof.
  apply try_catch_total; intros e; eexists; reflexivity.
Qed.

(** The common shape of the two [settle] bodies: verify, give up with the
    verification's own reason, or go on. *)
Lemma reverify_gate (verify : M VerifyResponse) (net : string)
    (go_on : VerifyResponse -> M SettleResponse)
    (h : JsError -> M SettleResponse) (v : VerifyResponse) :
  fst verify = Ok v ->
  (forall e, exists s, fst (h e) = Ok s) ->
  let settle :=
    try_catch
      (bind verify (fun verification =>
         if negb (isValid verification) then
           ret (settle_failure (invalidReason verification) None net
                               (payer verification))
         else go_on verification))
      h in
  exists s,
    fst settle = Ok s /\
    (success s = true -> isValid v = true) /\
    (isValid v = false ->
     settle = (Ok (settle_failure (invalidReason v) None net (payer v)),
               snd verify)).
Proof.
  intros Hv Hh settle.
  destruct (try_catch_total
              (bind verify (fun verification =>
                 if negb (isValid verification) then
                   ret (settle_failure (invalidReason verification) None net
                                       (payer verification))
                 else go_on verification)) h Hh) as [s Hs].
  exists s; split; [exact Hs|].
  destruct (isValid v) eqn:Ev.
  - split; [reflexivity | discriminate].
  - assert (E : settle =
                (Ok (settle_failure (invalidReason v) None net (payer v)),
                 snd verify)).
    { unfold settle.
      rewrite (try_catch_Ok _
                 (settle_failure (invalidReason v) None net (payer v)));
        rewrite (bind_Ok _ v _ Hv), Ev; simpl; rewrite ?app_nil_r;
        reflexivity. }
    split; [|intros _; exact E].
    fold settle in Hs; rewrite E in Hs; simpl in Hs.
    injection Hs as <-; simpl; discriminate.
Qed.

(** C2 (amended).  On the Solana backend always, and on the Base backend
    once a funding key is configured, [settle] starts with a full [verify]
    and reports success only if that verification passed; when it failed,
    [settle] returns [success: false] with the verification's own reason
    and payer, and its interactions are exactly the reads of that
    verification: nothing is written to the ledger. *)
Theorem settle_reverifies_first (env : Env) (p : PaymentPayload)
    (r : PaymentRequirements) :
  (forall this key,
     Base.privateKey this = Some key ->
     exists v s,
       fst (Base.verify this env p r) = Ok v /\
       fst (Base.settle this env p r) = Ok s /\
       (success s = true -> isValid v = true) /\
       (isValid v = false ->
        Base.settle this env p r =
          (Ok (settle_failure (invalidReason v) None (network p) (payer v)),
           snd (Base.verify this env p r)) /\
        Spec.read_only (snd (Base.settle this env p r))))
  /\
  (forall this,
     exists v s,
       fst (Solana.verify this env p r) = Ok v /\
       fst (Solana.settle this env p r) = Ok s /\
       (success s = true -> isValid v = true) /\
       (isValid v = false ->
        Solana.settle this env p r =
          (Ok (settle_failure (invalidReason v) None (network p) (payer v)),
           snd (Solana.verify this env p r)) /\
        Spec.read_only (snd (Solana.settle this env p r)))).
Proof.
  split.
  - intros this key Hkey.
    destruct (base_verify_total this env p r) as [v Hv].
    unfold Base.settle; rewrite Hkey; unfold Base.settle_steps.
    edestruct (reverify_gate (Base.verify this env p r) (network p))
      as (s & Hs & Hsucc & Hfail); [exact Hv | | ].
    2:{ exists v, s; split; [exact Hv|]; split; [exact Hs|].
        split; [exact Hsucc|].
        intros Hinv; split; [apply Hfail; exact Hinv|].
        rewrite (Hfail Hinv); simpl; apply base_verify_reads. }
    intros e; eexists; reflexivity.
  - intros this.
    destruct (solana_verify_total this env p r) as [v Hv].
    unfold Solana.settle, Solana.settle_steps.
    edestruct (reverify_gate (Solana.verify this env p r) (network p))
      as (s & Hs & Hsucc & Hfail); [exact Hv | | ].
    2:{ exists v, s; split; [exact Hv|]; split; [exact Hs|].
        split; [exact Hsucc|].
        intros Hinv; split; [apply Hfail; exact Hinv|].
        rewrite (Hfail Hinv); simpl; apply solana_verify_reads. }
    intros e; eexists; reflexivity.
Qed.

Lemma settle_reverifies_first_witness :
  Base.settle Fixtures.relayer Fixtures.sunny
    (Fixtures.evmPayload "base" Fixtures.expired)
    (Fixtures.requirements "base" Fixtures.usdc None) =
  (Ok (settle_failure (Some payment_expired) None "base" (Some "0xPayer")),
   []).
Proof.
  destruct (settle_reverifies_first Fixtures.sunny
              (Fixtures.evmPayload "base" Fixtures.expired)
              (Fixtures.requirements "base" Fixtures.usdc None)) as [HB _].
  destruct (HB Fixtures.relayer "0xkey" eq_refl)
    as (v & s & Hv & _ & _ & Hfail).
  vm_compute in Hv; injection Hv as <-.
  destruct (Hfail eq_refl) as [E _].
  exact E.
Defined.

(** C2, as stated, fails on the Base backend without a funding key:
    [settle] does not verify first, and an expired authorization is
    answered with [settlement_failed], not with the verification's
    [payment_expired] and payer. *)
Lemma base_settle_keyless_counterexample :
  let p := Fixtures.evmPayload "base" Fixtures.expired in
  let r := Fixtures.requirements "base" Fixtures.usdc None in
  Base.verify Fixtures.keyless Fixtures.sunny p r =
    (Ok (invalid payment_expired (Some "0xPayer")), []) /\
  Base.settle Fixtures.keyless Fixtures.sunny p r =
    (Ok (settle_failure (Some settlement_failed) None "base" None), []) /\
  fst (Base.settle Fixtures.keyless Fixtures.sunny p r) <>
    Ok (settle_failure (Some payment_expired) None "base" (Some "0xPayer")).
Proof.
  cbv zeta; repeat split; vm_compute; discriminate.
Qed.

(* ===================================================================== *)
(** ** The Solana backend: which failure gives which reason *)
(* ===================================================================== *)

Section SolanaVerify.

Variable this : Solana.SolanaFacilitator.
Variable env : Env.
Variable p : PaymentPayload.
Variable r : PaymentRequirements.
Variable tx : string.
Hypothesis Hbody : payload p = SolanaBody tx.

Lemma or_else_truthy (s : string) :
  truthy s = true -> or_else s EmptyString = s.
Proof. unfold or_else; now intros ->. Qed.

Lemma decode_payer_resolved (who : string) :
  Spec.resolves_payer env tx who ->
  Solana.decode_payer env tx = (Ok who, []).
Proof.
  intros [Ht [(vtx & rest & Ed & Ek) | [Hfail (ltx & El & Ef)]]];
    unfold Solana.decode_payer.
  - rewrite Ed, bind_lift_Ok.
    unfold Solana.first_key; rewrite Ek; reflexivity.
  - assert (Hv : exists e,
               bind (lift (deserialize env tx))
                    (fun t => lift (Solana.first_key t)) = (Throw e, [])).
    { destruct Hfail as [[e Ed] | (vtx & Ed & Ek)]; rewrite Ed.
      - exists e; reflexivity.
      - rewrite bind_lift_Ok; unfold Solana.first_key; rewrite Ek.
        eexists; reflexivity. }
    destruct Hv as [e ->].
    rewrite (try_catch_Throw _ e) by reflexivity.
    rewrite El, bind_lift_Ok, Ef, (or_else_truthy who Ht); reflexivity.
Qed.

Lemma decode_payer_undecodable (e1 e2 : JsError) :
  deserialize env tx = Throw e1 ->
  transactionFrom env tx = Throw e2 ->
  Solana.decode_payer env tx = (Throw e2, []).
Proof.
  intros Ed El; unfold Solana.decode_payer.
  rewrite Ed, bind_lift_Throw.
  rewrite (try_catch_Throw _ e1) by reflexivity.
  rewrite El; reflexivity.
Qed.

(** With a resolved payer on a known network, [verify] is the balance
    check. *)
Lemma solana_verify_with_payer (who mint ata : string) :
  Spec.resolves_payer env tx who ->
  Solana.USDC_MINTS (network p) = Some mint ->
  getAssociatedTokenAddress env mint who = Ok ata ->
  Solana.verify this env p r = Solana.check_balance env ata who r.
Proof.
  intros Hp Hm Ha.
  assert (Ht : truthy who = true) by apply Hp.
  assert (E : Solana.verify_steps this env p r =
              Solana.check_balance env ata who r).
  { unfold Solana.verify_steps, Solana.solana_body.
    rewrite Hbody, bind_lift_Ok, (decode_payer_resolved who Hp), bind_Ok_nil.
    rewrite Ht, Hm; cbn [negb]. rewrite Ha, bind_lift_Ok; reflexivity. }
  unfold Solana.verify; rewrite E.
  destruct (try_catch_total
              (bind (call (GetAccount ata) (getAccount env ata))
                 (fun amount =>
                  bind (lift (BigInt (maxAmountRequired r)))
                    (fun requiredAmount =>
                     if amount <? requiredAmount
                     then ret (invalid insufficient_funds (Some who))
                     else ret (valid who))))
              (fun _ => ret (invalid insufficient_funds (Some who))))
    as [v Hv]; [intros; eexists; reflexivity|].
  apply (try_catch_Ok _ v); exact Hv.
Qed.

End SolanaVerify.

(** C3 (what the code does).  For a Signed-Transaction payload:
    - a transaction that decodes under neither format is answered with
      [unexpected_error] (the claim says [invalid_payload]): the legacy
      decoder's exception is caught by the outer handler only;
    - for a resolved payer on a known network, a token account that holds
      less than [maxAmountRequired] is answered with [insufficient_funds],
      and one that holds enough with [isValid: true];
    - ANY exception of the balance read, the missing account and the
      unreachable node alike, is answered with [insufficient_funds] (the
      claim says a ledger-read fault is [unexpected_error], never
      [insufficient_funds]). *)
Theorem solana_verify_reason_mapping
    (this : Solana.SolanaFacilitator) (env : Env) (p : PaymentPayload)
    (r : PaymentRequirements) (tx : string) :
  payload p = SolanaBody tx ->
  (forall e1 e2,
     deserialize env tx = Throw e1 ->
     transactionFrom env tx = Throw e2 ->
     Solana.verify this env p r = (Ok (invalid unexpected_error None), []))
  /\
  (forall who mint ata,
     Spec.resolves_payer env tx who ->
     Solana.USDC_MINTS (network p) = Some mint ->
     getAssociatedTokenAddress env mint who = Ok ata ->
     (forall e,
        getAccount env ata = Throw e ->
        Solana.verify this env p r =
        (Ok (invalid insufficient_funds (Some who)), [GetAccount ata]))
     /\
     (forall amount required,
        getAccount env ata = Ok amount ->
        BigInt (maxAmountRequired r) = Ok required ->
        Solana.verify this env p r =
        (Ok (if amount <? required
             then invalid insufficient_funds (Some who)
             else valid who),
         [GetAccount ata]))).
Proof.
  intros Hbody; split.
  - intros e1 e2 Ed El.
    unfold Solana.verify, Solana.verify_steps, Solana.solana_body.
    rewrite Hbody, bind_lift_Ok.
    rewrite (bind_Throw _ e2)
      by (rewrite (decode_payer_undecodable env tx e1 e2 Ed El); reflexivity).
    rewrite (decode_payer_undecodable env tx e1 e2 Ed El); reflexivity.
  - intros who mint ata Hp Hm Ha.
    rewrite (solana_verify_with_payer this env p r tx Hbody who mint ata
               Hp Hm Ha).
    unfold Solana.check_balance; split.
    + intros e Eg; rewrite Eg, bind_call_Throw; reflexivity.
    + intros amount required Eg Er.
      rewrite Eg, bind_call_Ok, Er, bind_lift_Ok.
      destruct (amount <? required); reflexivity.
Qed.

(** The node is unreachable while the payer's token account is read:
    the answer is [insufficient_funds]. *)
Lemma solana_verify_reason_mapping_witness :
  Solana.verify (Fixtures.solana None) Fixtures.node_down
    (Fixtures.solanaPayload "solana")
    (Fixtures.requirements "solana" Solana.mainnet_mint None) =
  (Ok (invalid insufficient_funds (Some "PayerPubkey")),
   [GetAccount "PayerTokenAccount"]).
Proof.
  destruct (solana_verify_reason_mapping (Fixtures.solana None)
              Fixtures.node_down (Fixtures.solanaPayload "solana")
              (Fixtures.requirements "solana" Solana.mainnet_mint None)
              "AQABsigned" eq_refl) as [_ H].
  destruct (H "PayerPubkey" Solana.mainnet_mint "PayerTokenAccount")
    as [Hfault _].
  - split; [reflexivity|]. left.
    exists Fixtures.versionedTx, ["MerchantPubkey"]; split; reflexivity.
  - reflexivity.
  - reflexivity.
  - apply (Hfault RpcError); reflexivity.
Defined.

(* ===================================================================== *)
(** ** Settlement: the funding key and the broadcast *)
(* ===================================================================== *)

Section SolanaSettle.

Variable this : Solana.SolanaFacilitator.
Variable env : Env.
Variable p : PaymentPayload.
Variable r : PaymentRequirements.
Variable tx : string.
Variable v : VerifyResponse.
Hypothesis Hbody : payload p = SolanaBody tx.
Hypothesis Hverify : fst (Solana.verify this env p r) = Ok v.
Hypothesis Hvalid : isValid v = true.

(** After a verification that passed, [settle] is the broadcast followed
    by the confirmation. *)
Lemma settle_after_verify (sig : string) (sent : list Event)
    (c : option string) :
  Solana.broadcast this env tx = (Ok sig, sent) ->
  confirmTransaction env sig = Ok c ->
  Solana.settle this env p r =
  (Ok (match c with
       | Some _ => settle_failure (Some settlement_failed) (Some sig)
                                  (network p) (payer v)
       | None => settle_success sig (network p) (payer v)
       end),
   (snd (Solana.verify this env p r) ++ sent ++ [ConfirmTransaction sig])%list).
Proof.
  intros Hb Hc.
  assert (E : Solana.settle_steps this env p r =
    (Ok (match c with
         | Some _ => settle_failure (Some settlement_failed) (Some sig)
                                    (network p) (payer v)
         | None => settle_success sig (network p) (payer v)
         end),
     (snd (Solana.verify this env p r) ++ sent ++
      [ConfirmTransaction sig])%list)).
  { unfold Solana.settle_steps.
    rewrite (bind_Ok _ v _ Hverify), Hvalid; cbn [negb].
    unfold Solana.solana_body; rewrite Hbody, bind_lift_Ok.
    rewrite (bind_Ok _ sig) by (rewrite Hb; reflexivity).
    rewrite Hb, Hc, bind_call_Ok; cbn [fst snd].
    destruct c; reflexivity. }
  unfold Solana.settle.
  erewrite try_catch_Ok; rewrite E; reflexivity.
Qed.

(** The verification passed although the versioned decoding failed: the
    payer is the fee payer of the legacy decoding. *)
Lemma legacy_fee_payer_set (e : JsError) (ltx : Transaction) :
  deserialize env tx = Throw e ->
  transactionFrom env tx = Ok ltx ->
  exists who, feePayer ltx = Some who.
Proof.
  intros Ed El.
  destruct (feePayer ltx) as [who|] eqn:Ef; [now exists who|exfalso].
  assert (Ep : Solana.decode_payer env tx = (Ok EmptyString, [])).
  { unfold Solana.decode_payer.
    rewrite Ed, bind_lift_Throw.
    rewrite (try_catch_Throw _ e) by reflexivity.
    rewrite El, bind_lift_Ok, Ef; reflexivity. }
  revert Hverify; unfold Solana.verify, Solana.verify_steps, Solana.solana_body.
  rewrite Hbody, bind_lift_Ok, Ep, bind_Ok_nil; cbn.
  intros [= <-]; discriminate Hvalid.
Qed.

End SolanaSettle.

(** C6 (amended).  After a verification that passed, [settle] broadcasts
    the transaction as decoded from the payload and maps the confirmation:
    an execution error gives [settlement_failed] with the transaction id, no
    error gives [success] with the id and the payer.
    - Versioned decoding succeeds and the node accepts the transaction:
      it is sent as decoded, no signer is involved.
    - Versioned decoding fails and the legacy one succeeds: the legacy
      transaction is sent with its fields as decoded (its fee payer is
      set, the verification resolved it), together with the facilitator's
      keypair as signer when one is configured, and with no signer
      otherwise. *)
Theorem solana_settle_broadcast
    (this : Solana.SolanaFacilitator) (env : Env) (p : PaymentPayload)
    (r : PaymentRequirements) (tx : string) (v : VerifyResponse) :
  payload p = SolanaBody tx ->
  fst (Solana.verify this env p r) = Ok v ->
  isValid v = true ->
  let outcome (sig : string) (c : option string) :=
    match c with
    | Some _ => settle_failure (Some settlement_failed) (Some sig)
                               (network p) (payer v)
    | None => settle_success sig (network p) (payer v)
    end in
  (forall vtx sig c,
     deserialize env tx = Ok vtx ->
     sendTransaction env vtx = Ok sig ->
     confirmTransaction env sig = Ok c ->
     Solana.settle this env p r =
     (Ok (outcome sig c),
      (snd (Solana.verify this env p r) ++
       [SendTransaction vtx; ConfirmTransaction sig])%list))
  /\
  (forall e ltx sig c,
     deserialize env tx = Throw e ->
     transactionFrom env tx = Ok ltx ->
     let signers := match Solana.keypair this with
                    | Some kp => [kp]
                    | None => []
                    end in
     sendAndConfirmTransaction env ltx signers = Ok sig ->
     confirmTransaction env sig = Ok c ->
     Solana.settle this env p r =
     (Ok (outcome sig c),
      (snd (Solana.verify this env p r) ++
       [SendAndConfirmTransaction ltx signers; ConfirmTransaction sig])%list)).
Proof.
  intros Hbody Hverify Hvalid outcome; split.
  - intros vtx sig c Ed Es Ec.
    apply (settle_after_verify this env p r tx v Hbody Hverify Hvalid
             sig [SendTransaction vtx] c); [|exact Ec].
    unfold Solana.broadcast.
    rewrite Ed, bind_lift_Ok, Es; reflexivity.
  - intros e ltx sig c Ed El signers Es Ec.
    apply (settle_after_verify this env p r tx v Hbody Hverify Hvalid
             sig [SendAndConfirmTransaction ltx signers] c); [|exact Ec].
    destruct (legacy_fee_payer_set this env p r tx v Hbody Hverify Hvalid
                e ltx Ed El) as [who Ef].
    unfold Solana.broadcast.
    rewrite Ed, bind_lift_Throw.
    rewrite (try_catch_Throw _ e) by reflexivity.
    rewrite El, bind_lift_Ok, Ef.
    assert (Esame :
      match Solana.keypair this with
      | Some _ => ltx
      | None => ltx
      end = ltx) by (destruct (Solana.keypair this); reflexivity).
    rewrite Esame. fold signers. rewrite Es; reflexivity.
Qed.

Lemma solana_settle_broadcast_witness :
  Solana.settle (Fixtures.solana None) Fixtures.sunny
    (Fixtures.solanaPayload "solana")
    (Fixtures.requirements "solana" Solana.mainnet_mint None) =
  (Ok (settle_success "0xfeed" "solana" (Some "PayerPubkey")),
   [GetAccount "PayerTokenAccount";
    SendTransaction Fixtures.versionedTx;
    ConfirmTransaction "0xfeed"]).
Proof.
  destruct (solana_settle_broadcast (Fixtures.solana None) Fixtures.sunny
              (Fixtures.solanaPayload "solana")
              (Fixtures.requirements "solana" Solana.mainnet_mint None)
              "AQABsigned" (valid "PayerPubkey")
              eq_refl eq_refl eq_refl) as [H _].
  apply (H Fixtures.versionedTx "0xfeed" None); reflexivity.
Defined.

(** C6, as stated, fails on the legacy fallback: with a keypair
    configured the facilitator's keypair is handed over as signer of the
    client's transaction; and when the fallback is taken because the node
    refused the versioned broadcast, a legacy transaction without fee payer
    is sent with the facilitator's key as fee payer. *)
Lemma solana_settle_signs_counterexample :
  let facilitator := Fixtures.solana (Some Fixtures.funder) in
  let p := Fixtures.solanaPayload "solana" in
  let r := Fixtures.requirements "solana" Solana.mainnet_mint None in
  Solana.settle facilitator Fixtures.legacy_only p r =
    (Ok (settle_success "5igSent" "solana" (Some "PayerPubkey")),
     [GetAccount "PayerTokenAccount";
      SendAndConfirmTransaction Fixtures.legacyTx [Fixtures.funder];
      ConfirmTransaction "5igSent"]) /\
  transactionFrom Fixtures.send_refused "AQABsigned" =
    Ok Fixtures.payerlessTx /\
  Solana.settle facilitator Fixtures.send_refused p r =
    (Ok (settle_success "5igSent" "solana" (Some "PayerPubkey")),
     [GetAccount "PayerTokenAccount";
      SendTransaction Fixtures.versionedTx;
      SendAndConfirmTransaction
        {| feePayer := Some "FacilitatorPubkey"; l_wire := "AQAB" |}
        [Fixtures.funder];
      ConfirmTransaction "5igSent"]).
Proof. cbv zeta; repeat split. Qed.

(* ===================================================================== *)
(** ** Network resolution and the verify handler *)
(* ===================================================================== *)

Section Handlers.

Variable srv : Server.Server.
Variable env : Env.

(** The backend the verify handler dispatches to always answers. *)
Lemma dispatch_verify_total (n : string) (pp : PaymentPayload)
    (pr : PaymentRequirements) :
  exists v,
    fst (Server.dispatch_verify srv env n pp pr) = Ok v.
Proof.
  unfold Server.dispatch_verify.
  destruct (Server.isEvmNetwork n); [apply base_verify_total|].
  destruct (Server.isSolanaNetwork n); [apply solana_verify_total|].
  eexists; reflexivity.
Qed.

Lemma dispatch_verify_reads (n : string) (pp : PaymentPayload)
    (pr : PaymentRequirements) :
  Spec.reads (Server.dispatch_verify srv env n pp pr).
Proof.
  unfold Server.dispatch_verify.
  destruct (Server.isEvmNetwork n); [apply base_verify_reads|].
  destruct (Server.isSolanaNetwork n); [apply solana_verify_reads|].
  reflexivity.
Qed.

(** The answer of POST /verify is 200 with a valid body or 400 with an
    invalid one: the handler's own catch-all is never reached. *)
Lemma post_verify_structured (reg : Discovery.Registry) (req : Server.Request) :
  let out := Server.post_verify srv env reg req in
  (Server.status out = 200 /\ isValid (Server.body out) = true) \/
  (Server.status out = 400 /\ isValid (Server.body out) = false).
Proof.
  cbv zeta; unfold Server.post_verify; cbv zeta.
  destruct (Server.paymentPayload req) as [pp|]; [|right; split; reflexivity].
  destruct (Server.paymentRequirements req) as [pr|];
    [|right; split; reflexivity].
  destruct (negb (truthy (Server.request_network pp pr)));
    [right; split; reflexivity|].
  destruct (dispatch_verify_total (Server.request_network pp pr) pp pr)
    as [v Hv].
  cbv zeta; rewrite Hv; simpl.
  destruct (isValid v); [left | right]; split; reflexivity.
Qed.

(** What POST /verify answers does not depend on the registry. *)
Lemma post_verify_answer_independent (reg reg' : Discovery.Registry)
    (req : Server.Request) :
  Server.status (Server.post_verify srv env reg req) =
    Server.status (Server.post_verify srv env reg' req) /\
  Server.body (Server.post_verify srv env reg req) =
    Server.body (Server.post_verify srv env reg' req) /\
  Server.interactions (Server.post_verify srv env reg req) =
    Server.interactions (Server.post_verify srv env reg' req).
Proof.
  cbv zeta; unfold Server.post_verify; cbv zeta.
  destruct (Server.paymentPayload req) as [pp|]; [|repeat split].
  destruct (Server.paymentRequirements req) as [pr|]; [|repeat split].
  destruct (negb (truthy (Server.request_network pp pr))); [repeat split|].
  cbv zeta.
  destruct (fst _); repeat split.
Qed.

Lemma post_verify_reads (reg : Discovery.Registry) (req : Server.Request) :
  Spec.read_only (Server.interactions (Server.post_verify srv env reg req)).
Proof.
  cbv zeta; unfold Server.post_verify; cbv zeta.
  destruct (Server.paymentPayload req) as [pp|]; [|reflexivity].
  destruct (Server.paymentRequirements req) as [pr|]; [|reflexivity].
  destruct (negb (truthy (Server.request_network pp pr))); [reflexivity|].
  cbv zeta.
  pose proof (dispatch_verify_reads (Server.request_network pp pr) pp pr) as H.
  destruct (fst _); exact H.
Qed.

(** The registry after POST /verify: the catalog of the requirements when
    the verification passed, the registry as it was otherwise. *)
Lemma post_verify_registry (reg : Discovery.Registry) (req : Server.Request) :
  let out := Server.post_verify srv env reg req in
  (isValid (Server.body out) = false -> Server.registry out = reg) /\
  (forall pr,
     Server.paymentRequirements req = Some pr ->
     isValid (Server.body out) = true ->
     Server.registry out =
     Discovery.catalogFromPayment env reg (Server.x402Version req) pr).
Proof.
  cbv zeta; unfold Server.post_verify; cbv zeta.
  destruct (Server.paymentPayload req) as [pp|];
    [|split; [reflexivity | intros; discriminate]].
  destruct (Server.paymentRequirements req) as [pr|];
    [|split; [reflexivity | intros; discriminate]].
  destruct (negb (truthy (Server.request_network pp pr)));
    [split; [reflexivity | intros; discriminate]|].
  cbv zeta.
  destruct (fst _) as [v|e]; simpl.
  - destruct (isValid v); split; try reflexivity; try discriminate.
    intros pr' [= <-] _; reflexivity.
  - split; [reflexivity | intros; discriminate].
Qed.

Lemma post_settle_registry (reg : Discovery.Registry) (req : Server.Request) :
  Server.registry (Server.post_settle srv env reg req) = reg.
Proof.
  unfold Server.post_settle; cbv zeta.
  destruct (Server.paymentPayload req) as [pp|]; [|reflexivity].
  destruct (Server.paymentRequirements req) as [pr|]; [|reflexivity].
  destruct (negb (truthy (Server.request_network pp pr))); [reflexivity|].
  destruct (_ && _)%bool; [reflexivity|].
  cbv zeta.
  destruct (fst _); reflexivity.
Qed.

End Handlers.

Lemma catalog_without_extension (env : Env) (reg : Discovery.Registry)
    (version : Z) (pr : PaymentRequirements) :
  bazaar pr = None ->
  Discovery.catalogFromPayment env reg version pr = reg.
Proof.
  intros H; unfold Discovery.catalogFromPayment, Discovery.extractDiscoveryInfo.
  rewrite H; reflexivity.
Qed.

(** The answer of POST /verify is the answer of the backend the request
    was dispatched to. *)
Lemma post_verify_dispatched (srv : Server.Server) (env : Env)
    (reg : Discovery.Registry) (req : Server.Request) (pp : PaymentPayload)
    (pr : PaymentRequirements) (m : M VerifyResponse) :
  Server.paymentPayload req = Some pp ->
  Server.paymentRequirements req = Some pr ->
  truthy (Server.request_network pp pr) = true ->
  Server.dispatch_verify srv env (Server.request_network pp pr) pp pr = m ->
  fst m = Ok (Server.body (Server.post_verify srv env reg req)) /\
  snd m = Server.interactions (Server.post_verify srv env reg req).
Proof.
  intros Hpp Hpr Ht <-.
  unfold Server.post_verify; rewrite Hpp, Hpr; cbv zeta; rewrite Ht.
  cbn [negb].
  destruct (dispatch_verify_total srv env (Server.request_network pp pr)
              pp pr) as [v Hv].
  rewrite Hv; split; reflexivity.
Qed.

(** C4 (amended).  Resolution is a total function of the identifier:
    - "base" and "eip155:8453" name the same chain id, and both handlers
      call the one Base facilitator instance of the process for either
      (hence one funding address);
    - each of the eight supported identifiers matches the pattern of its
      own family and not the other's, and both handlers dispatch it to
      the backend of its family;
    - an identifier that matches neither pattern gets the structured
      [unsupported_network] answer from both handlers, with no chain
      interaction;
    - whatever the identifier, POST /verify answers 200 with a valid body
      or 400 with an invalid one, never its 500 fault answer;
    - an identifier that matches the EVM pattern is dispatched to the
      Base backend by both handlers, also when it matches the Solana
      pattern too: the answer and the chain interactions of POST /verify
      are then those of the Base backend's [verify]. *)
Theorem network_resolution (srv : Server.Server) (env : Env)
    (reg : Discovery.Registry) (req : Server.Request) :
  (Base.getChainId "base" = Ok 8453 /\
   Base.getChainId "eip155:8453" = Ok 8453 /\
   (forall pp pr,
      Server.dispatch_verify srv env "base" pp pr =
        Base.verify (Server.baseFacilitator srv) env pp pr /\
      Server.dispatch_verify srv env "eip155:8453" pp pr =
        Base.verify (Server.baseFacilitator srv) env pp pr /\
      Server.dispatch_settle srv env "base" pp pr =
        Base.settle (Server.baseFacilitator srv) env pp pr /\
      Server.dispatch_settle srv env "eip155:8453" pp pr =
        Base.settle (Server.baseFacilitator srv) env pp pr))
  /\
  (forall n,
     (In n Base.getSupportedNetworks ->
      Server.isEvmNetwork n = true /\ Server.isSolanaNetwork n = false /\
      forall pp pr,
        Server.dispatch_verify srv env n pp pr =
          Base.verify (Server.baseFacilitator srv) env pp pr /\
        Server.dispatch_settle srv env n pp pr =
          Base.settle (Server.baseFacilitator srv) env pp pr) /\
     (In n Solana.getSupportedNetworks ->
      Server.isEvmNetwork n = false /\ Server.isSolanaNetwork n = true /\
      forall pp pr,
        Server.dispatch_verify srv env n pp pr =
          Solana.verify (Server.solanaFacilitator srv) env pp pr /\
        Server.dispatch_settle srv env n pp pr =
          Solana.settle (Server.solanaFacilitator srv) env pp pr))
  /\
  (forall pp pr,
     Server.paymentPayload req = Some pp ->
     Server.paymentRequirements req = Some pr ->
     let n := Server.request_network pp pr in
     truthy n = true ->
     Server.isEvmNetwork n = false ->
     Server.isSolanaNetwork n = false ->
     Server.post_verify srv env reg req =
       {| Server.status := 400;
          Server.body := invalid unsupported_network None;
          Server.registry := reg;
          Server.interactions := [] |} /\
     Server.post_settle srv env reg req =
       {| Server.status := 400;
          Server.body := Server.failure_body unsupported_network (Some n);
          Server.registry := reg;
          Server.interactions := [] |})
  /\
  (let out := Server.post_verify srv env reg req in
   (Server.status out = 200 /\ isValid (Server.body out) = true) \/
   (Server.status out = 400 /\ isValid (Server.body out) = false))
  /\
  (forall n pp pr,
     Server.isEvmNetwork n = true ->
     Server.dispatch_verify srv env n pp pr =
       Base.verify (Server.baseFacilitator srv) env pp pr /\
     Server.dispatch_settle srv env n pp pr =
       Base.settle (Server.baseFacilitator srv) env pp pr)
  /\
  (forall pp pr,
     Server.paymentPayload req = Some pp ->
     Server.paymentRequirements req = Some pr ->
     Server.isEvmNetwork (Server.request_network pp pr) = true ->
     let out := Server.post_verify srv env reg req in
     let backend := Base.verify (Server.baseFacilitator srv) env pp pr in
     fst backend = Ok (Server.body out) /\
     snd backend = Server.interactions out).
Proof.
  assert (Hevm : forall n pp pr,
            Server.isEvmNetwork n = true ->
            Server.dispatch_verify srv env n pp pr =
              Base.verify (Server.baseFacilitator srv) env pp pr /\
            Server.dispatch_settle srv env n pp pr =
              Base.settle (Server.baseFacilitator srv) env pp pr).
  { intros n pp pr He.
    unfold Server.dispatch_verify, Server.dispatch_settle.
    rewrite He; split; reflexivity. }
  assert (Hsol : forall n pp pr,
            Server.isEvmNetwork n = false ->
            Server.isSolanaNetwork n = true ->
            Server.dispatch_verify srv env n pp pr =
              Solana.verify (Server.solanaFacilitator srv) env pp pr /\
            Server.dispatch_settle srv env n pp pr =
              Solana.settle (Server.solanaFacilitator srv) env pp pr).
  { intros n pp pr He Hs.
    unfold Server.dispatch_verify, Server.dispatch_settle.
    rewrite He, Hs; split; reflexivity. }
  split; [repeat split|].
  split.
  { intros n; split; intros Hin; simpl in Hin.
    - assert (E : Server.isEvmNetwork n = true /\
                  Server.isSolanaNetwork n = false)
        by (repeat (destruct Hin as [<- | Hin]; [split; reflexivity|]);
            contradiction).
      destruct E as [He Hs]; split; [exact He|]; split; [exact Hs|].
      intros pp pr; exact (Hevm n pp pr He).
    - assert (E : Server.isEvmNetwork n = false /\
                  Server.isSolanaNetwork n = true)
        by (repeat (destruct Hin as [<- | Hin]; [split; reflexivity|]);
            contradiction).
      destruct E as [He Hs]; split; [exact He|]; split; [exact Hs|].
      intros pp pr; exact (Hsol n pp pr He Hs). }
  split.
  { intros pp pr Hpp Hpr n Ht He Hs.
    unfold Server.post_verify, Server.post_settle,
      Server.dispatch_verify, Server.dispatch_settle.
    rewrite Hpp, Hpr; fold n; rewrite Ht, He, Hs; repeat split. }
  split; [apply post_verify_structured|].
  split; [exact Hevm|].
  intros pp pr Hpp Hpr He; cbv zeta.
  apply (post_verify_dispatched srv env reg req pp pr _ Hpp Hpr).
  - destruct (Server.request_network pp pr); [discriminate He | reflexivity].
  - exact (proj1 (Hevm _ pp pr He)).
Qed.

Lemma network_resolution_witness :
  Server.post_verify Fixtures.server Fixtures.sunny []
    (Fixtures.verifyRequest
       (Fixtures.evmPayload "bitcoin" Fixtures.authorization)
       (Fixtures.requirements "bitcoin" Fixtures.usdc None)) =
  {| Server.status := 400;
     Server.body := invalid unsupported_network None;
     Server.registry := [];
     Server.interactions := [] |}.
Proof.
  destruct (network_resolution Fixtures.server Fixtures.sunny []
              (Fixtures.verifyRequest
                 (Fixtures.evmPayload "bitcoin" Fixtures.authorization)
                 (Fixtures.requirements "bitcoin" Fixtures.usdc None)))
    as (_ & _ & H & _).
  destruct (H (Fixtures.evmPayload "bitcoin" Fixtures.authorization)
              (Fixtures.requirements "bitcoin" Fixtures.usdc None)
              eq_refl eq_refl eq_refl eq_refl eq_refl) as (Hv & _).
  exact Hv.
Defined.

(** C4, as stated, fails twice: "base-solana" matches the patterns of
    both families, and the unknown "eip155:1" (every check of the
    authorization would pass) is answered with [unexpected_error], not
    with [unsupported_network]. *)
Lemma network_patterns_counterexample :
  (Server.isEvmNetwork "base-solana" = true /\
   Server.isSolanaNetwork "base-solana" = true) /\
  (~ In "eip155:1" (Base.getSupportedNetworks ++ Solana.getSupportedNetworks) /\
   Server.body
     (Server.post_verify Fixtures.server Fixtures.sunny []
        (Fixtures.verifyRequest
           (Fixtures.evmPayload "eip155:1" Fixtures.authorization)
           (Fixtures.requirements "eip155:1" Fixtures.usdc None))) =
   invalid unexpected_error None).
Proof.
  repeat split.
  simpl; intros H.
  repeat (destruct H as [H | H]; [discriminate H|]); exact H.
Qed.

(** C9 (amended).  A backend [verify] only reads: its trace holds no
    write, on either backend, and so does the trace of POST /verify.  The
    answer of POST /verify (status, body, interactions) is a function of
    the request, the clock and the chain, not of the registry, so a second
    identical call gets the identical answer.  The handler does change
    the Discovery Catalog: after a verification that passed, the registry
    is the catalog of the request's requirements; it is unchanged when the
    verification failed or the requirements carry no discovery extension.
    POST /settle never changes the registry. *)
Theorem verify_effects (srv : Server.Server) (env : Env)
    (reg : Discovery.Registry) (req : Server.Request) :
  (forall p r,
     Spec.read_only (snd (Base.verify (Server.baseFacilitator srv) env p r)) /\
     Spec.read_only
       (snd (Solana.verify (Server.solanaFacilitator srv) env p r)))
  /\
  (let first := Server.post_verify srv env reg req in
   let second := Server.post_verify srv env (Server.registry first) req in
   Server.status second = Server.status first /\
   Server.body second = Server.body first /\
   Server.interactions second = Server.interactions first /\
   Spec.read_only (Server.interactions first))
  /\
  (let out := Server.post_verify srv env reg req in
   (isValid (Server.body out) = false -> Server.registry out = reg) /\
   (forall pr,
      Server.paymentRequirements req = Some pr ->
      (bazaar pr = None -> Server.registry out = reg) /\
      (isValid (Server.body out) = true ->
       Server.registry out =
       Discovery.catalogFromPayment env reg (Server.x402Version req) pr)))
  /\
  Server.registry (Server.post_settle srv env reg req) = reg.
Proof.
  split.
  { intros p r; split; [apply base_verify_reads | apply solana_verify_reads]. }
  split.
  { cbv zeta.
    destruct (post_verify_answer_independent srv env
                (Server.registry (Server.post_verify srv env reg req)) reg req)
      as (Hs & Hb & Hi).
    repeat split; try assumption. apply post_verify_reads. }
  split.
  { cbv zeta.
    destruct (post_verify_registry srv env reg req) as [Hfail Hok].
    split; [exact Hfail|].
    intros pr Hpr; split; [|apply Hok; exact Hpr].
    intros Hb.
    destruct (isValid (Server.body (Server.post_verify srv env reg req))) eqn:E.
    - rewrite (Hok pr Hpr eq_refl). apply catalog_without_extension; exact Hb.
    - apply Hfail; reflexivity. }
  apply post_settle_registry.
Qed.

Lemma verify_effects_witness :
  Server.registry
    (Server.post_verify Fixtures.server Fixtures.sunny []
       (Fixtures.verifyRequest
          (Fixtures.evmPayload "base" Fixtures.expired)
          (Fixtures.requirements "base" Fixtures.usdc Fixtures.listed))) = [].
Proof.
  destruct (verify_effects Fixtures.server Fixtures.sunny []
              (Fixtures.verifyRequest
                 (Fixtures.evmPayload "base" Fixtures.expired)
                 (Fixtures.requirements "base" Fixtures.usdc Fixtures.listed)))
    as (_ & _ & [H _] & _).
  apply H; reflexivity.
Defined.

(** C9, as stated, fails: one POST /verify of a valid payment whose
    requirements carry the discovery extension adds an entry to the empty
    Discovery Catalog. *)
Lemma verify_catalogs_counterexample :
  let out :=
    Server.post_verify Fixtures.server Fixtures.sunny []
      (Fixtures.verifyRequest
         (Fixtures.evmPayload "base" Fixtures.authorization)
         (Fixtures.requirements "base" Fixtures.usdc Fixtures.listed)) in
  isValid (Server.body out) = true /\
  map fst (Server.registry out) = ["https://api.example.com/weather"] /\
  Server.registry out <> [].
Proof. cbv zeta; repeat split; vm_compute; discriminate. Qed.

(* ===================================================================== *)
(** ** Settlement without a funding key *)
(* ===================================================================== *)

(** The versioned broadcast: the transaction decodes and the node accepts
    it. *)
Lemma broadcast_versioned (this : Solana.SolanaFacilitator) (env : Env)
    (tx sig : string) (vtx : VersionedTransaction) :
  deserialize env tx = Ok vtx ->
  sendTransaction env vtx = Ok sig ->
  Solana.broadcast this env tx = (Ok sig, [SendTransaction vtx]).
Proof.
  intros Ed Es; unfold Solana.broadcast.
  rewrite Ed, bind_lift_Ok, Es; reflexivity.
Qed.

(** C5.  What [settle] does without a funding key.
    - On the Base backend it returns
      [{success: false, errorReason: settlement_failed}] before any chain
      interaction (no read, no write), and POST /settle answers 503 with
      the same reason for every identifier of the EVM pattern when the
      Base key is not configured, or is empty.
    - On the Solana backend nothing looks at the keypair before the
      broadcast: without a keypair, a payment that verifies and whose
      transaction the node accepts is submitted, and the answer follows
      the confirmation, [success: true] when it carries no error.  POST
      /settle has no guard for the Solana pattern either: its answer and
      its chain interactions are those of the backend.
    - POST /verify is not affected by the keys: whatever is configured it
      answers 200 or 400, never the 503 of a disabled settlement. *)
Theorem settle_without_funding_key (env : Env) (p : PaymentPayload)
    (r : PaymentRequirements) :
  (forall this,
     Base.privateKey this = None ->
     Base.settle this env p r =
     (Ok (settle_failure (Some settlement_failed) None (network p) None), []))
  /\
  (forall srv reg version,
     let n := Server.request_network p r in
     Server.isEvmNetwork n = true ->
     match Server.basePrivateKey (Server.config srv) with
     | Some k => truthy k = false
     | None => True
     end ->
     Server.post_settle srv env reg
       {| Server.x402Version := version;
          Server.paymentPayload := Some p;
          Server.paymentRequirements := Some r |} =
     {| Server.status := 503;
        Server.body := Server.failure_body settlement_failed (Some n);
        Server.registry := reg;
        Server.interactions := [] |})
  /\
  (forall this tx v vtx sig c,
     Solana.keypair this = None ->
     payload p = SolanaBody tx ->
     fst (Solana.verify this env p r) = Ok v ->
     isValid v = true ->
     deserialize env tx = Ok vtx ->
     sendTransaction env vtx = Ok sig ->
     confirmTransaction env sig = Ok c ->
     Solana.settle this env p r =
     (Ok (match c with
          | Some _ => settle_failure (Some settlement_failed) (Some sig)
                                     (network p) (payer v)
          | None => settle_success sig (network p) (payer v)
          end),
      (snd (Solana.verify this env p r) ++
       [SendTransaction vtx; ConfirmTransaction sig])%list))
  /\
  (forall srv reg version s,
     let n := Server.request_network p r in
     Server.isEvmNetwork n = false ->
     Server.isSolanaNetwork n = true ->
     Solana.keypair (Server.solanaFacilitator srv) = None ->
     fst (Solana.settle (Server.solanaFacilitator srv) env p r) = Ok s ->
     Server.post_settle srv env reg
       {| Server.x402Version := version;
          Server.paymentPayload := Some p;
          Server.paymentRequirements := Some r |} =
     {| Server.status := if success s then 200 else 400;
        Server.body := s;
        Server.registry := reg;
        Server.interactions :=
          snd (Solana.settle (Server.solanaFacilitator srv) env p r) |})
  /\
  (forall srv reg req,
     let out := Server.post_verify srv env reg req in
     Server.status out = 200 \/ Server.status out = 400).
Proof.
  split; [|split; [|split; [|split]]].
  - intros this Hkey; unfold Base.settle; rewrite Hkey; reflexivity.
  - intros srv reg version n He Hkey.
    assert (Ht : truthy n = true)
      by (destruct n; [discriminate He | reflexivity]).
    unfold Server.post_settle; simpl; fold n.
    rewrite Ht, He.
    destruct (Server.basePrivateKey (Server.config srv)) as [k|];
      [rewrite Hkey|]; reflexivity.
  - intros this tx v vtx sig c _ Hbody Hv Hvalid Ed Es Ec.
    rewrite (settle_after_verify this env p r tx v Hbody Hv Hvalid sig
               [SendTransaction vtx] c
               (broadcast_versioned this env tx sig vtx Ed Es) Ec).
    reflexivity.
  - intros srv reg version s n He Hs _ Hrun.
    assert (Ht : truthy n = true)
      by (destruct n; [discriminate Hs | reflexivity]).
    unfold Server.post_settle; simpl; fold n.
    rewrite Ht, He; cbn [negb andb].
    unfold Server.dispatch_settle; rewrite He, Hs, Hrun; reflexivity.
  - intros srv reg req; cbv zeta.
    destruct (post_verify_structured srv env reg req) as [[H _] | [H _]];
      [left | right]; exact H.
Qed.

(** The failing run: no keypair, and the payment is settled. *)
Lemma settle_without_funding_key_witness :
  Solana.keypair (Fixtures.solana None) = None /\
  Solana.settle (Fixtures.solana None) Fixtures.sunny
    (Fixtures.solanaPayload "solana")
    (Fixtures.requirements "solana" Solana.mainnet_mint None) =
  (Ok (settle_success "0xfeed" "solana" (Some "PayerPubkey")),
   [GetAccount "PayerTokenAccount";
    SendTransaction Fixtures.versionedTx;
    ConfirmTransaction "0xfeed"]).
Proof.
  split; [reflexivity|].
  destruct (settle_without_funding_key Fixtures.sunny
              (Fixtures.solanaPayload "solana")
              (Fixtures.requirements "solana" Solana.mainnet_mint None))
    as (_ & _ & H & _).
  apply (H (Fixtures.solana None) "AQABsigned" (valid "PayerPubkey")
           Fixtures.versionedTx "0xfeed" None);
    reflexivity.
Defined.

(* ===================================================================== *)
(** ** The discovery registry: the map and the merge *)
(* ===================================================================== *)

Section RegistryMap.

Implicit Types (reg : Discovery.Registry) (k : string)
  (v : Discovery.DiscoveredResource).

Lemma get_In reg k v : Discovery.get reg k = Some v -> In (k, v) reg.
Proof.
  induction reg as [|[k0 v0] rest IH]; simpl; [discriminate|].
  destruct (String.eqb_spec k0 k) as [->|Hne].
  - intros [= ->]; now left.
  - intros H; right; auto.
Qed.

Lemma get_None reg k : Discovery.get reg k = None -> ~ In k (map fst reg).
Proof.
  induction reg as [|[k0 v0] rest IH]; simpl; [tauto|].
  destruct (String.eqb_spec k0 k) as [->|Hne]; [discriminate|].
  intros H [E|Hin]; [contradiction | exact (IH H Hin)].
Qed.

Lemma set_keys_existing reg k v old :
  Discovery.get reg k = Some old ->
  map fst (Discovery.set reg k v) = map fst reg.
Proof.
  induction reg as [|[k0 v0] rest IH]; simpl; [discriminate|].
  destruct (String.eqb_spec k0 k) as [->|Hne]; simpl; [reflexivity|].
  intros H; f_equal; auto.
Qed.

Lemma set_keys_fresh reg k v :
  Discovery.get reg k = None ->
  map fst (Discovery.set reg k v) = (map fst reg ++ [k])%list.
Proof.
  induction reg as [|[k0 v0] rest IH]; simpl; [reflexivity|].
  destruct (String.eqb_spec k0 k) as [->|Hne]; simpl; [discriminate|].
  intros H; f_equal; auto.
Qed.

Lemma set_Forall (P : string * Discovery.DiscoveredResource -> Prop) reg k v :
  Forall P reg -> P (k, v) -> Forall P (Discovery.set reg k v).
Proof.
  induction reg as [|[k0 v0] rest IH]; simpl; intros HF HP.
  - constructor; [exact HP | constructor].
  - inversion HF as [|? ? H0 Hrest]; subst.
    destruct (String.eqb_spec k0 k) as [->|Hne]; constructor; auto.
Qed.

Lemma get_set_same reg k v : Discovery.get (Discovery.set reg k v) k = Some v.
Proof.
  induction reg as [|[k0 v0] rest IH]; simpl.
  - now rewrite String.eqb_refl.
  - destruct (String.eqb_spec k0 k) as [->|Hne]; simpl.
    + now rewrite String.eqb_refl.
    + apply String.eqb_neq in Hne; now rewrite Hne.
Qed.

Lemma get_set_other reg k k' v :
  k' <> k ->
  Discovery.get (Discovery.set reg k v) k' = Discovery.get reg k'.
Proof.
  intros Hne.
  assert (E : (k =? k')%string = false)
    by (apply String.eqb_neq; congruence).
  induction reg as [|[k0 v0] rest IH]; simpl.
  - now rewrite E.
  - destruct (String.eqb_spec k0 k) as [->|Hne0]; simpl.
    + now rewrite E.
    + now rewrite IH.
Qed.

Lemma has_In (keys : list string) (k : string) :
  Discovery.has keys k = true <-> In k keys.
Proof.
  unfold Discovery.has; rewrite existsb_exists; split.
  - intros (x & Hin & E); apply String.eqb_eq in E; now subst.
  - intros Hin; exists k; split; [exact Hin | apply String.eqb_refl].
Qed.

(** The loop of [registerResource] appends, in order, the incoming
    elements whose key is new. *)
Lemma push_new_filter (keys : list string)
    (existing incoming : list Discovery.Accept) :
  Discovery.push_new keys existing incoming =
  (existing ++
   filter (fun a => negb (Discovery.has keys (Discovery.accept_key a)))
          incoming)%list.
Proof.
  unfold Discovery.push_new; revert existing.
  induction incoming as [|a rest IH]; intros existing; simpl.
  - now rewrite app_nil_r.
  - destruct (Discovery.has keys (Discovery.accept_key a)); simpl.
    + apply IH.
    + rewrite IH, <- app_assoc; reflexivity.
Qed.

Lemma NoDup_map_filter {A B} (f : A -> B) (g : A -> bool) (l : list A) :
  NoDup (map f l) -> NoDup (map f (filter g l)).
Proof.
  induction l as [|a l IH]; simpl; intros H; [constructor|].
  inversion H as [|? ? Hnotin Hrest]; subst.
  destruct (g a); simpl; [|auto].
  constructor; [|auto].
  intros Hin; apply Hnotin.
  apply in_map_iff in Hin as (x & E & Hx).
  apply filter_In in Hx as [Hx _].
  apply in_map_iff; exists x; auto.
Qed.

Lemma merge_keys_NoDup (existing incoming : Discovery.DiscoveredResource) :
  NoDup (map Discovery.accept_key (Discovery.accepts existing)) ->
  NoDup (map Discovery.accept_key (Discovery.accepts incoming)) ->
  NoDup (map Discovery.accept_key
           (Discovery.accepts (Discovery.merge existing incoming))).
Proof.
  intros He Hi; simpl; rewrite push_new_filter, map_app.
  apply NoDup_app; [exact He | apply NoDup_map_filter; exact Hi |].
  intros key Hin Hin'.
  apply in_map_iff in Hin' as (a & <- & Ha).
  apply filter_In in Ha as [_ Hnew].
  apply has_In in Hin; rewrite Hin in Hnew; discriminate.
Qed.

(** Keys determine pairs: no two elements of one pair have two keys. *)
Lemma NoDup_keys_pairs (l : list Discovery.Accept) :
  NoDup (map Discovery.accept_key l) -> NoDup (map Spec.pair_of l).
Proof.
  induction l as [|a l IH]; simpl; intros H; [constructor|].
  inversion H as [|? ? Hnotin Hrest]; subst.
  constructor; [|auto].
  intros Hin; apply Hnotin.
  apply in_map_iff in Hin as (b & E & Hb).
  apply in_map_iff; exists b; split; [|exact Hb].
  unfold Spec.pair_of in E; injection E as En Ea.
  unfold Discovery.accept_key; now rewrite En, Ea.
Qed.

End RegistryMap.

Section CatalogInvariant.

Lemma inv_empty : Spec.catalog_invariant [].
Proof.
  repeat split; try constructor.
Qed.

Lemma register_preserves (reg : Discovery.Registry)
    (r : Discovery.DiscoveredResource) :
  Spec.catalog_invariant reg ->
  NoDup (map Discovery.accept_key (Discovery.accepts r)) ->
  Discovery.type r = "http" ->
  Spec.catalog_invariant (Discovery.registerResource reg r).
Proof.
  intros ((Hkeys & Hown) & Hacc & Htype) Hr Ht.
  unfold Discovery.registerResource.
  destruct (Discovery.get reg (Discovery.resource r)) as [ex|] eqn:E.
  - pose proof (get_In _ _ _ E) as Hin.
    assert (Hex_own : Discovery.resource r = Discovery.resource ex).
    { unfold Spec.one_entry_per_resource in *.
      rewrite Forall_forall in Hown; exact (Hown _ Hin). }
    assert (Hex_acc : NoDup (map Discovery.accept_key (Discovery.accepts ex))).
    { unfold Spec.one_accept_per_key in Hacc.
      rewrite Forall_forall in Hacc; exact (Hacc _ Hin). }
    assert (Hex_type : Discovery.type ex = "http").
    { unfold Spec.all_http in Htype.
      rewrite Forall_forall in Htype; exact (Htype _ Hin). }
    repeat split.
    + rewrite (set_keys_existing _ _ _ ex E); exact Hkeys.
    + apply set_Forall; [exact Hown | exact Hex_own].
    + apply set_Forall; [exact Hacc | apply merge_keys_NoDup; assumption].
    + apply set_Forall; [exact Htype | exact Hex_type].
  - repeat split.
    + rewrite (set_keys_fresh _ _ _ E).
      apply NoDup_app; [exact Hkeys | repeat constructor; intros [] |].
      intros k Hin [<- | []]; exact (get_None _ _ E Hin).
    + apply set_Forall; [exact Hown | reflexivity].
    + apply set_Forall; [exact Hacc | exact Hr].
    + apply set_Forall; [exact Htype | exact Ht].
Qed.

(** What the extractor builds. *)
Lemma extract_shape (env : Env) (version : Z) (r : PaymentRequirements)
    (res : Discovery.DiscoveredResource) :
  Discovery.extractDiscoveryInfo env version r = Some res ->
  Discovery.resource res = Types.resource r /\
  Discovery.type res = "http" /\
  Discovery.x402Version res = version /\
  Discovery.accepts res = [Spec.accept_of r] /\
  Discovery.lastUpdated res = dateNow env.
Proof.
  unfold Discovery.extractDiscoveryInfo.
  destruct (bazaar r) as [ext|]; [|discriminate].
  intros [= <-]; repeat split.
Qed.

Lemma extract_listed (env : Env) (version : Z) (r : PaymentRequirements)
    (ext : BazaarExtension) :
  bazaar r = Some ext ->
  exists res, Discovery.extractDiscoveryInfo env version r = Some res.
Proof.
  intros H; unfold Discovery.extractDiscoveryInfo; rewrite H.
  eexists; reflexivity.
Qed.

Lemma catalog_preserves (env : Env) (reg : Discovery.Registry) (version : Z)
    (r : PaymentRequirements) :
  Spec.catalog_invariant reg ->
  Spec.catalog_invariant (Discovery.catalogFromPayment env reg version r).
Proof.
  intros H; unfold Discovery.catalogFromPayment.
  destruct (Discovery.extractDiscoveryInfo env version r) as [res|] eqn:E;
    [|exact H].
  destruct (extract_shape _ _ _ _ E) as (_ & Ht & _ & Ha & _).
  apply register_preserves; [exact H | | exact Ht].
  rewrite Ha; repeat constructor; intros [].
Qed.

Lemma replay_preserves (calls : list Spec.CatalogCall)
    (reg : Discovery.Registry) :
  Spec.catalog_invariant reg -> Spec.catalog_invariant (Spec.replay reg calls).
Proof.
  revert reg; induction calls as [|c calls IH]; intros reg H; simpl.
  - exact H.
  - apply IH, catalog_preserves, H.
Qed.

Lemma replay_invariant (calls : list Spec.CatalogCall) :
  Spec.one_entry_per_resource (Spec.replay [] calls) /\
  Spec.one_accept_per_key (Spec.replay [] calls) /\
  Spec.all_http (Spec.replay [] calls).
Proof. exact (replay_preserves calls [] inv_empty). Qed.

End CatalogInvariant.

(** A key string with a colon-free asset has one reading. *)
Lemma includes_colon (n s : string) : includes (n ++ ":" ++ s) ":" = true.
Proof.
  induction n as [|c n IH]; simpl.
  - destruct s; reflexivity.
  - simpl in IH; rewrite IH; apply orb_true_r.
Qed.

Lemma key_reading (n1 n2 s1 s2 : string) :
  Spec.colon_free s1 -> Spec.colon_free s2 ->
  (n1 ++ ":" ++ s1)%string = (n2 ++ ":" ++ s2)%string ->
  n1 = n2 /\ s1 = s2.
Proof.
  unfold Spec.colon_free; intros H1 H2.
  revert n2; induction n1 as [|c1 n1 IH]; intros [|c2 n2] E; simpl in E.
  - injection E as ->; split; reflexivity.
  - injection E as <- E; exfalso.
    rewrite E in H1.
    pose proof (includes_colon n2 s2) as Hc; simpl in Hc.
    rewrite Hc in H1; discriminate.
  - injection E as -> E; exfalso.
    rewrite <- E in H2.
    pose proof (includes_colon n1 s1) as Hc; simpl in Hc.
    rewrite Hc in H2; discriminate.
  - injection E as -> E.
    destruct (IH n2 E) as [-> ->]; split; reflexivity.
Qed.

Lemma invariant_pairs (reg : Discovery.Registry) :
  Spec.one_accept_per_key reg -> Spec.one_accept_per_pair reg.
Proof.
  unfold Spec.one_accept_per_key, Spec.one_accept_per_pair.
  intros H; eapply Forall_impl; [|exact H].
  intros kv; apply NoDup_keys_pairs.
Qed.

(** Registering an update for a resource that has an entry. *)
Lemma register_existing (reg : Discovery.Registry)
    (r existing : Discovery.DiscoveredResource) :
  Discovery.get reg (Discovery.resource r) = Some existing ->
  Discovery.registerResource reg r =
  Discovery.set reg (Discovery.resource r) (Discovery.merge existing r).
Proof. intros H; unfold Discovery.registerResource; now rewrite H. Qed.

(** Two catalog calls for one resource, on an empty registry. *)
Lemma catalog_twice (env1 env2 : Env) (v1 v2 : Z)
    (r1 r2 : PaymentRequirements) (ext1 ext2 : BazaarExtension) :
  bazaar r1 = Some ext1 -> bazaar r2 = Some ext2 ->
  Types.resource r1 = Types.resource r2 ->
  exists res1 res2,
    Discovery.extractDiscoveryInfo env1 v1 r1 = Some res1 /\
    Discovery.extractDiscoveryInfo env2 v2 r2 = Some res2 /\
    Discovery.catalogFromPayment env2
      (Discovery.catalogFromPayment env1 [] v1 r1) v2 r2 =
    [(Types.resource r1, Discovery.merge res1 res2)].
Proof.
  intros H1 H2 Hsame.
  destruct (extract_listed env1 v1 r1 ext1 H1) as [res1 E1].
  destruct (extract_listed env2 v2 r2 ext2 H2) as [res2 E2].
  exists res1, res2; split; [exact E1|]; split; [exact E2|].
  destruct (extract_shape _ _ _ _ E1) as (Hr1 & _).
  destruct (extract_shape _ _ _ _ E2) as (Hr2 & _).
  unfold Discovery.catalogFromPayment; rewrite E1, E2.
  unfold Discovery.registerResource at 2; simpl.
  unfold Discovery.registerResource; simpl.
  rewrite Hr1, Hr2, <- Hsame, String.eqb_refl; reflexivity.
Qed.

(** A registration of a resource with distinct offers keeps the
    invariant, whatever the type of the resource. *)
Lemma register_distinct (reg : Discovery.Registry)
    (r : Discovery.DiscoveredResource) :
  Spec.one_entry_per_resource reg ->
  Spec.one_accept_per_key reg ->
  Spec.distinct_offers r ->
  Spec.one_entry_per_resource (Discovery.registerResource reg r) /\
  Spec.one_accept_per_key (Discovery.registerResource reg r).
Proof.
  intros (Hkeys & Hown) Hacc Hr.
  unfold Discovery.registerResource.
  destruct (Discovery.get reg (Discovery.resource r)) as [ex|] eqn:E.
  - pose proof (get_In _ _ _ E) as Hin.
    assert (Hex_own : Discovery.resource r = Discovery.resource ex).
    { rewrite Forall_forall in Hown; exact (Hown _ Hin). }
    assert (Hex_acc : NoDup (map Discovery.accept_key (Discovery.accepts ex))).
    { unfold Spec.one_accept_per_key in Hacc.
      rewrite Forall_forall in Hacc; exact (Hacc _ Hin). }
    repeat split.
    + rewrite (set_keys_existing _ _ _ ex E); exact Hkeys.
    + apply set_Forall; [exact Hown | exact Hex_own].
    + apply set_Forall; [exact Hacc | apply merge_keys_NoDup; assumption].
  - repeat split.
    + rewrite (set_keys_fresh _ _ _ E).
      apply NoDup_app; [exact Hkeys | repeat constructor; intros [] |].
      intros k Hin [<- | []]; exact (get_None _ _ E Hin).
    + apply set_Forall; [exact Hown | reflexivity].
    + apply set_Forall; [exact Hacc | exact Hr].
Qed.

Lemma perform_distinct (reg : Discovery.Registry) (op : Spec.Operation) :
  Spec.one_entry_per_resource reg ->
  Spec.one_accept_per_key reg ->
  Spec.distinct_operation op ->
  Spec.one_entry_per_resource (Spec.perform reg op) /\
  Spec.one_accept_per_key (Spec.perform reg op).
Proof.
  intros H1 H2 Hop; destruct op as [env version r | res]; simpl.
  - unfold Discovery.catalogFromPayment.
    destruct (Discovery.extractDiscoveryInfo env version r) as [res|] eqn:E;
      [|split; assumption].
    destruct (extract_shape _ _ _ _ E) as (_ & _ & _ & Ha & _).
    apply register_distinct; [exact H1 | exact H2 |].
    unfold Spec.distinct_offers; rewrite Ha.
    repeat constructor; intros [].
  - apply register_distinct; assumption.
Qed.

Lemma run_distinct (ops : list Spec.Operation) (reg : Discovery.Registry) :
  Spec.one_entry_per_resource reg ->
  Spec.one_accept_per_key reg ->
  Forall Spec.distinct_operation ops ->
  Spec.one_entry_per_resource (Spec.run reg ops) /\
  Spec.one_accept_per_key (Spec.run reg ops).
Proof.
  revert reg; induction ops as [|op ops IH]; intros reg H1 H2 Hops; simpl.
  - split; assumption.
  - inversion Hops as [|? ? Hop Hrest]; subst.
    destruct (perform_distinct reg op H1 H2 Hop) as [H1' H2'].
    apply IH; assumption.
Qed.

(** C7 (amended).  Across every sequence of catalog calls and of
    registrations of resources that list each key string [network:asset]
    once, from the empty registry or from any registry that satisfies
    it, the invariant holds: there is at most one entry per resource URL,
    and each entry's [accepts] has at most one element per (network,
    asset) pair (indeed per key string).  Registering an update for a
    resource that has an entry keeps the keys and the other entries,
    appends to [accepts] the incoming elements whose key string is not
    among the entry's and leaves the existing ones in place, takes the
    maximum of the two versions, overwrites [lastUpdated] and
    shallow-merges the metadata.  Cataloging one resource twice with
    different (network, asset) pairs whose assets hold no colon yields a
    single entry whose [accepts] holds both. *)
Theorem catalog_merge_invariant :
  (forall reg ops,
     Spec.one_entry_per_resource reg ->
     Spec.one_accept_per_key reg ->
     Forall Spec.distinct_operation ops ->
     let reg' := Spec.run reg ops in
     Spec.one_entry_per_resource reg' /\
     Spec.one_accept_per_pair reg' /\
     Spec.one_accept_per_key reg')
  /\
  (Spec.one_entry_per_resource [] /\ Spec.one_accept_per_key [])
  /\
  (forall reg r existing,
     Discovery.get reg (Discovery.resource r) = Some existing ->
     let reg' := Discovery.registerResource reg r in
     map fst reg' = map fst reg /\
     (forall k, k <> Discovery.resource r ->
                Discovery.get reg' k = Discovery.get reg k) /\
     exists merged,
       Discovery.get reg' (Discovery.resource r) = Some merged /\
       Discovery.accepts merged =
         (Discovery.accepts existing ++
          filter
            (fun a =>
               negb (Discovery.has
                       (map Discovery.accept_key (Discovery.accepts existing))
                       (Discovery.accept_key a)))
            (Discovery.accepts r))%list /\
       Discovery.x402Version merged =
         Z.max (Discovery.x402Version existing) (Discovery.x402Version r) /\
       Discovery.lastUpdated merged = Discovery.lastUpdated r /\
       Discovery.metadata merged =
         match Discovery.metadata r with
         | Some m => Some (Discovery.spread (Discovery.metadata existing) m)
         | None => Discovery.metadata existing
         end)
  /\
  (forall env1 env2 v1 v2 r1 r2 ext1 ext2,
     bazaar r1 = Some ext1 -> bazaar r2 = Some ext2 ->
     Types.resource r1 = Types.resource r2 ->
     Spec.colon_free (asset r1) -> Spec.colon_free (asset r2) ->
     (req_network r1, asset r1) <> (req_network r2, asset r2) ->
     exists entry,
       Discovery.catalogFromPayment env2
         (Discovery.catalogFromPayment env1 [] v1 r1) v2 r2 =
       [(Types.resource r1, entry)] /\
       Discovery.accepts entry = [Spec.accept_of r1; Spec.accept_of r2] /\
       Discovery.x402Version entry = Z.max v1 v2 /\
       Discovery.lastUpdated entry = dateNow env2).
Proof.
  split; [|split; [|split]].
  - intros reg ops H1 H2 Hops reg'.
    destruct (run_distinct ops reg H1 H2 Hops) as [H1' H2'].
    split; [exact H1'|]; split; [apply invariant_pairs|]; exact H2'.
  - repeat constructor.
  - intros reg r existing E reg'; unfold reg'.
    rewrite (register_existing reg r existing E).
    split; [apply (set_keys_existing _ _ _ existing E)|].
    split; [intros k Hne; apply get_set_other; exact Hne|].
    exists (Discovery.merge existing r).
    split; [apply get_set_same|].
    split; [simpl; apply push_new_filter|].
    repeat split.
  - intros env1 env2 v1 v2 r1 r2 ext1 ext2 H1 H2 Hsame Hc1 Hc2 Hdiff.
    destruct (catalog_twice env1 env2 v1 v2 r1 r2 ext1 ext2 H1 H2 Hsame)
      as (res1 & res2 & E1 & E2 & ->).
    destruct (extract_shape _ _ _ _ E1) as (Hr1 & _ & Hv1 & Ha1 & _).
    destruct (extract_shape _ _ _ _ E2) as (_ & _ & Hv2 & Ha2 & Ht2).
    exists (Discovery.merge res1 res2).
    split; [reflexivity|].
    split; [|split; [simpl; now rewrite Hv1, Hv2 | exact Ht2]].
    simpl; rewrite push_new_filter, Ha1, Ha2; simpl.
    destruct (String.eqb_spec
                (Discovery.accept_key (Spec.accept_of r2))
                (Discovery.accept_key (Spec.accept_of r1))) as [E|Hne].
    + exfalso; apply Hdiff.
      unfold Discovery.accept_key, Spec.accept_of in E; simpl in E.
      destruct (key_reading _ _ _ _ Hc2 Hc1 E) as [-> ->]; reflexivity.
    + reflexivity.
Qed.

Lemma catalog_merge_invariant_witness :
  Spec.one_accept_per_pair
    (Spec.run []
       [Spec.Register (Fixtures.entry "https://api.example.com/weather" 1000);
        Spec.Catalog Fixtures.sunny 2 Fixtures.on_solana;
        Spec.Catalog Fixtures.sunny 1 Fixtures.on_base])
  /\
  exists entry,
    Discovery.catalogFromPayment Fixtures.sunny
      (Discovery.catalogFromPayment Fixtures.sunny [] 1 Fixtures.on_base)
      2 Fixtures.on_solana =
    [("https://api.example.com/weather", entry)] /\
    map Spec.pair_of (Discovery.accepts entry) =
    [("base", Fixtures.usdc); ("solana", Solana.mainnet_mint)].
Proof.
  destruct catalog_merge_invariant as (Hinv & Hempty & _ & H).
  split.
  - apply (Hinv [] _ (proj1 Hempty) (proj2 Hempty)).
    repeat constructor; intros [].
  - destruct (H Fixtures.sunny Fixtures.sunny 1 2
                Fixtures.on_base Fixtures.on_solana
                {| info := None; schema := None |}
                {| info := None; schema := None |}
                eq_refl eq_refl eq_refl eq_refl eq_refl)
      as (entry & E & Ha & _).
    + vm_compute; discriminate.
    + exists entry; split; [exact E|].
      rewrite Ha; reflexivity.
Defined.

(** C7, as stated, fails in two ways.  Two pairs that differ and read the
    same once joined by a colon: the second pair is not added.  And a
    registration is not checked: a resource that lists one pair twice is
    stored with both elements, on a fresh URL, and both are appended to
    an entry that does not offer the pair. *)
Lemma catalog_key_collision_counterexample :
  (let r1 := Fixtures.colliding_first in
   let r2 := Fixtures.colliding_second in
   (req_network r1, asset r1) <> (req_network r2, asset r2) /\
   Types.resource r1 = Types.resource r2 /\
   map (fun kv => map Spec.pair_of (Discovery.accepts (snd kv)))
     (Discovery.catalogFromPayment Fixtures.sunny
        (Discovery.catalogFromPayment Fixtures.sunny [] 1 r1) 1 r2) =
   [[("eip155:8453", "0xA0b8")]])
  /\
  (map (fun kv => map Spec.pair_of (Discovery.accepts (snd kv)))
     (Discovery.registerResource [] Fixtures.twice_offered) =
   [[("solana", Solana.mainnet_mint); ("solana", Solana.mainnet_mint)]] /\
   ~ Spec.one_accept_per_pair
       (Discovery.registerResource [] Fixtures.twice_offered))
  /\
  (map (fun kv => map Spec.pair_of (Discovery.accepts (snd kv)))
     (Discovery.registerResource
        (Discovery.catalogFromPayment Fixtures.sunny [] 1 Fixtures.on_base)
        Fixtures.twice_offered) =
   [[("base", Fixtures.usdc); ("solana", Solana.mainnet_mint);
     ("solana", Solana.mainnet_mint)]]).
Proof.
  cbv zeta; split; [|split].
  - repeat split.
    vm_compute; discriminate.
  - split; [reflexivity|].
    intros H; inversion H as [|? ? Hnd _]; subst.
    simpl in Hnd; inversion Hnd as [|? ? Hnot _]; subst.
    apply Hnot; left; reflexivity.
  - reflexivity.
Qed.

(* ===================================================================== *)
(** ** Listing: filter, sort, slice *)
(* ===================================================================== *)

Section Sorting.

Lemma insert_newest_perm (x : Discovery.DiscoveredResource)
    (l : list Discovery.DiscoveredResource) :
  Permutation (Discovery.insert_newest x l) (x :: l).
Proof.
  induction l as [|y rest IH]; simpl; [apply Permutation_refl|].
  destruct (Discovery.lastUpdated y <=? Discovery.lastUpdated x);
    [apply Permutation_refl|].
  eapply Permutation_trans; [apply perm_skip, IH | apply perm_swap].
Qed.

Lemma sort_newest_perm (l : list Discovery.DiscoveredResource) :
  Permutation (Discovery.sort_newest l) l.
Proof.
  induction l as [|x rest IH]; simpl; [constructor|].
  eapply Permutation_trans; [apply insert_newest_perm|].
  apply perm_skip, IH.
Qed.

Lemma insert_newest_sorted (x : Discovery.DiscoveredResource)
    (l : list Discovery.DiscoveredResource) :
  StronglySorted Spec.newest_first l ->
  StronglySorted Spec.newest_first (Discovery.insert_newest x l).
Proof.
  induction l as [|y rest IH]; simpl; intros H.
  - constructor; constructor.
  - inversion H as [|? ? Hrest Hall]; subst.
    destruct (Z.leb_spec (Discovery.lastUpdated y) (Discovery.lastUpdated x))
      as [Hle|Hgt].
    + constructor; [exact H|].
      constructor; [exact Hle|].
      eapply Forall_impl; [|exact Hall].
      intros z Hz; unfold Spec.newest_first in *; lia.
    + constructor; [apply IH; exact Hrest|].
      rewrite Forall_forall in *; intros z Hz.
      apply (Permutation_in _ (insert_newest_perm x rest)) in Hz.
      destruct Hz as [<- | Hz]; [unfold Spec.newest_first; lia | auto].
Qed.

Lemma sort_newest_sorted (l : list Discovery.DiscoveredResource) :
  StronglySorted Spec.newest_first (Discovery.sort_newest l).
Proof.
  induction l as [|x rest IH]; simpl; [constructor|].
  apply insert_newest_sorted, IH.
Qed.

(** With distinct timestamps there is one newest-first arrangement. *)
Lemma newest_first_unique (l1 l2 : list Discovery.DiscoveredResource) :
  StronglySorted Spec.newest_first l1 ->
  StronglySorted Spec.newest_first l2 ->
  Permutation l1 l2 ->
  NoDup (map Discovery.lastUpdated l1) ->
  l1 = l2.
Proof.
  revert l2; induction l1 as [|a l1 IH]; intros l2 H1 H2 Hp Hnd.
  - now apply Permutation_nil in Hp.
  - destruct l2 as [|b l2];
      [apply Permutation_sym, Permutation_nil in Hp; discriminate|].
    inversion H1 as [|? ? Hs1 Ha]; subst.
    inversion H2 as [|? ? Hs2 Hb]; subst.
    simpl in Hnd; inversion Hnd as [|? ? Hnotin Hnd']; subst.
    assert (Eab : a = b).
    { assert (Hin_a : In a (b :: l2))
        by (apply (Permutation_in _ Hp); now left).
      assert (Hin_b : In b (a :: l1))
        by (apply (Permutation_in _ (Permutation_sym Hp)); now left).
      destruct Hin_a as [E | Hin_a]; [now symmetry|].
      destruct Hin_b as [E | Hin_b]; [exact E|].
      rewrite Forall_forall in Ha, Hb.
      pose proof (Ha _ Hin_b) as Hba; pose proof (Hb _ Hin_a) as Hab.
      unfold Spec.newest_first in Hba, Hab.
      exfalso; apply Hnotin.
      apply in_map_iff; exists b; split; [lia | exact Hin_b]. }
    subst b; f_equal.
    apply IH; auto.
    eapply Permutation_cons_inv; exact Hp.
Qed.

End Sorting.

Section Slicing.

Context {A : Type}.
Implicit Types (l : list A) (i offset limit : Z).

Lemma window_from_inside l i offset limit :
  offset <= i ->
  Spec.window_from i l offset limit =
  firstn (Z.to_nat (offset + limit - i)) l.
Proof.
  revert i; induction l as [|x rest IH]; intros i Hi; simpl.
  - now rewrite firstn_nil.
  - assert (E : (offset <=? i) = true) by (apply Z.leb_le; exact Hi).
    rewrite E; simpl.
    destruct (Z.ltb_spec i (offset + limit)) as [Hlt|Hge].
    + rewrite IH by lia.
      replace (Z.to_nat (offset + limit - i))
        with (S (Z.to_nat (offset + limit - (i + 1)))) by lia.
      reflexivity.
    + rewrite IH by lia.
      replace (Z.to_nat (offset + limit - (i + 1))) with 0%nat by lia.
      replace (Z.to_nat (offset + limit - i)) with 0%nat by lia.
      reflexivity.
Qed.

Lemma window_from_before l i offset limit :
  i <= offset ->
  Spec.window_from i l offset limit =
  firstn (Z.to_nat limit) (skipn (Z.to_nat (offset - i)) l).
Proof.
  revert i; induction l as [|x rest IH]; intros i Hi; simpl.
  - now rewrite skipn_nil, firstn_nil.
  - destruct (Z.eq_dec i offset) as [->|Hne].
    + pose proof (window_from_inside (x :: rest) offset offset limit
                    (Z.le_refl _)) as H.
      simpl in H; rewrite H.
      replace (offset - offset) with 0 by lia.
      replace (offset + limit - offset) with limit by lia.
      reflexivity.
    + assert (E : (offset <=? i) = false) by (apply Z.leb_gt; lia).
      rewrite E; simpl.
      rewrite IH by lia.
      replace (Z.to_nat (offset - i)) with (S (Z.to_nat (offset - (i + 1))))
        by lia.
      reflexivity.
Qed.

(** On non-negative arguments [slice(offset, offset + limit)] is the
    interval of indices [offset, offset + limit). *)
Lemma slice_window l offset limit :
  0 <= offset -> 0 <= limit ->
  Discovery.slice l offset (offset + limit) = Spec.window l offset limit.
Proof.
  intros Ho Hl; unfold Spec.window.
  rewrite window_from_before by exact Ho.
  replace (offset - 0) with offset by lia.
  unfold Discovery.slice, Discovery.relative_index.
  set (len := Z.of_nat (List.length l)).
  assert (Eo : (offset <? 0) = false) by (apply Z.ltb_ge; lia).
  assert (El : (offset + limit <? 0) = false) by (apply Z.ltb_ge; lia).
  rewrite Eo, El.
  destruct (Z.le_gt_cases len offset) as [Hout|Hin].
  - rewrite (skipn_all2 (n := Z.to_nat offset)) by (subst len; lia).
    rewrite (skipn_all2 (n := Z.to_nat (Z.min offset len)))
      by (subst len; lia).
    now rewrite !firstn_nil.
  - replace (Z.min offset len) with offset by lia.
    destruct (Z.le_gt_cases (offset + limit) len) as [Hfit|Hover].
    + replace (Z.min (offset + limit) len - offset) with limit by lia.
      reflexivity.
    + rewrite !firstn_all2;
        [reflexivity | |]; rewrite length_skipn; subst len; lia.
Qed.

Lemma slice_nil (start stop : Z) : Discovery.slice (@nil A) start stop = [].
Proof. unfold Discovery.slice; now rewrite skipn_nil, firstn_nil. Qed.

End Slicing.

Lemma all_http_filter (reg : Discovery.Registry) :
  Spec.all_http reg ->
  filter (fun r => (Discovery.type r =? "http")%string) (Discovery.values reg) =
  Discovery.values reg.
Proof.
  intros H; apply forallb_filter_id, forallb_forall.
  intros r Hr; unfold Discovery.values in Hr.
  apply in_map_iff in Hr as (kv & <- & Hin).
  unfold Spec.all_http in H; rewrite Forall_forall in H.
  rewrite (H kv Hin); reflexivity.
Qed.

Lemma all_http_filter_other (reg : Discovery.Registry) (t : string) :
  Spec.all_http reg -> t <> "http" ->
  filter (fun r => (Discovery.type r =? t)%string) (Discovery.values reg) = [].
Proof.
  intros H Hne.
  unfold Spec.all_http in H; unfold Discovery.values.
  induction reg as [|kv rest IH]; simpl; [reflexivity|].
  inversion H as [|? ? Hkv Hrest]; subst.
  rewrite Hkv.
  assert (E : ("http" =? t)%string = false)
    by (apply String.eqb_neq; congruence).
  rewrite E; apply IH; exact Hrest.
Qed.

(** C8 (amended).  For a non-empty [type] and non-negative [limit] and
    [offset], [listResources] keeps the entries of that type, arranges them
    newest first (a permutation of the matching entries, sorted by
    [lastUpdated] descending), returns the elements of that sequence at the
    indices [offset, offset + limit), and reports as [total] the number of
    matching entries before slicing.  Absent parameters stand for "http",
    20 and 0.  With three registered resources of distinct [lastUpdated],
    in whatever order they were registered, [limit = 1, offset = 1]
    returns exactly the second most recently updated one, and [total = 3]. *)
Theorem list_resources_pagination (reg : Discovery.Registry) :
  (forall t lim off,
     truthy t = true -> 0 <= lim -> 0 <= off ->
     let out :=
       Discovery.listResources reg
         {| Discovery.q_type := Some t; Discovery.q_limit := Some lim;
            Discovery.q_offset := Some off |} in
     let matching :=
       filter (fun r => (Discovery.type r =? t)%string)
              (Discovery.values reg) in
     let sorted := Discovery.sort_newest matching in
     Permutation sorted matching /\
     StronglySorted Spec.newest_first sorted /\
     Discovery.items out = Spec.window sorted off lim /\
     Discovery.pagination out =
       {| Discovery.limit := lim; Discovery.offset := off;
          Discovery.total := Z.of_nat (List.length matching) |})
  /\
  Discovery.listResources reg
    {| Discovery.q_type := None; Discovery.q_limit := None;
       Discovery.q_offset := None |} =
  Discovery.listResources reg
    {| Discovery.q_type := Some "http"; Discovery.q_limit := Some 20;
       Discovery.q_offset := Some 0 |}
  /\
  (forall r1 r2 r3,
     Permutation (Discovery.values reg) [r1; r2; r3] ->
     Spec.all_http reg ->
     Discovery.lastUpdated r3 < Discovery.lastUpdated r2 ->
     Discovery.lastUpdated r2 < Discovery.lastUpdated r1 ->
     Discovery.listResources reg
       {| Discovery.q_type := Some "http"; Discovery.q_limit := Some 1;
          Discovery.q_offset := Some 1 |} =
     {| Discovery.list_x402Version := 2;
        Discovery.items := [r2];
        Discovery.pagination :=
          {| Discovery.limit := 1; Discovery.offset := 1;
             Discovery.total := 3 |} |}).
Proof.
  split; [|split; [reflexivity|]].
  - intros t lim off Ht Hl Ho out matching sorted.
    split; [apply sort_newest_perm|].
    split; [apply sort_newest_sorted|].
    unfold out, Discovery.listResources; simpl.
    rewrite Ht; fold matching; fold sorted; simpl.
    split; [apply slice_window; assumption|].
    do 2 f_equal.
    apply Permutation_length, sort_newest_perm.
  - intros r1 r2 r3 Hp Hhttp H32 H21.
    assert (Es : Discovery.sort_newest (Discovery.values reg) = [r1; r2; r3]).
    { apply newest_first_unique.
      - apply sort_newest_sorted.
      - repeat constructor; unfold Spec.newest_first; lia.
      - eapply Permutation_trans; [apply sort_newest_perm | exact Hp].
      - apply (Permutation_NoDup
                 (l := map Discovery.lastUpdated [r1; r2; r3])).
        + apply Permutation_map, Permutation_sym.
          eapply Permutation_trans; [apply sort_newest_perm | exact Hp].
        + simpl; repeat constructor; simpl; intuition lia. }
    unfold Discovery.listResources; simpl.
    rewrite (all_http_filter reg Hhttp), Es; reflexivity.
Qed.

Lemma list_resources_pagination_witness :
  Discovery.listResources Fixtures.three
    (Fixtures.query (Some "http") (Some 1) (Some 1)) =
  {| Discovery.list_x402Version := 2;
     Discovery.items := [Fixtures.entry "https://c.example/3" 2000];
     Discovery.pagination :=
       {| Discovery.limit := 1; Discovery.offset := 1;
          Discovery.total := 3 |} |}.
Proof.
  destruct (list_resources_pagination Fixtures.three) as (_ & _ & H).
  apply (H (Fixtures.entry "https://b.example/2" 3000)
           (Fixtures.entry "https://c.example/3" 2000)
           (Fixtures.entry "https://a.example/1" 1000)).
  - simpl.
    eapply perm_trans; [apply perm_swap|].
    apply perm_skip, perm_swap.
  - repeat constructor.
  - simpl; lia.
  - simpl; lia.
Defined.

(** C8, as stated, fails for the empty type, which is not filtered on
    (no entry has that type, and all three are returned), and for a
    negative limit, where the interval is empty and [slice] counts from
    the end. *)
Lemma list_resources_counterexample :
  let newest_first_three :=
    [Fixtures.entry "https://b.example/2" 3000;
     Fixtures.entry "https://c.example/3" 2000;
     Fixtures.entry "https://a.example/1" 1000] in
  (filter (fun r => (Discovery.type r =? EmptyString)%string)
     (Discovery.values Fixtures.three) = [] /\
   Discovery.items
     (Discovery.listResources Fixtures.three
        (Fixtures.query (Some EmptyString) (Some 10) (Some 0))) =
   newest_first_three /\
   Discovery.total
     (Discovery.pagination
        (Discovery.listResources Fixtures.three
           (Fixtures.query (Some EmptyString) (Some 10) (Some 0)))) = 3)
  /\
  (Spec.window newest_first_three 0 (-1) = [] /\
   Discovery.items
     (Discovery.listResources Fixtures.three
        (Fixtures.query (Some "http") (Some (-1)) (Some 0))) =
   [Fixtures.entry "https://b.example/2" 3000;
    Fixtures.entry "https://c.example/3" 2000]).
Proof. cbv zeta; repeat split. Qed.

(** C10 (amended).  Every entry of a registry reached by catalog calls
    has type 'http'.  On such a registry, listing with the default type
    (absent, or 'http') filters nothing out: [total] is the size of the
    registry, and with offset 0 and a limit that covers it the items are
    all the registered entries; listing with any other non-empty type
    returns no item and [total = 0]. *)
Theorem catalog_types_http :
  (forall calls, Spec.all_http (Spec.replay [] calls))
  /\
  (forall reg t lim off,
     Spec.all_http reg ->
     t = None \/ t = Some "http" ->
     let out :=
       Discovery.listResources reg
         {| Discovery.q_type := t; Discovery.q_limit := lim;
            Discovery.q_offset := off |} in
     Discovery.total (Discovery.pagination out) =
       Z.of_nat (List.length reg) /\
     (off = Some 0 ->
      (forall n, lim = Some n -> Z.of_nat (List.length reg) <= n ->
       Permutation (Discovery.items out) (Discovery.values reg))))
  /\
  (forall reg t lim off,
     Spec.all_http reg ->
     truthy t = true -> t <> "http" ->
     let out :=
       Discovery.listResources reg
         {| Discovery.q_type := Some t; Discovery.q_limit := lim;
            Discovery.q_offset := off |} in
     Discovery.items out = [] /\
     Discovery.total (Discovery.pagination out) = 0).
Proof.
  split; [|split].
  - intros calls; apply (replay_invariant calls).
  - intros reg t lim off Hhttp Ht out.
    assert (Eitems :
      Discovery.items out =
      Discovery.slice (Discovery.sort_newest (Discovery.values reg))
        (Discovery.default 0 off)
        (Discovery.default 0 off + Discovery.default 20 lim) /\
      Discovery.total (Discovery.pagination out) =
      Z.of_nat (List.length (Discovery.sort_newest (Discovery.values reg)))).
    { unfold out, Discovery.listResources.
      destruct Ht as [-> | ->]; simpl;
        rewrite (all_http_filter reg Hhttp); split; reflexivity. }
    destruct Eitems as [Ei Et].
    assert (Elen : List.length (Discovery.sort_newest (Discovery.values reg)) =
                   List.length reg).
    { rewrite (Permutation_length (sort_newest_perm _)).
      unfold Discovery.values; apply length_map. }
    split; [rewrite Et, Elen; reflexivity|].
    intros -> n -> Hn.
    rewrite Ei; simpl.
    rewrite (slice_window _ 0 n) by lia.
    unfold Spec.window; rewrite window_from_before by lia; simpl.
    rewrite firstn_all2 by (rewrite Elen; lia).
    apply sort_newest_perm.
  - intros reg t lim off Hhttp Ht Hne out.
    unfold out, Discovery.listResources; simpl.
    rewrite Ht, (all_http_filter_other reg t Hhttp Hne); simpl.
    split; [apply slice_nil | reflexivity].
Qed.

Lemma catalog_types_http_witness :
  Discovery.items
    (Discovery.listResources Fixtures.three
       (Fixtures.query (Some "websocket") (Some 20) (Some 0))) = [] /\
  Discovery.total
    (Discovery.pagination
       (Discovery.listResources Fixtures.three
          (Fixtures.query (Some "websocket") (Some 20) (Some 0)))) = 0.
Proof.
  destruct catalog_types_http as (_ & _ & H).
  apply (H Fixtures.three "websocket" (Some 20) (Some 0)).
  - repeat constructor.
  - reflexivity.
  - discriminate.
Defined.

(** C10, as stated, fails for the empty type: it is another type value
    than 'http', it is not filtered on, and the listing returns the
    entries. *)
Lemma list_empty_type_counterexample :
  Spec.all_http Fixtures.three /\
  EmptyString <> "http" /\
  Discovery.items
    (Discovery.listResources Fixtures.three
       (Fixtures.query (Some EmptyString) (Some 20) (Some 0))) <> [] /\
  Discovery.total
    (Discovery.pagination
       (Discovery.listResources Fixtures.three
          (Fixtures.query (Some EmptyString) (Some 20) (Some 0)))) = 3.
Proof.
  repeat split; try (repeat constructor); discriminate.
Qed.

(* ===================================================================== *)
(** ** The Base backend: what a verdict implies *)
(* ===================================================================== *)

Lemma message_carries (a : EvmAuthorization) (msg : TransferMessage) :
  Base.message a = Ok msg -> Derived.carries msg a.
Proof.
  unfold Base.message, Derived.carries.
  destruct (BigInt (value a)) as [v|]; [|discriminate].
  destruct (BigInt (validAfter a)) as [va|]; [|discriminate].
  destruct (BigInt (validBefore a)) as [vb|]; [|discriminate].
  intros [= <-]; repeat split.
Qed.

Lemma wrong_shape_verdict (this : Base.BaseFacilitator) (env : Env)
    (p : PaymentPayload) (r : PaymentRequirements) (tx : string) :
  payload p = SolanaBody tx ->
  Base.verify this env p r = (Ok (invalid unexpected_error None), []).
Proof.
  intros H; unfold Base.verify, Base.verify_checks, Base.evm_body.
  rewrite H.
  destruct (Base.getChainId (network p)); reflexivity.
Qed.

Section BaseDecision.

Variable this : Base.BaseFacilitator.
Variable env : Env.
Variable p : PaymentPayload.
Variable r : PaymentRequirements.
Variable sig : string.
Variable a : EvmAuthorization.
Variable cid : Z.
Hypothesis Hnet : Base.getChainId (network p) = Ok cid.
Hypothesis Hbody : payload p = EvmBody sig a.

(** Every run of [verify] on a known network is one of these. *)
Lemma verify_decision :
  let passed :=
    ~ Spec.timing_expired env a /\ Spec.amount_ok a r /\
    Spec.recipient_ok a r in
  let balance_read := [ReadBalanceOf cid (from a)] in
  let both_reads :=
    [ReadBalanceOf cid (from a);
     ReadAuthorizationState cid (from a) (nonce a)] in
  (Spec.timing_expired env a /\
   Base.verify this env p r =
   (Ok (invalid payment_expired (Some (from a))), []))
  \/
  (~ Spec.timing_expired env a /\ ~ Spec.amount_ok a r /\
   Base.verify this env p r =
   (Ok (invalid amount_mismatch (Some (from a))), []))
  \/
  (~ Spec.timing_expired env a /\ Spec.amount_ok a r /\
   ~ Spec.recipient_ok a r /\
   Base.verify this env p r =
   (Ok (invalid recipient_mismatch (Some (from a))), []))
  \/
  (passed /\ Spec.signature_is env cid sig a false /\
   Base.verify this env p r =
   (Ok (invalid invalid_signature (Some (from a))), []))
  \/
  (passed /\ Spec.signature_is env cid sig a true /\
   Spec.balance_short env cid a /\
   Base.verify this env p r =
   (Ok (invalid insufficient_funds (Some (from a))), balance_read))
  \/
  (passed /\ Spec.signature_is env cid sig a true /\
   Spec.balance_covers env cid a /\ Spec.nonce_is env cid a true /\
   Base.verify this env p r =
   (Ok (invalid invalid_payload (Some (from a))), both_reads))
  \/
  (passed /\ Spec.signature_is env cid sig a true /\
   Spec.balance_covers env cid a /\ Spec.nonce_is env cid a false /\
   Base.verify this env p r = (Ok (valid (from a)), both_reads))
  \/
  (passed /\
   ((Spec.signature_faults env cid sig a /\
     Base.verify this env p r = (Ok (invalid unexpected_error None), []))
    \/
    (Spec.signature_is env cid sig a true /\ Spec.balance_faults env cid a /\
     Base.verify this env p r =
     (Ok (invalid unexpected_error None), balance_read))
    \/
    (Spec.signature_is env cid sig a true /\ Spec.balance_covers env cid a /\
     Spec.nonce_faults env cid a /\
     Base.verify this env p r =
     (Ok (invalid unexpected_error None), both_reads)))).
Proof.
  intros passed balance_read both_reads.
  assert (Hexp : Spec.timing_expired env a ->
                 Base.verify this env p r =
                 (Ok (invalid payment_expired (Some (from a))), []))
    by (apply (expired_verdict this env p r sig a cid Hnet Hbody)).
  destruct (num_lt (Num (Base.now env)) (parseInt (validAfter a))) eqn:E1.
  { left.
    assert (Spec.timing_expired env a).
    { left. destruct (parseInt (validAfter a)) as [|va]; [discriminate|].
      exists va; split; [reflexivity | now apply Z.ltb_lt]. }
    split; auto. }
  destruct (num_gt (Num (Base.now env)) (parseInt (validBefore a))) eqn:E2.
  { left.
    assert (Spec.timing_expired env a).
    { right. destruct (parseInt (validBefore a)) as [|vb]; [discriminate|].
      exists vb; split; [reflexivity|].
      simpl in E2; rewrite Z.gtb_ltb in E2; now apply Z.ltb_lt. }
    split; auto. }
  assert (Hne : ~ Spec.timing_expired env a)
    by (apply (not_expired_passes env a); split; assumption).
  right.
  assert (Hchecks := verify_checks_unfold env p r sig a cid Hnet Hbody).
  rewrite E1, E2 in Hchecks.
  destruct (String.eqb_spec (value a) (maxAmountRequired r)) as [Ea|Ea].
  2:{ left; split; [exact Hne|]; split; [exact Ea|].
      apply verify_of_checks; rewrite Hchecks; reflexivity. }
  right.
  destruct (String.eqb_spec (toLowerCase (to a)) (toLowerCase (payTo r)))
    as [Er|Er].
  2:{ left; split; [exact Hne|]; split; [exact Ea|]; split; [exact Er|].
      apply verify_of_checks; rewrite Hchecks; reflexivity. }
  right.
  assert (Hpassed : passed) by (repeat split; assumption).
  cbn [negb] in Hchecks.
  destruct (Base.message a) as [msg|e] eqn:Em.
  2:{ do 4 right; split; [exact Hpassed|]; left; split.
      - left; exists e; exact Em.
      - apply (verify_of_fault this env p r e); rewrite Hchecks; reflexivity. }
  rewrite bind_lift_Ok in Hchecks.
  destruct (verifyTypedData env (from a) cid msg sig) as [[|]|e] eqn:Es.
  3:{ do 4 right; split; [exact Hpassed|]; left; split.
      - right; exists msg, e; split; assumption.
      - apply (verify_of_fault this env p r e); rewrite Hchecks; reflexivity. }
  2:{ left; split; [exact Hpassed|]; split.
      - exists msg; split; assumption.
      - apply verify_of_checks; rewrite Hchecks; reflexivity. }
  right.
  assert (Hsig : Spec.signature_is env cid sig a true)
    by (exists msg; split; assumption).
  rewrite bind_lift_Ok in Hchecks; cbn [negb] in Hchecks.
  destruct (message_carries a msg Em) as (_ & _ & _ & Ev & _).
  destruct (balanceOf env cid (from a)) as [bal|e] eqn:Eb.
  2:{ do 3 right; split; [exact Hpassed|]; right; left.
      split; [exact Hsig|]; split; [exists e; exact Eb|].
      apply (verify_of_fault this env p r e); rewrite Hchecks.
      destruct (chain_known p cid Hnet) as [-> | ->]; reflexivity. }
  assert (Hafter :
    Base.verify_checks env p r =
    if bal <? m_value msg then
      (Ok (invalid insufficient_funds (Some (from a))), balance_read)
    else
      match authorizationState env cid (from a) (nonce a) with
      | Ok nonceUsed =>
          (Ok (if nonceUsed then invalid invalid_payload (Some (from a))
               else valid (from a)), both_reads)
      | Throw e => (Throw e, both_reads)
      end).
  { rewrite Hchecks.
    destruct (chain_known p cid Hnet) as [-> | ->];
      rewrite bind_lift_Ok, bind_call_Ok, Ev, bind_lift_Ok;
      (destruct (bal <? m_value msg); [reflexivity|]);
      (destruct (authorizationState _ _ _ _) as [[|]|e]; reflexivity). }
  destruct (Z.ltb_spec bal (m_value msg)) as [Hlt|Hge].
  { left; split; [exact Hpassed|]; split; [exact Hsig|]; split.
    - exists bal, (m_value msg); repeat split; assumption.
    - apply verify_of_checks; exact Hafter. }
  right.
  assert (Hcov : Spec.balance_covers env cid a)
    by (exists bal, (m_value msg); repeat split; assumption).
  destruct (authorizationState env cid (from a) (nonce a)) as [[|]|e] eqn:En.
  - left; repeat split; try assumption.
    apply verify_of_checks; exact Hafter.
  - right; left; repeat split; try assumption.
    apply verify_of_checks; exact Hafter.
  - do 2 right; split; [exact Hpassed|]; do 2 right.
    split; [exact Hsig|]; split; [exact Hcov|]; split; [exists e; exact En|].
    apply (verify_of_fault this env p r e); exact Hafter.
Qed.

End BaseDecision.

Lemma chain_id_supported (n : string) (cid : Z) :
  Base.getChainId n = Ok cid -> In n Base.getSupportedNetworks.
Proof.
  unfold Base.getChainId, Base.getSupportedNetworks.
  destruct (String.eqb_spec n "base") as [->|]; [simpl; auto|].
  destruct (String.eqb_spec n "eip155:8453") as [->|]; [simpl; auto|].
  destruct (String.eqb_spec n "base-sepolia") as [->|]; [simpl; auto|].
  destruct (String.eqb_spec n "eip155:84532") as [->|]; [simpl; auto 6|].
  discriminate.
Qed.

(** [getChainId] accepts exactly the networks [getSupportedNetworks]
    lists; the short and the CAIP-2 name of a chain give the same id, 8453
    for "base" and "eip155:8453" and for no other name, 84532 for
    "base-sepolia" and "eip155:84532" and for no other name; and every id
    it returns has a chain configuration: "Unsupported chain ID" is never
    thrown on an id that came from a network name. *)
Theorem base_networks_are_the_supported_ones (n : string) :
  (In n Base.getSupportedNetworks <-> exists cid, Base.getChainId n = Ok cid)
  /\
  (~ In n Base.getSupportedNetworks ->
   Base.getChainId n = Throw UnsupportedNetworkError)
  /\
  (forall cid, Base.getChainId n = Ok cid ->
     (cid = 8453 <-> n = "base" \/ n = "eip155:8453") /\
     (cid = 84532 <-> n = "base-sepolia" \/ n = "eip155:84532") /\
     (cid = 8453 \/ cid = 84532) /\
     exists chain, Base.getChain cid = Ok chain).
Proof.
  split; [split|split].
  - intros Hin; simpl in Hin.
    repeat (destruct Hin as [<- | Hin]; [eexists; reflexivity|]).
    contradiction.
  - intros [cid H]; exact (chain_id_supported n cid H).
  - intros Hnot.
    destruct (Base.getChainId n) as [cid|e] eqn:E.
    + exfalso; exact (Hnot (chain_id_supported n cid E)).
    + revert E; unfold Base.getChainId.
      repeat (destruct (_ || _)%bool; [discriminate|]).
      now intros [= <-].
  - intros cid; unfold Base.getChainId.
    destruct (String.eqb_spec n "base") as [-> | N1]; simpl.
    { intros [= <-]; repeat split; auto; try discriminate.
      - intros [H | H]; discriminate H.
      - eexists; reflexivity. }
    destruct (String.eqb_spec n "eip155:8453") as [-> | N2]; simpl.
    { intros [= <-]; repeat split; auto; try discriminate.
      - intros [H | H]; discriminate H.
      - eexists; reflexivity. }
    destruct (String.eqb_spec n "base-sepolia") as [-> | N3]; simpl.
    { intros [= <-]; repeat split; auto; try discriminate.
      - intros [H | H]; discriminate H.
      - eexists; reflexivity. }
    destruct (String.eqb_spec n "eip155:84532") as [-> | N4]; simpl.
    { intros [= <-]; repeat split; auto; try discriminate.
      - intros [H | H]; discriminate H.
      - eexists; reflexivity. }
    discriminate.
Qed.

Lemma base_networks_are_the_supported_ones_witness :
  Base.getChainId "ethereum" = Throw UnsupportedNetworkError.
Proof.
  destruct (base_networks_are_the_supported_ones "ethereum") as (_ & H & _).
  apply H; simpl; intros H0.
  repeat (destruct H0 as [H0 | H0]; [discriminate H0|]); exact H0.
Defined.

(** Soundness of [verify] on the Base backend, for a payload whose
    recipient, [payTo], value and bounds are ASCII strings: it answers
    [isValid: true] only for an EVM-shaped payload on a supported network
    whose authorization is not expired, matches amount and recipient,
    carries a signature that verified, is covered by the balance read and
    whose nonce was read unused; the payer is [from] and both reads were
    made. *)
Theorem base_verify_sound (this : Base.BaseFacilitator) (env : Env)
    (p : PaymentPayload) (r : PaymentRequirements) (v : VerifyResponse)
    (t : list Event) :
  Spec.ascii_payment p r = true ->
  Base.verify this env p r = (Ok v, t) ->
  isValid v = true ->
  exists sig a cid,
    payload p = EvmBody sig a /\
    Base.getChainId (network p) = Ok cid /\
    In (network p) Base.getSupportedNetworks /\
    ~ Spec.timing_expired env a /\
    Spec.amount_ok a r /\
    Spec.recipient_ok a r /\
    Spec.signature_is env cid sig a true /\
    Spec.balance_covers env cid a /\
    Spec.nonce_is env cid a false /\
    v = valid (from a) /\
    t = [ReadBalanceOf cid (from a);
         ReadAuthorizationState cid (from a) (nonce a)].
Proof.
  intros _ Hrun Hvalid.
  destruct (Base.getChainId (network p)) as [cid|e] eqn:Hnet.
  2:{ rewrite (unknown_network_verdict this env p r e Hnet) in Hrun.
      injection Hrun as <- _; discriminate. }
  destruct (payload p) as [sig a|tx] eqn:Hbody.
  2:{ rewrite (wrong_shape_verdict this env p r tx Hbody) in Hrun.
      injection Hrun as <- _; discriminate. }
  exists sig, a, cid.
  pose proof (chain_id_supported _ _ Hnet) as Hsup.
  destruct (verify_decision this env p r sig a cid Hnet Hbody)
    as [(_ & E) | [(_ & _ & E) | [(_ & _ & _ & E) | [(_ & _ & E) |
       [(_ & _ & _ & E) | [(_ & _ & _ & _ & E) |
       [((Ht & Ha & Hr) & Hs & Hb & Hn & E) |
        (_ & [(_ & E) | [(_ & _ & E) | (_ & _ & _ & E)]])]]]]]]];
    rewrite E in Hrun; injection Hrun as <- <-; try discriminate.
  repeat split; assumption.
Qed.

Lemma base_verify_sound_witness :
  Spec.balance_covers Fixtures.sunny 8453 Fixtures.authorization /\
  Spec.nonce_is Fixtures.sunny 8453 Fixtures.authorization false.
Proof.
  destruct (base_verify_sound Fixtures.relayer Fixtures.sunny
              (Fixtures.evmPayload "base" Fixtures.authorization)
              (Fixtures.requirements "base" Fixtures.usdc None)
              (valid "0xPayer")
              [ReadBalanceOf 8453 "0xPayer";
               ReadAuthorizationState 8453 "0xPayer" "0x01"]
              eq_refl eq_refl eq_refl)
    as (sig & a & cid & Hb & Hc & _ & _ & _ & _ & _ & Hcov & Hn & _).
  injection Hb as <- <-. injection Hc as <-.
  split; assumption.
Defined.

Lemma not_expired_other_reason (this : Base.BaseFacilitator) (env : Env)
    (p : PaymentPayload) (r : PaymentRequirements) (sig : string)
    (a : EvmAuthorization) (cid : Z) :
  payload p = EvmBody sig a ->
  Base.getChainId (network p) = Ok cid ->
  ~ Spec.timing_expired env a ->
  forall who t,
    Base.verify this env p r <> (Ok (invalid payment_expired who), t).
Proof.
  intros Hbody Hnet Hne who t Hrun.
  destruct (verify_decision this env p r sig a cid Hnet Hbody)
    as [(Hexp & _) | [(_ & _ & E) | [(_ & _ & _ & E) | [(_ & _ & E) |
       [(_ & _ & _ & E) | [(_ & _ & _ & _ & E) | [(_ & _ & _ & _ & E) |
        (_ & [(_ & E) | [(_ & _ & E) | (_ & _ & _ & E)]])]]]]]]];
    [exact (Hne Hexp) | ..]; rewrite E in Hrun; discriminate.
Qed.

(** For bounds that are ASCII strings, [payment_expired] is reported
    exactly when one of the two bounds reads as a number and the clock is
    on the wrong side of it; a bound that [parseInt] cannot read never
    expires an authorization. *)
Theorem payment_expired_exactly (this : Base.BaseFacilitator) (env : Env)
    (p : PaymentPayload) (r : PaymentRequirements) (sig : string)
    (a : EvmAuthorization) (cid : Z) :
  payload p = EvmBody sig a ->
  Base.getChainId (network p) = Ok cid ->
  Spec.ascii_only (validAfter a) = true ->
  Spec.ascii_only (validBefore a) = true ->
  (Spec.timing_expired env a <->
   Base.verify this env p r =
   (Ok (invalid payment_expired (Some (from a))), []))
  /\
  (parseInt (validAfter a) = NaN -> parseInt (validBefore a) = NaN ->
   forall who t,
     Base.verify this env p r <> (Ok (invalid payment_expired who), t)).
Proof.
  intros Hbody Hnet _ _; split; [split|].
  - apply (expired_verdict this env p r sig a cid Hnet Hbody).
  - intros Hrun.
    destruct (verify_decision this env p r sig a cid Hnet Hbody)
      as [(Hexp & _) | [(Hne & _) | [(Hne & _) | [((Hne & _) & _) |
         [((Hne & _) & _) | [((Hne & _) & _) | [((Hne & _) & _) |
          ((Hne & _) & _)]]]]]]]; [exact Hexp | ..];
      exfalso;
      exact (not_expired_other_reason this env p r sig a cid Hbody Hnet Hne
               _ _ Hrun).
  - intros Ha Hb.
    apply (not_expired_other_reason this env p r sig a cid Hbody Hnet).
    intros [(va & E & _) | (vb & E & _)]; congruence.
Qed.

(** An authorization with empty validity bounds is not expired at any
    time: here it verifies. *)
Lemma payment_expired_exactly_witness :
  Base.verify Fixtures.relayer Fixtures.sunny
    (Fixtures.evmPayload "base" Scenarios.unbounded)
    (Fixtures.requirements "base" Fixtures.usdc None) <>
  (Ok (invalid payment_expired (Some "0xPayer")), []) /\
  isValid
    (match fst (Base.verify Fixtures.relayer Fixtures.sunny
                  (Fixtures.evmPayload "base" Scenarios.unbounded)
                  (Fixtures.requirements "base" Fixtures.usdc None)) with
     | Ok v => v
     | Throw _ => invalid unexpected_error None
     end) = true.
Proof.
  destruct (payment_expired_exactly Fixtures.relayer Fixtures.sunny
              (Fixtures.evmPayload "base" Scenarios.unbounded)
              (Fixtures.requirements "base" Fixtures.usdc None)
              "0xsigned" Scenarios.unbounded 8453 eq_refl eq_refl
              eq_refl eq_refl)
    as [_ H].
  split; [apply H; reflexivity | reflexivity].
Defined.

(** For a payload whose recipient, [payTo], value and bounds are ASCII
    strings, [verify] reads the chain only for an authorization that
    passed the local checks and whose signature verified: every other
    request is answered without any chain interaction.  It makes at most
    two reads, the balance first. *)
Theorem base_verify_reads_after_signature (this : Base.BaseFacilitator)
    (env : Env) (p : PaymentPayload) (r : PaymentRequirements) :
  Spec.ascii_payment p r = true ->
  snd (Base.verify this env p r) = [] \/
  exists sig a cid,
    payload p = EvmBody sig a /\
    Base.getChainId (network p) = Ok cid /\
    ~ Spec.timing_expired env a /\
    Spec.amount_ok a r /\
    Spec.recipient_ok a r /\
    Spec.signature_is env cid sig a true /\
    (snd (Base.verify this env p r) = [ReadBalanceOf cid (from a)] \/
     snd (Base.verify this env p r) =
       [ReadBalanceOf cid (from a);
        ReadAuthorizationState cid (from a) (nonce a)]).
Proof.
  intros _.
  destruct (Base.getChainId (network p)) as [cid|e] eqn:Hnet.
  2:{ left; now rewrite (unknown_network_verdict this env p r e Hnet). }
  destruct (payload p) as [sig a|tx] eqn:Hbody.
  2:{ left; now rewrite (wrong_shape_verdict this env p r tx Hbody). }
  destruct (verify_decision this env p r sig a cid Hnet Hbody)
    as [(_ & E) | [(_ & _ & E) | [(_ & _ & _ & E) | [(_ & _ & E) |
       [(Hp & Hs & _ & E) | [(Hp & Hs & _ & _ & E) |
       [(Hp & Hs & _ & _ & E) |
        (Hp & [(_ & E) | [(Hs & _ & E) | (Hs & _ & _ & E)]])]]]]]]];
    rewrite E; simpl; try (left; reflexivity);
    right; exists sig, a, cid; destruct Hp as (Ht & Ha & Hr);
    repeat split; try assumption; auto.
Qed.

Lemma base_verify_reads_after_signature_witness :
  Spec.signature_is Fixtures.sunny 8453 "0xsigned" Fixtures.authorization
    true.
Proof.
  destruct (base_verify_reads_after_signature Fixtures.relayer Fixtures.sunny
              (Fixtures.evmPayload "base" Fixtures.authorization)
              (Fixtures.requirements "base" Fixtures.usdc None) eq_refl)
    as [E | (sig & a & cid & Hb & Hc & _ & _ & _ & Hs & _)].
  - discriminate E.
  - injection Hb as <- <-; injection Hc as <-; exact Hs.
Defined.

(** The shape of every answer of [verify]: either [unexpected_error]
    without payer, or a verdict on an EVM-shaped payload whose payer is
    the authorization's [from]: [isValid: true], or one of the six reasons
    of the checks. *)
Theorem base_verify_answer_shape (this : Base.BaseFacilitator) (env : Env)
    (p : PaymentPayload) (r : PaymentRequirements) :
  exists v,
    fst (Base.verify this env p r) = Ok v /\
    (v = invalid unexpected_error None \/
     exists sig a,
       payload p = EvmBody sig a /\
       (v = valid (from a) \/
        exists reason,
          v = invalid reason (Some (from a)) /\
          In reason [payment_expired; amount_mismatch; recipient_mismatch;
                     invalid_signature; insufficient_funds;
                     invalid_payload])).
Proof.
  destruct (Base.getChainId (network p)) as [cid|e] eqn:Hnet.
  2:{ rewrite (unknown_network_verdict this env p r e Hnet).
      eexists; split; [reflexivity | now left]. }
  destruct (payload p) as [sig a|tx] eqn:Hbody.
  2:{ rewrite (wrong_shape_verdict this env p r tx Hbody).
      eexists; split; [reflexivity | now left]. }
  destruct (verify_decision this env p r sig a cid Hnet Hbody)
    as [(_ & E) | [(_ & _ & E) | [(_ & _ & _ & E) | [(_ & _ & E) |
       [(_ & _ & _ & E) | [(_ & _ & _ & _ & E) | [(_ & _ & _ & _ & E) |
        (_ & [(_ & E) | [(_ & _ & E) | (_ & _ & _ & E)]])]]]]]]];
    rewrite E; eexists; (split; [reflexivity|]);
    try (left; reflexivity);
    right; exists sig, a; (split; [reflexivity|]);
    try (left; reflexivity);
    right; eexists; (split; [reflexivity|]); simpl; auto 10.
Qed.

(* ===================================================================== *)
(** ** The Base backend: settlement after a verification that passed *)
(* ===================================================================== *)

Lemma read_only_no_submission (t : list Event) :
  Spec.read_only t -> Derived.submissions t = 0%nat.
Proof.
  unfold Spec.read_only, Derived.submissions.
  induction t as [|e t IH]; simpl; [reflexivity|].
  destruct (is_write e); simpl; [discriminate | exact IH].
Qed.

Lemma submissions_app (t u : list Event) :
  Derived.submissions (t ++ u) =
  (Derived.submissions t + Derived.submissions u)%nat.
Proof.
  unfold Derived.submissions; now rewrite filter_app, length_app.
Qed.

(** What a valid answer of [verify] implies, for use below. *)
Lemma base_valid_inversion (this : Base.BaseFacilitator) (env : Env)
    (p : PaymentPayload) (r : PaymentRequirements) (v : VerifyResponse) :
  fst (Base.verify this env p r) = Ok v ->
  isValid v = true ->
  exists sig a cid msg,
    payload p = EvmBody sig a /\
    Base.getChainId (network p) = Ok cid /\
    Base.message a = Ok msg /\
    v = valid (from a).
Proof.
  intros Hrun Hvalid.
  destruct (Base.getChainId (network p)) as [cid|e] eqn:Hnet.
  2:{ rewrite (unknown_network_verdict this env p r e Hnet) in Hrun.
      injection Hrun as <-; discriminate. }
  destruct (payload p) as [sig a|tx] eqn:Hbody.
  2:{ rewrite (wrong_shape_verdict this env p r tx Hbody) in Hrun.
      injection Hrun as <-; discriminate. }
  destruct (verify_decision this env p r sig a cid Hnet Hbody)
    as [(_ & E) | [(_ & _ & E) | [(_ & _ & _ & E) | [(_ & _ & E) |
       [(_ & _ & _ & E) | [(_ & _ & _ & _ & E) |
       [(_ & (msg & Em & _) & _ & _ & E) |
        (_ & [(_ & E) | [(_ & _ & E) | (_ & _ & _ & E)]])]]]]]]];
    rewrite E in Hrun; injection Hrun as <-; try discriminate.
  exists sig, a, cid, msg; repeat split; assumption.
Qed.

(** An invalid answer of [verify] carries a reason. *)
Lemma base_invalid_has_reason (this : Base.BaseFacilitator) (env : Env)
    (p : PaymentPayload) (r : PaymentRequirements) (v : VerifyResponse) :
  fst (Base.verify this env p r) = Ok v ->
  isValid v = false ->
  exists reason, invalidReason v = Some reason.
Proof.
  intros Hrun Hinvalid.
  destruct (Base.getChainId (network p)) as [cid|e] eqn:Hnet.
  2:{ rewrite (unknown_network_verdict this env p r e Hnet) in Hrun.
      injection Hrun as <-; eexists; reflexivity. }
  destruct (payload p) as [sig a|tx] eqn:Hbody.
  2:{ rewrite (wrong_shape_verdict this env p r tx Hbody) in Hrun.
      injection Hrun as <-; eexists; reflexivity. }
  destruct (verify_decision this env p r sig a cid Hnet Hbody)
    as [(_ & E) | [(_ & _ & E) | [(_ & _ & _ & E) | [(_ & _ & E) |
       [(_ & _ & _ & E) | [(_ & _ & _ & _ & E) | [(_ & _ & _ & _ & E) |
        (_ & [(_ & E) | [(_ & _ & E) | (_ & _ & _ & E)]])]]]]]]];
    rewrite E in Hrun; injection Hrun as <-;
    try discriminate; eexists; reflexivity.
Qed.

Section BaseSettle.

Variable this : Base.BaseFacilitator.
Variable env : Env.
Variable p : PaymentPayload.
Variable r : PaymentRequirements.
Variable key sig : string.
Variable a : EvmAuthorization.
Variable cid : Z.
Variable msg : TransferMessage.
Variable v : VerifyResponse.
Hypothesis Hkey : Base.privateKey this = Some key.
Hypothesis Hbody : payload p = EvmBody sig a.
Hypothesis Hnet : Base.getChainId (network p) = Ok cid.
Hypothesis Hmsg : Base.message a = Ok msg.
Hypothesis Hverify : fst (Base.verify this env p r) = Ok v.
Hypothesis Hvalid : isValid v = true.

(** The whole of [settle] once the verification has passed. *)
Lemma settle_after_valid :
  let reads := snd (Base.verify this env p r) in
  let failed := settle_failure (Some settlement_failed) None (network p) None in
  Base.settle this env p r =
  match privateKeyToAccount env key with
  | Throw _ => (Ok failed, reads)
  | Ok account =>
      let write := WriteTransferWithAuthorization cid account msg sig in
      match writeContract env cid account msg sig with
      | Throw _ => (Ok failed, (reads ++ [write])%list)
      | Ok hash =>
          let tail := [write; WaitForTransactionReceipt hash] in
          match waitForTransactionReceipt env hash with
          | Throw _ => (Ok failed, (reads ++ tail)%list)
          | Ok receipt_success =>
              (Ok (settle_success hash (network p) (Some (from a))),
               (reads ++ tail)%list)
          | Ok receipt_reverted =>
              (Ok (settle_failure (Some settlement_failed) (Some hash)
                                  (network p) (Some (from a))),
               (reads ++ tail)%list)
          end
      end
  end.
Proof.
  intros reads failed.
  assert (Esteps :
    Base.settle_steps this env key p r =
    (fst (match privateKeyToAccount env key with
          | Throw e => (Throw e, [])
          | Ok account =>
              match writeContract env cid account msg sig with
              | Throw e =>
                  (Throw e,
                   [WriteTransferWithAuthorization cid account msg sig])
              | Ok hash =>
                  match waitForTransactionReceipt env hash with
                  | Throw e =>
                      (Throw e,
                       [WriteTransferWithAuthorization cid account msg sig;
                        WaitForTransactionReceipt hash])
                  | Ok receipt_success =>
                      (Ok (settle_success hash (network p) (Some (from a))),
                       [WriteTransferWithAuthorization cid account msg sig;
                        WaitForTransactionReceipt hash])
                  | Ok receipt_reverted =>
                      (Ok (settle_failure (Some settlement_failed) (Some hash)
                                          (network p) (Some (from a))),
                       [WriteTransferWithAuthorization cid account msg sig;
                        WaitForTransactionReceipt hash])
                  end
              end
          end),
     (reads ++
      snd (match privateKeyToAccount env key with
          | Throw e => (@Throw SettleResponse e, [])
          | Ok account =>
              match writeContract env cid account msg sig with
              | Throw e =>
                  (Throw e,
                   [WriteTransferWithAuthorization cid account msg sig])
              | Ok hash =>
                  match waitForTransactionReceipt env hash with
                  | Throw e =>
                      (Throw e,
                       [WriteTransferWithAuthorization cid account msg sig;
                        WaitForTransactionReceipt hash])
                  | Ok receipt_success =>
                      (Ok (settle_success hash (network p) (Some (from a))),
                       [WriteTransferWithAuthorization cid account msg sig;
                        WaitForTransactionReceipt hash])
                  | Ok receipt_reverted =>
                      (Ok (settle_failure (Some settlement_failed) (Some hash)
                                          (network p) (Some (from a))),
                       [WriteTransferWithAuthorization cid account msg sig;
                        WaitForTransactionReceipt hash])
                  end
              end
          end))%list)).
  { unfold Base.settle_steps.
    rewrite (bind_Ok _ v _ Hverify), Hvalid; cbn [negb].
    fold reads; f_equal; [f_equal|f_equal];
      rewrite Hnet, bind_lift_Ok;
      (destruct (chain_known p cid Hnet) as [-> | ->]);
      rewrite bind_lift_Ok; unfold Base.evm_body;
      rewrite Hbody, bind_lift_Ok; cbn [fst snd];
      (destruct (privateKeyToAccount env key) as [account|e];
       [rewrite bind_lift_Ok, Hmsg, bind_lift_Ok | reflexivity]);
      (destruct (writeContract env cid account msg sig) as [hash|e];
       [rewrite bind_call_Ok | reflexivity]);
      (destruct (waitForTransactionReceipt env hash) as [[|]|e];
       reflexivity). }
  unfold Base.settle; rewrite Hkey.
  unfold try_catch; rewrite Esteps; cbn [fst snd].
  destruct (privateKeyToAccount env key) as [account|e];
    [|cbn; now rewrite !app_nil_r].
  destruct (writeContract env cid account msg sig) as [hash|e];
    [|cbn; now rewrite !app_nil_r].
  destruct (waitForTransactionReceipt env hash) as [[|]|e]; cbn;
    rewrite ?app_nil_r; reflexivity.
Qed.

End BaseSettle.

(** After a verification that passed, [settle] submits one
    [transferWithAuthorization] whose arguments are the authorization's
    own fields and the client's signature, from the account of the funding
    key, and waits for its receipt: a successful receipt gives
    [success: true] with the hash and [payer = from], a reverted one
    [settlement_failed], still with the hash and the payer. *)
Theorem base_settle_relays_authorization
    (this : Base.BaseFacilitator) (env : Env) (p : PaymentPayload)
    (r : PaymentRequirements) (key sig account hash : string)
    (a : EvmAuthorization) (cid : Z) (msg : TransferMessage)
    (v : VerifyResponse) (receipt : ReceiptStatus) :
  Base.privateKey this = Some key ->
  payload p = EvmBody sig a ->
  Base.getChainId (network p) = Ok cid ->
  Base.message a = Ok msg ->
  fst (Base.verify this env p r) = Ok v ->
  isValid v = true ->
  privateKeyToAccount env key = Ok account ->
  writeContract env cid account msg sig = Ok hash ->
  waitForTransactionReceipt env hash = Ok receipt ->
  Derived.carries msg a /\
  Base.settle this env p r =
  (Ok (match receipt with
       | receipt_success =>
           settle_success hash (network p) (Some (from a))
       | receipt_reverted =>
           settle_failure (Some settlement_failed) (Some hash) (network p)
                          (Some (from a))
       end),
   (snd (Base.verify this env p r) ++
    [WriteTransferWithAuthorization cid account msg sig;
     WaitForTransactionReceipt hash])%list).
Proof.
  intros Hkey Hbody Hnet Hmsg Hverify Hvalid Hacc Hwrite Hwait.
  split; [exact (message_carries a msg Hmsg)|].
  rewrite (settle_after_valid this env p r key sig a cid msg v
             Hkey Hbody Hnet Hmsg Hverify Hvalid).
  cbv zeta; rewrite Hacc, Hwrite, Hwait.
  destruct receipt; reflexivity.
Qed.

Lemma base_settle_relays_authorization_witness :
  Base.settle Fixtures.relayer Scenarios.reverting
    (Fixtures.evmPayload "base" Fixtures.authorization)
    (Fixtures.requirements "base" Fixtures.usdc None) =
  (Ok (settle_failure (Some settlement_failed) (Some "0xfeed") "base"
                      (Some "0xPayer")),
   [ReadBalanceOf 8453 "0xPayer";
    ReadAuthorizationState 8453 "0xPayer" "0x01";
    WriteTransferWithAuthorization 8453 "0xRelayer"
      {| m_from := "0xPayer"; m_to := "0xMerchant"; m_value := 10000;
         m_validAfter := 1699999000; m_validBefore := 1700003600;
         m_nonce := "0x01" |}
      "0xsigned";
    WaitForTransactionReceipt "0xfeed"]).
Proof.
  destruct (base_settle_relays_authorization Fixtures.relayer
              Scenarios.reverting
              (Fixtures.evmPayload "base" Fixtures.authorization)
              (Fixtures.requirements "base" Fixtures.usdc None)
              "0xkey" "0xsigned" "0xRelayer" "0xfeed"
              Fixtures.authorization 8453
              {| m_from := "0xPayer"; m_to := "0xMerchant"; m_value := 10000;
                 m_validAfter := 1699999000; m_validBefore := 1700003600;
                 m_nonce := "0x01" |}
              (valid "0xPayer") receipt_reverted
              eq_refl eq_refl eq_refl eq_refl eq_refl eq_refl eq_refl eq_refl
              eq_refl) as [_ H].
  exact H.
Defined.

(** A fault after the verification passed is answered
    [settlement_failed] with neither transaction id nor payer, whatever
    was already done: when the funding account cannot be derived nothing
    is submitted; when the submission throws, the attempt was made; and
    when the submission succeeded and waiting for the receipt throws, the
    transfer is on its way and its hash is not reported. *)
Theorem base_settle_fault_loses_hash
    (this : Base.BaseFacilitator) (env : Env) (p : PaymentPayload)
    (r : PaymentRequirements) (key sig : string)
    (a : EvmAuthorization) (cid : Z) (msg : TransferMessage)
    (v : VerifyResponse) :
  Base.privateKey this = Some key ->
  payload p = EvmBody sig a ->
  Base.getChainId (network p) = Ok cid ->
  Base.message a = Ok msg ->
  fst (Base.verify this env p r) = Ok v ->
  isValid v = true ->
  let failed := settle_failure (Some settlement_failed) None (network p) None in
  let reads := snd (Base.verify this env p r) in
  (forall e,
     privateKeyToAccount env key = Throw e ->
     Base.settle this env p r = (Ok failed, reads))
  /\
  (forall account e,
     privateKeyToAccount env key = Ok account ->
     writeContract env cid account msg sig = Throw e ->
     Base.settle this env p r =
     (Ok failed,
      (reads ++ [WriteTransferWithAuthorization cid account msg sig])%list))
  /\
  (forall account hash e,
     privateKeyToAccount env key = Ok account ->
     writeContract env cid account msg sig = Ok hash ->
     waitForTransactionReceipt env hash = Throw e ->
     Base.settle this env p r =
     (Ok failed,
      (reads ++ [WriteTransferWithAuthorization cid account msg sig;
                 WaitForTransactionReceipt hash])%list)).
Proof.
  intros Hkey Hbody Hnet Hmsg Hverify Hvalid failed reads.
  pose proof (settle_after_valid this env p r key sig a cid msg v
                Hkey Hbody Hnet Hmsg Hverify Hvalid) as H.
  cbv zeta in H; fold failed reads in H.
  repeat split.
  - intros e Hacc; rewrite H, Hacc; reflexivity.
  - intros account e Hacc Hwrite; rewrite H, Hacc, Hwrite; reflexivity.
  - intros account hash e Hacc Hwrite Hwait.
    rewrite H, Hacc, Hwrite, Hwait; reflexivity.
Qed.

Lemma base_settle_fault_loses_hash_witness :
  Base.settle Fixtures.relayer Scenarios.lost_after_submit
    (Fixtures.evmPayload "base" Fixtures.authorization)
    (Fixtures.requirements "base" Fixtures.usdc None) =
  (Ok (settle_failure (Some settlement_failed) None "base" None),
   [ReadBalanceOf 8453 "0xPayer";
    ReadAuthorizationState 8453 "0xPayer" "0x01";
    WriteTransferWithAuthorization 8453 "0xRelayer"
      {| m_from := "0xPayer"; m_to := "0xMerchant"; m_value := 10000;
         m_validAfter := 1699999000; m_validBefore := 1700003600;
         m_nonce := "0x01" |}
      "0xsigned";
    WaitForTransactionReceipt "0xfeed"]).
Proof.
  destruct (base_settle_fault_loses_hash Fixtures.relayer
              Scenarios.lost_after_submit
              (Fixtures.evmPayload "base" Fixtures.authorization)
              (Fixtures.requirements "base" Fixtures.usdc None)
              "0xkey" "0xsigned" Fixtures.authorization 8453
              {| m_from := "0xPayer"; m_to := "0xMerchant"; m_value := 10000;
                 m_validAfter := 1699999000; m_validBefore := 1700003600;
                 m_nonce := "0x01" |}
              (valid "0xPayer")
              eq_refl eq_refl eq_refl eq_refl eq_refl eq_refl)
    as (_ & _ & H).
  apply (H "0xRelayer" "0xfeed" RpcError); reflexivity.
Defined.

Lemma base_settle_summary (this : Base.BaseFacilitator) (env : Env)
    (p : PaymentPayload) (r : PaymentRequirements) :
  exists s,
    fst (Base.settle this env p r) = Ok s /\
    (Derived.submissions (snd (Base.settle this env p r)) <= 1)%nat /\
    (success s = true ->
     (exists hash, transaction s = Some hash) /\
     errorReason s = None /\
     Derived.submissions (snd (Base.settle this env p r)) = 1%nat) /\
    (success s = false -> exists reason, errorReason s = Some reason).
Proof.
  destruct (Base.privateKey this) as [key|] eqn:Hkey.
  2:{ unfold Base.settle; rewrite Hkey.
      eexists; split; [reflexivity|].
      split; [unfold Derived.submissions; simpl; lia|].
      split; [discriminate | intros _; eexists; reflexivity]. }
  destruct (base_verify_total this env p r) as [v Hv].
  pose proof (read_only_no_submission _ (base_verify_reads this env p r))
    as Hreads.
  destruct (isValid v) eqn:Hvalid.
  - destruct (base_valid_inversion this env p r v Hv Hvalid)
      as (sig & a & cid & msg & Hbody & Hnet & Hmsg & _).
    rewrite (settle_after_valid this env p r key sig a cid msg v
               Hkey Hbody Hnet Hmsg Hv Hvalid); cbv zeta.
    destruct (privateKeyToAccount env key) as [account|e].
    2:{ eexists; split; [reflexivity|]; cbn [snd]; rewrite Hreads.
        split; [lia|]; split; [discriminate|].
        intros _; eexists; reflexivity. }
    destruct (writeContract env cid account msg sig) as [hash|e].
    2:{ eexists; split; [reflexivity|]; cbn [snd].
        rewrite submissions_app, Hreads.
        split; [unfold Derived.submissions; simpl; lia|].
        split; [discriminate|].
        intros _; eexists; reflexivity. }
    destruct (waitForTransactionReceipt env hash) as [[|]|e];
      (eexists; split; [reflexivity|]); cbn [snd];
      rewrite submissions_app, Hreads;
      (split; [unfold Derived.submissions; simpl; lia|]); split;
      try discriminate;
      try (intros _; eexists; reflexivity).
    intros _; split; [eexists; reflexivity|]; split; reflexivity.
  - assert (E : Base.settle this env p r =
                (Ok (settle_failure (invalidReason v) None (network p)
                                    (payer v)),
                 snd (Base.verify this env p r))).
    { unfold Base.settle; rewrite Hkey.
      unfold Base.settle_steps, try_catch.
      rewrite (bind_Ok _ v _ Hv), Hvalid; cbn.
      now rewrite app_nil_r. }
    rewrite E; eexists; split; [reflexivity|]; cbn [snd]; rewrite Hreads.
    split; [lia|]; split; [discriminate|].
    intros _; exact (base_invalid_has_reason this env p r v Hv Hvalid).
Qed.

(** [settle] on the Base backend always answers, submits at most one
    transaction, and its answer is consistent: [success: true] comes with
    a transaction id, no error reason and exactly one submission;
    [success: false] comes with an error reason. *)
Theorem base_settle_answer_shape (this : Base.BaseFacilitator) (env : Env)
    (p : PaymentPayload) (r : PaymentRequirements) :
  exists s,
    fst (Base.settle this env p r) = Ok s /\
    (Derived.submissions (snd (Base.settle this env p r)) <= 1)%nat /\
    (success s = true ->
     (exists hash, transaction s = Some hash) /\
     errorReason s = None /\
     Derived.submissions (snd (Base.settle this env p r)) = 1%nat) /\
    (success s = false -> exists reason, errorReason s = Some reason).
Proof. exact (base_settle_summary this env p r). Qed.

(* ===================================================================== *)
(** ** The Solana backend: what a verdict implies *)
(* ===================================================================== *)

Lemma mint_supported (n mint : string) :
  Solana.USDC_MINTS n = Some mint -> In n Solana.getSupportedNetworks.
Proof.
  unfold Solana.USDC_MINTS, Solana.getSupportedNetworks.
  destruct (String.eqb_spec n "solana") as [->|]; [simpl; auto|].
  destruct (String.eqb_spec n "solana-devnet") as [->|]; [simpl; auto|].
  destruct (String.eqb_spec n "solana:5eykt4UsFv8P8NJdTREpY1vzqKqZKvdp")
    as [->|]; [simpl; auto|].
  destruct (String.eqb_spec n "solana:EtWTRABZaYq6iMfeYKouRu166VU2xqa1")
    as [->|]; [simpl; auto 6|].
  discriminate.
Qed.

(** The decoders, seen from their result. *)
Lemma decode_payer_cases (env : Env) (tx : string) :
  (exists e, Solana.decode_payer env tx = (Throw e, [])) \/
  (Solana.decode_payer env tx = (Ok EmptyString, [])) \/
  (exists who,
     Spec.resolves_payer env tx who /\
     Solana.decode_payer env tx = (Ok who, [])).
Proof.
  assert (Hfall :
    (exists vtx, deserialize env tx = Ok vtx /\ staticAccountKeys vtx = [])
    \/ (exists e, deserialize env tx = Throw e) ->
    Solana.decode_payer env tx =
    match transactionFrom env tx with
    | Throw e => (Throw e, [])
    | Ok t => (Ok (match feePayer t with
                   | Some k => or_else k EmptyString
                   | None => EmptyString
                   end), [])
    end).
  { intros H; unfold Solana.decode_payer.
    assert (Hv : exists e,
               bind (lift (deserialize env tx))
                    (fun t => lift (Solana.first_key t)) = (Throw e, [])).
    { destruct H as [(vtx & Ed & Ek) | [e Ed]]; rewrite Ed.
      - rewrite bind_lift_Ok; unfold Solana.first_key; rewrite Ek.
        eexists; reflexivity.
      - exists e; reflexivity. }
    destruct Hv as [e ->].
    rewrite (try_catch_Throw _ e) by reflexivity.
    destruct (transactionFrom env tx) as [t|e']; reflexivity. }
  destruct (deserialize env tx) as [vtx|e] eqn:Ed.
  - destruct (staticAccountKeys vtx) as [|k rest] eqn:Ek.
    + rewrite Hfall by (left; exists vtx; split; [reflexivity | exact Ek]).
      destruct (transactionFrom env tx) as [t|e'] eqn:El;
        [|left; eexists; reflexivity].
      right.
      destruct (feePayer t) as [k|] eqn:Ef; [|left; reflexivity].
      unfold or_else; destruct (truthy k) eqn:Ht; [|left; reflexivity].
      right; exists k; split; [|reflexivity].
      split; [exact Ht|]; right; split.
      * right; exists vtx; split; [exact Ed | exact Ek].
      * exists t; split; [exact El | exact Ef].
    + assert (E : Solana.decode_payer env tx = (Ok k, [])).
      { unfold Solana.decode_payer.
        rewrite Ed, bind_lift_Ok; unfold Solana.first_key; rewrite Ek.
        reflexivity. }
      rewrite E; right.
      destruct (truthy k) eqn:Ht.
      * right; exists k; split; [|reflexivity].
        split; [exact Ht|]; left; exists vtx, rest; split; [exact Ed|].
        exact Ek.
      * left; destruct k; [reflexivity | discriminate].
  - rewrite Hfall by (right; exists e; reflexivity).
    destruct (transactionFrom env tx) as [t|e'] eqn:El;
      [|left; eexists; reflexivity].
    right.
    destruct (feePayer t) as [k|] eqn:Ef; [|left; reflexivity].
    unfold or_else; destruct (truthy k) eqn:Ht; [|left; reflexivity].
    right; exists k; split; [|reflexivity].
    split; [exact Ht|]; right; split.
    + left; exists e; exact Ed.
    + exists t; split; [exact El | exact Ef].
Qed.

Section SolanaDecision.

Variable this : Solana.SolanaFacilitator.
Variable env : Env.
Variable p : PaymentPayload.
Variable r : PaymentRequirements.
Variable tx : string.
Hypothesis Hbody : payload p = SolanaBody tx.

Lemma solana_steps_unfold :
  Solana.verify_steps this env p r =
  bind (Solana.decode_payer env tx) (fun payer =>
    if negb (truthy payer) then ret (invalid invalid_payload None)
    else
      match Solana.USDC_MINTS (network p) with
      | None => ret (invalid unsupported_network (Some payer))
      | Some usdcMint =>
          bind (lift (getAssociatedTokenAddress env usdcMint payer))
            (fun payerAta => Solana.check_balance env payerAta payer r)
      end).
Proof.
  unfold Solana.verify_steps, Solana.solana_body.
  rewrite Hbody, bind_lift_Ok; reflexivity.
Qed.

(** Every run of [verify] on a Solana-shaped payload is one of these. *)
Lemma solana_verify_decision :
  (* the transaction does not decode *)
  ((exists e, Solana.decode_payer env tx = (Throw e, [])) /\
   Solana.verify this env p r = (Ok (invalid unexpected_error None), []))
  \/
  (* it decodes without payer *)
  (Solana.decode_payer env tx = (Ok EmptyString, []) /\
   Solana.verify this env p r = (Ok (invalid invalid_payload None), []))
  \/
  exists who,
    Spec.resolves_payer env tx who /\
    ((Solana.USDC_MINTS (network p) = None /\
      Solana.verify this env p r =
      (Ok (invalid unsupported_network (Some who)), []))
     \/
     exists mint,
       Solana.USDC_MINTS (network p) = Some mint /\
       ((exists e, getAssociatedTokenAddress env mint who = Throw e) /\
        Solana.verify this env p r =
        (Ok (invalid unexpected_error None), [])
        \/
        exists ata,
          getAssociatedTokenAddress env mint who = Ok ata /\
          Solana.verify this env p r = Solana.check_balance env ata who r)).
Proof.
  destruct (decode_payer_cases env tx) as [[e E] | [E | (who & Hp & E)]].
  - left; split; [exists e; exact E|].
    unfold Solana.verify; rewrite solana_steps_unfold, E; reflexivity.
  - right; left; split; [exact E|].
    unfold Solana.verify; rewrite solana_steps_unfold, E, bind_Ok_nil.
    reflexivity.
  - right; right; exists who; split; [exact Hp|].
    assert (Ht : truthy who = true) by apply Hp.
    destruct (Solana.USDC_MINTS (network p)) as [mint|] eqn:Em.
    + right; exists mint; split; [reflexivity|].
      destruct (getAssociatedTokenAddress env mint who) as [ata|e] eqn:Ea.
      * right; exists ata; split; [reflexivity|].
        apply (solana_verify_with_payer this env p r tx Hbody who mint ata);
          assumption.
      * left; split; [exists e; reflexivity|].
        unfold Solana.verify.
        rewrite solana_steps_unfold, E, bind_Ok_nil, Ht, Em; cbn [negb].
        rewrite Ea; reflexivity.
    + left; split; [reflexivity|].
      unfold Solana.verify.
      rewrite solana_steps_unfold, E, bind_Ok_nil, Ht, Em; reflexivity.
Qed.

End SolanaDecision.

(** The balance check, seen from its result. *)
Lemma check_balance_cases (env : Env) (ata who : string)
    (r : PaymentRequirements) :
  Solana.check_balance env ata who r =
  (Ok (match getAccount env ata, BigInt (maxAmountRequired r) with
       | Ok amount, Ok required =>
           if amount <? required
           then invalid insufficient_funds (Some who)
           else valid who
       | _, _ => invalid insufficient_funds (Some who)
       end),
   [GetAccount ata]).
Proof.
  unfold Solana.check_balance.
  destruct (getAccount env ata) as [amount|e]; [|reflexivity].
  rewrite bind_call_Ok.
  destruct (BigInt (maxAmountRequired r)) as [required|e];
    [|reflexivity].
  rewrite bind_lift_Ok.
  destruct (amount <? required); reflexivity.
Qed.

Lemma wrong_shape_solana (this : Solana.SolanaFacilitator) (env : Env)
    (p : PaymentPayload) (r : PaymentRequirements) (sig : string)
    (a : EvmAuthorization) :
  payload p = EvmBody sig a ->
  Solana.verify this env p r = (Ok (invalid unexpected_error None), []).
Proof.
  intros H; unfold Solana.verify, Solana.verify_steps, Solana.solana_body.
  rewrite H; reflexivity.
Qed.

(** The mint table is defined exactly on the networks
    [getSupportedNetworks] lists, and the mint it gives is the devnet one
    exactly when [isDevnet] says so: the short and the CAIP-2 name of a
    cluster share their mint. *)
Theorem solana_mints_are_the_supported_ones (n : string) :
  (In n Solana.getSupportedNetworks <->
   exists mint, Solana.USDC_MINTS n = Some mint)
  /\
  (forall mint,
     Solana.USDC_MINTS n = Some mint ->
     mint = if Solana.isDevnet n then Solana.devnet_mint
            else Solana.mainnet_mint).
Proof.
  split; [split|].
  - intros Hin; simpl in Hin.
    repeat (destruct Hin as [<- | Hin]; [eexists; reflexivity|]).
    contradiction.
  - intros [mint H]; exact (mint_supported n mint H).
  - intros mint H.
    pose proof (mint_supported n mint H) as Hin; simpl in Hin.
    repeat (destruct Hin as [<- | Hin];
            [vm_compute in H; injection H as <-; reflexivity|]).
    contradiction.
Qed.

Lemma solana_mints_are_the_supported_ones_witness :
  Solana.mainnet_mint =
  if Solana.isDevnet "solana:5eykt4UsFv8P8NJdTREpY1vzqKqZKvdp"
  then Solana.devnet_mint else Solana.mainnet_mint.
Proof.
  destruct (solana_mints_are_the_supported_ones
              "solana:5eykt4UsFv8P8NJdTREpY1vzqKqZKvdp") as [_ H].
  apply H; reflexivity.
Defined.

(** Soundness of [verify] on the Solana backend, for a
    [maxAmountRequired] that is an ASCII string: it answers
    [isValid: true] only for a Solana-shaped payload whose transaction
    decodes to a non-empty payer, on a supported network, when the payer's
    token account was read and holds at least [maxAmountRequired]; the
    payer is the decoded one and the account read is the only chain
    interaction. *)
Theorem solana_verify_sound (this : Solana.SolanaFacilitator) (env : Env)
    (p : PaymentPayload) (r : PaymentRequirements) (v : VerifyResponse)
    (t : list Event) :
  Spec.ascii_only (maxAmountRequired r) = true ->
  Solana.verify this env p r = (Ok v, t) ->
  isValid v = true ->
  exists tx who mint ata amount required,
    payload p = SolanaBody tx /\
    Spec.resolves_payer env tx who /\
    In (network p) Solana.getSupportedNetworks /\
    Solana.USDC_MINTS (network p) = Some mint /\
    getAssociatedTokenAddress env mint who = Ok ata /\
    getAccount env ata = Ok amount /\
    BigInt (maxAmountRequired r) = Ok required /\
    required <= amount /\
    v = valid who /\
    t = [GetAccount ata].
Proof.
  intros _ Hrun Hvalid.
  destruct (payload p) as [sig a|tx] eqn:Hbody.
  { rewrite (wrong_shape_solana this env p r sig a Hbody) in Hrun.
    injection Hrun as <- _; discriminate. }
  destruct (solana_verify_decision this env p r tx Hbody)
    as [(_ & E) | [(_ & E) | (who & Hp & [(_ & E) | (mint & Hm &
         [(_ & E) | (ata & Ha & E)])])]];
    rewrite E in Hrun; try (injection Hrun as <- _; discriminate).
  rewrite check_balance_cases in Hrun.
  destruct (getAccount env ata) as [amount|] eqn:Eg;
    [|injection Hrun as <- _; discriminate].
  destruct (BigInt (maxAmountRequired r)) as [required|] eqn:Er;
    [|injection Hrun as <- _; discriminate].
  destruct (Z.ltb_spec amount required) as [Hlt|Hge];
    [injection Hrun as <- _; discriminate|].
  injection Hrun as <- <-.
  exists tx, who, mint, ata, amount, required.
  split; [reflexivity|]; split; [exact Hp|].
  split; [exact (mint_supported _ _ Hm)|].
  repeat split; try assumption; reflexivity.
Qed.

Lemma solana_verify_sound_witness :
  exists who, Spec.resolves_payer Fixtures.sunny "AQABsigned" who.
Proof.
  destruct (solana_verify_sound (Fixtures.solana None) Fixtures.sunny
              (Fixtures.solanaPayload "solana")
              (Fixtures.requirements "solana" Solana.mainnet_mint None)
              (valid "PayerPubkey") [GetAccount "PayerTokenAccount"]
              eq_refl eq_refl eq_refl)
    as (tx & who & _ & _ & _ & _ & Hb & Hp & _).
  injection Hb as <-.
  exists who; exact Hp.
Defined.

(** The answers of [verify] on the Solana backend: [unexpected_error] or
    [invalid_payload] without payer, or [unsupported_network],
    [insufficient_funds] or [isValid: true] with the decoded payer.  It
    never answers with a signature, amount, recipient or expiry reason,
    makes at most one chain read, and of the requirements it looks at
    [maxAmountRequired] alone. *)
Theorem solana_verify_answer_shape (this : Solana.SolanaFacilitator)
    (env : Env) (p : PaymentPayload) (r : PaymentRequirements) :
  (exists v,
     fst (Solana.verify this env p r) = Ok v /\
     (v = invalid unexpected_error None \/
      v = invalid invalid_payload None \/
      exists tx who,
        payload p = SolanaBody tx /\
        Spec.resolves_payer env tx who /\
        (v = invalid unsupported_network (Some who) \/
         v = invalid insufficient_funds (Some who) \/
         v = valid who)))
  /\
  (snd (Solana.verify this env p r) = [] \/
   exists ata, snd (Solana.verify this env p r) = [GetAccount ata])
  /\
  (forall r',
     maxAmountRequired r' = maxAmountRequired r ->
     Solana.verify this env p r' = Solana.verify this env p r).
Proof.
  split; [|split].
  - destruct (payload p) as [sig a|tx] eqn:Hbody.
    { rewrite (wrong_shape_solana this env p r sig a Hbody).
      eexists; split; [reflexivity | now left]. }
    destruct (solana_verify_decision this env p r tx Hbody)
      as [(_ & E) | [(_ & E) | (who & Hp & [(_ & E) | (mint & Hm &
           [(_ & E) | (ata & Ha & E)])])]];
      rewrite E; try rewrite check_balance_cases;
      (eexists; split; [reflexivity|]); auto.
    + right; right; exists tx, who; auto.
    + right; right; exists tx, who; split; [reflexivity|].
      split; [exact Hp|]; right.
      destruct (getAccount env ata); [|now left].
      destruct (BigInt (maxAmountRequired r)); [|now left].
      destruct (_ <? _); [now left | now right].
  - destruct (payload p) as [sig a|tx] eqn:Hbody.
    { left; now rewrite (wrong_shape_solana this env p r sig a Hbody). }
    destruct (solana_verify_decision this env p r tx Hbody)
      as [(_ & E) | [(_ & E) | (who & Hp & [(_ & E) | (mint & Hm &
           [(_ & E) | (ata & Ha & E)])])]];
      rewrite E; try (left; reflexivity).
    right; exists ata; now rewrite check_balance_cases.
  - intros r' Hsame.
    unfold Solana.verify, Solana.verify_steps, Solana.check_balance.
    rewrite Hsame; reflexivity.
Qed.

Lemma solana_verify_answer_shape_witness :
  Solana.verify (Fixtures.solana None) Fixtures.sunny
    (Fixtures.solanaPayload "solana")
    (Fixtures.requirements "bitcoin" "not-the-mint" Fixtures.listed) =
  Solana.verify (Fixtures.solana None) Fixtures.sunny
    (Fixtures.solanaPayload "solana")
    (Fixtures.requirements "solana" Solana.mainnet_mint None).
Proof.
  destruct (solana_verify_answer_shape (Fixtures.solana None) Fixtures.sunny
              (Fixtures.solanaPayload "solana")
              (Fixtures.requirements "solana" Solana.mainnet_mint None))
    as (_ & _ & H).
  apply H; reflexivity.
Defined.

(** The local verdicts of the Solana backend, given before any chain
    interaction: a transaction that decodes without payer (a legacy
    transaction with no fee payer) is [invalid_payload]; a decoded payer on
    a network outside the mint table (and not the name of a member the
    table inherits as an object) is [unsupported_network], with the
    payer; and when the payer's token account address cannot be derived
    the answer is [unexpected_error]. *)
Theorem solana_verify_local_verdicts (this : Solana.SolanaFacilitator)
    (env : Env) (p : PaymentPayload) (r : PaymentRequirements) (tx : string) :
  payload p = SolanaBody tx ->
  (forall ltx,
     (exists e, deserialize env tx = Throw e) ->
     transactionFrom env tx = Ok ltx ->
     feePayer ltx = None ->
     Solana.verify this env p r = (Ok (invalid invalid_payload None), []))
  /\
  (forall who,
     Spec.resolves_payer env tx who ->
     ~ In (network p) Solana.getSupportedNetworks ->
     Derived.inherited_key (network p) = false ->
     Solana.verify this env p r =
     (Ok (invalid unsupported_network (Some who)), []))
  /\
  (forall who mint e,
     Spec.resolves_payer env tx who ->
     Solana.USDC_MINTS (network p) = Some mint ->
     getAssociatedTokenAddress env mint who = Throw e ->
     Solana.verify this env p r = (Ok (invalid unexpected_error None), [])).
Proof.
  intros Hbody; split; [|split].
  - intros ltx [e Ed] El Ef.
    assert (E : Solana.decode_payer env tx = (Ok EmptyString, [])).
    { unfold Solana.decode_payer.
      rewrite Ed, bind_lift_Throw.
      rewrite (try_catch_Throw _ e) by reflexivity.
      rewrite El, bind_lift_Ok, Ef; reflexivity. }
    unfold Solana.verify.
    rewrite (solana_steps_unfold this env p r tx Hbody), E, bind_Ok_nil.
    reflexivity.
  - intros who Hp Hnot _.
    assert (Ht : truthy who = true) by apply Hp.
    assert (Em : Solana.USDC_MINTS (network p) = None).
    { destruct (Solana.USDC_MINTS (network p)) as [mint|] eqn:Em;
        [|reflexivity].
      exfalso; exact (Hnot (mint_supported _ _ Em)). }
    unfold Solana.verify.
    rewrite (solana_steps_unfold this env p r tx Hbody),
      (decode_payer_resolved env tx who Hp), bind_Ok_nil, Ht, Em.
    reflexivity.
  - intros who mint e Hp Hm Ha.
    assert (Ht : truthy who = true) by apply Hp.
    unfold Solana.verify.
    rewrite (solana_steps_unfold this env p r tx Hbody),
      (decode_payer_resolved env tx who Hp), bind_Ok_nil, Ht, Hm.
    cbn [negb]; rewrite Ha; reflexivity.
Qed.

Lemma solana_verify_local_verdicts_witness :
  Solana.verify (Fixtures.solana None) Fixtures.sunny
    (Fixtures.solanaPayload "solana-testnet")
    (Fixtures.requirements "solana-testnet" Solana.mainnet_mint None) =
  (Ok (invalid unsupported_network (Some "PayerPubkey")), []).
Proof.
  destruct (solana_verify_local_verdicts (Fixtures.solana None)
              Fixtures.sunny (Fixtures.solanaPayload "solana-testnet")
              (Fixtures.requirements "solana-testnet" Solana.mainnet_mint
                                     None)
              "AQABsigned" eq_refl) as (_ & H & _).
  apply (H "PayerPubkey").
  - split; [reflexivity|]. left.
    exists Fixtures.versionedTx, ["MerchantPubkey"]; split; reflexivity.
  - simpl; intros H0.
    repeat (destruct H0 as [H0 | H0]; [discriminate H0|]); exact H0.
  - reflexivity.
Defined.

(* ===================================================================== *)
(** ** The Solana backend: the broadcast and its faults *)
(* ===================================================================== *)

(** The broadcast, seen from the answers of the decoders and the node. *)
Lemma broadcast_cases (this : Solana.SolanaFacilitator) (env : Env)
    (tx : string) :
  let signers :=
    match Solana.keypair this with Some kp => [kp] | None => [] end in
  let funded (ltx : Transaction) :=
    match Solana.keypair this, feePayer ltx with
    | Some kp, None =>
        {| feePayer := Some (publicKey kp); l_wire := l_wire ltx |}
    | _, _ => ltx
    end in
  let fallback (prior : list Event) : M string :=
    match transactionFrom env tx with
    | Throw e => (Throw e, prior)
    | Ok ltx =>
        (sendAndConfirmTransaction env (funded ltx) signers,
         (prior ++ [SendAndConfirmTransaction (funded ltx) signers])%list)
    end in
  Solana.broadcast this env tx =
  match deserialize env tx with
  | Throw _ => fallback []
  | Ok vtx =>
      match sendTransaction env vtx with
      | Ok sig => (Ok sig, [SendTransaction vtx])
      | Throw _ => fallback [SendTransaction vtx]
      end
  end.
Proof.
  intros signers funded fallback; unfold Solana.broadcast.
  destruct (deserialize env tx) as [vtx|e].
  - rewrite bind_lift_Ok.
    destruct (sendTransaction env vtx) as [sig|e]; [reflexivity|].
    rewrite (try_catch_Throw _ e) by reflexivity.
    unfold fallback.
    destruct (transactionFrom env tx) as [ltx|e']; [|reflexivity].
    rewrite bind_lift_Ok; reflexivity.
  - rewrite bind_lift_Throw.
    rewrite (try_catch_Throw _ e) by reflexivity.
    unfold fallback.
    destruct (transactionFrom env tx) as [ltx|e']; [|reflexivity].
    rewrite bind_lift_Ok; reflexivity.
Qed.

Lemma broadcast_submissions (this : Solana.SolanaFacilitator) (env : Env)
    (tx : string) :
  (Derived.submissions (snd (Solana.broadcast this env tx)) <= 2)%nat /\
  (forall sig, fst (Solana.broadcast this env tx) = Ok sig ->
     (1 <= Derived.submissions (snd (Solana.broadcast this env tx)))%nat).
Proof.
  rewrite broadcast_cases; cbv zeta.
  destruct (deserialize env tx) as [vtx|e];
    [destruct (sendTransaction env vtx) as [sig|e]|];
    try destruct (transactionFrom env tx) as [ltx|e'];
    unfold Derived.submissions; simpl; split;
    try lia; try (intros; lia); intros sig0 H; discriminate H.
Qed.

Lemma solana_valid_inversion (this : Solana.SolanaFacilitator) (env : Env)
    (p : PaymentPayload) (r : PaymentRequirements) (v : VerifyResponse) :
  fst (Solana.verify this env p r) = Ok v ->
  isValid v = true ->
  exists tx who,
    payload p = SolanaBody tx /\
    Spec.resolves_payer env tx who /\
    v = valid who.
Proof.
  intros Hrun Hvalid.
  destruct (payload p) as [sig a|tx] eqn:Hbody.
  { rewrite (wrong_shape_solana this env p r sig a Hbody) in Hrun.
    injection Hrun as <-; discriminate. }
  destruct (solana_verify_decision this env p r tx Hbody)
    as [(_ & E) | [(_ & E) | (who & Hp & [(_ & E) | (mint & Hm &
         [(_ & E) | (ata & Ha & E)])])]];
    rewrite E in Hrun; try (injection Hrun as <-; discriminate).
  rewrite check_balance_cases in Hrun; injection Hrun as <-.
  exists tx, who; split; [reflexivity|]; split; [exact Hp|].
  destruct (getAccount env ata); [|discriminate].
  destruct (BigInt (maxAmountRequired r)); [|discriminate].
  destruct (_ <? _); [discriminate | reflexivity].
Qed.

Lemma solana_invalid_has_reason (this : Solana.SolanaFacilitator) (env : Env)
    (p : PaymentPayload) (r : PaymentRequirements) (v : VerifyResponse) :
  fst (Solana.verify this env p r) = Ok v ->
  isValid v = false ->
  exists reason, invalidReason v = Some reason.
Proof.
  intros Hrun Hinvalid.
  destruct (payload p) as [sig a|tx] eqn:Hbody.
  { rewrite (wrong_shape_solana this env p r sig a Hbody) in Hrun.
    injection Hrun as <-; eexists; reflexivity. }
  destruct (solana_verify_decision this env p r tx Hbody)
    as [(_ & E) | [(_ & E) | (who & Hp & [(_ & E) | (mint & Hm &
         [(_ & E) | (ata & Ha & E)])])]];
    rewrite E in Hrun; try (injection Hrun as <-; eexists; reflexivity).
  rewrite check_balance_cases in Hrun; injection Hrun as <-.
  destruct (getAccount env ata); [|eexists; reflexivity].
  destruct (BigInt (maxAmountRequired r)); [|eexists; reflexivity].
  destruct (_ <? _); [eexists; reflexivity | discriminate].
Qed.

Section SolanaSettleFaults.

Variable this : Solana.SolanaFacilitator.
Variable env : Env.
Variable p : PaymentPayload.
Variable r : PaymentRequirements.
Variable tx : string.
Variable v : VerifyResponse.
Hypothesis Hbody : payload p = SolanaBody tx.
Hypothesis Hverify : fst (Solana.verify this env p r) = Ok v.
Hypothesis Hvalid : isValid v = true.

(** The whole of [settle] once the verification has passed. *)
Lemma solana_settle_after_valid :
  let reads := snd (Solana.verify this env p r) in
  let sent := snd (Solana.broadcast this env tx) in
  let failed := settle_failure (Some settlement_failed) None (network p) None in
  Solana.settle this env p r =
  match fst (Solana.broadcast this env tx) with
  | Throw _ => (Ok failed, (reads ++ sent)%list)
  | Ok sig =>
      (Ok (match confirmTransaction env sig with
           | Throw _ => failed
           | Ok (Some _) =>
               settle_failure (Some settlement_failed) (Some sig)
                              (network p) (payer v)
           | Ok None => settle_success sig (network p) (payer v)
           end),
       (reads ++ sent ++ [ConfirmTransaction sig])%list)
  end.
Proof.
  intros reads sent failed.
  unfold Solana.settle, Solana.settle_steps, try_catch.
  rewrite (bind_Ok _ v _ Hverify), Hvalid; cbn [negb fst snd].
  unfold Solana.solana_body; rewrite Hbody, bind_lift_Ok.
  fold reads.
  destruct (Solana.broadcast this env tx) as [[sig|e] tb] eqn:Eb;
    subst sent; cbn [fst snd].
  - rewrite (bind_Ok _ sig) by reflexivity; cbn [fst snd].
    destruct (confirmTransaction env sig) as [[err|]|e];
      cbn; rewrite ?app_nil_r; reflexivity.
  - rewrite (bind_Throw _ e) by reflexivity; cbn.
    rewrite ?app_nil_r; reflexivity.
Qed.

End SolanaSettleFaults.

(** When the node refuses the versioned broadcast and the same bytes
    decode as a legacy transaction, [settle] submits a second time: the
    legacy transaction, with the facilitator's key as fee payer if it has
    none and a keypair is configured, and with the keypair as signer.  The
    answer follows the confirmation of that second submission. *)
Theorem solana_settle_submits_twice
    (this : Solana.SolanaFacilitator) (env : Env) (p : PaymentPayload)
    (r : PaymentRequirements) (tx sig : string) (v : VerifyResponse)
    (vtx : VersionedTransaction) (ltx : Transaction) (e : JsError)
    (c : option string) :
  payload p = SolanaBody tx ->
  fst (Solana.verify this env p r) = Ok v ->
  isValid v = true ->
  deserialize env tx = Ok vtx ->
  sendTransaction env vtx = Throw e ->
  transactionFrom env tx = Ok ltx ->
  let signers :=
    match Solana.keypair this with Some kp => [kp] | None => [] end in
  let funded :=
    match Solana.keypair this, feePayer ltx with
    | Some kp, None =>
        {| feePayer := Some (publicKey kp); l_wire := l_wire ltx |}
    | _, _ => ltx
    end in
  sendAndConfirmTransaction env funded signers = Ok sig ->
  confirmTransaction env sig = Ok c ->
  Solana.settle this env p r =
  (Ok (match c with
       | Some _ => settle_failure (Some settlement_failed) (Some sig)
                                  (network p) (payer v)
       | None => settle_success sig (network p) (payer v)
       end),
   (snd (Solana.verify this env p r) ++
    [SendTransaction vtx; SendAndConfirmTransaction funded signers;
     ConfirmTransaction sig])%list).
Proof.
  intros Hbody Hverify Hvalid Ed Es El signers funded Hsac Hc.
  rewrite (solana_settle_after_valid this env p r tx v Hbody Hverify Hvalid).
  cbv zeta; rewrite broadcast_cases; cbv zeta.
  rewrite Ed, Es, El; fold signers funded; cbn [fst snd].
  rewrite Hsac, Hc; destruct c; reflexivity.
Qed.

Lemma solana_settle_submits_twice_witness :
  Solana.settle (Fixtures.solana (Some Fixtures.funder)) Fixtures.send_refused
    (Fixtures.solanaPayload "solana")
    (Fixtures.requirements "solana" Solana.mainnet_mint None) =
  (Ok (settle_success "5igSent" "solana" (Some "PayerPubkey")),
   [GetAccount "PayerTokenAccount";
    SendTransaction Fixtures.versionedTx;
    SendAndConfirmTransaction
      {| feePayer := Some "FacilitatorPubkey"; l_wire := "AQAB" |}
      [Fixtures.funder];
    ConfirmTransaction "5igSent"]).
Proof.
  exact (solana_settle_submits_twice
           (Fixtures.solana (Some Fixtures.funder)) Fixtures.send_refused
           (Fixtures.solanaPayload "solana")
           (Fixtures.requirements "solana" Solana.mainnet_mint None)
           "AQABsigned" "5igSent" (valid "PayerPubkey")
           Fixtures.versionedTx Fixtures.payerlessTx RpcError None
           eq_refl eq_refl eq_refl eq_refl eq_refl eq_refl eq_refl eq_refl).
Defined.

(** A fault after the verification passed is answered
    [settlement_failed] with neither transaction id nor payer: when the
    broadcast was accepted and the confirmation call throws, the
    transaction was submitted and its signature is not reported; when the
    node refuses the versioned broadcast and the bytes do not decode as a
    legacy transaction, the refused attempt is all that was done. *)
Theorem solana_settle_fault_loses_signature
    (this : Solana.SolanaFacilitator) (env : Env) (p : PaymentPayload)
    (r : PaymentRequirements) (tx : string) (v : VerifyResponse)
    (vtx : VersionedTransaction) :
  payload p = SolanaBody tx ->
  fst (Solana.verify this env p r) = Ok v ->
  isValid v = true ->
  deserialize env tx = Ok vtx ->
  let failed := settle_failure (Some settlement_failed) None (network p) None in
  let reads := snd (Solana.verify this env p r) in
  (forall sig e,
     sendTransaction env vtx = Ok sig ->
     confirmTransaction env sig = Throw e ->
     Solana.settle this env p r =
     (Ok failed,
      (reads ++ [SendTransaction vtx; ConfirmTransaction sig])%list))
  /\
  (forall e e',
     sendTransaction env vtx = Throw e ->
     transactionFrom env tx = Throw e' ->
     Solana.settle this env p r =
     (Ok failed, (reads ++ [SendTransaction vtx])%list)).
Proof.
  intros Hbody Hverify Hvalid Ed failed reads.
  pose proof (solana_settle_after_valid this env p r tx v Hbody Hverify
                Hvalid) as H.
  cbv zeta in H; rewrite broadcast_cases in H; cbv zeta in H.
  rewrite Ed in H; split.
  - intros sig e Es Ec; rewrite H, Es; cbn [fst snd]; rewrite Ec.
    reflexivity.
  - intros e e' Es El; rewrite H, Es, El; reflexivity.
Qed.

Lemma solana_settle_fault_loses_signature_witness :
  Solana.settle (Fixtures.solana None) Scenarios.lost_after_submit
    (Fixtures.solanaPayload "solana")
    (Fixtures.requirements "solana" Solana.mainnet_mint None) =
  (Ok (settle_failure (Some settlement_failed) None "solana" None),
   [GetAccount "PayerTokenAccount";
    SendTransaction Fixtures.versionedTx;
    ConfirmTransaction "5igSent"]).
Proof.
  destruct (solana_settle_fault_loses_signature (Fixtures.solana None)
              Scenarios.lost_after_submit (Fixtures.solanaPayload "solana")
              (Fixtures.requirements "solana" Solana.mainnet_mint None)
              "AQABsigned" (valid "PayerPubkey") Fixtures.versionedTx
              eq_refl eq_refl eq_refl eq_refl) as [H _].
  apply (H "5igSent" RpcError); reflexivity.
Defined.

Lemma solana_settle_summary (this : Solana.SolanaFacilitator)
    (env : Env) (p : PaymentPayload) (r : PaymentRequirements) :
  exists s,
    fst (Solana.settle this env p r) = Ok s /\
    (Derived.submissions (snd (Solana.settle this env p r)) <= 2)%nat /\
    (success s = true ->
     (exists sig, transaction s = Some sig) /\
     (exists who, settle_payer s = Some who) /\
     errorReason s = None /\
     (1 <= Derived.submissions (snd (Solana.settle this env p r)))%nat) /\
    (success s = false -> exists reason, errorReason s = Some reason).
Proof.
  destruct (solana_verify_total this env p r) as [v Hv].
  pose proof (read_only_no_submission _ (solana_verify_reads this env p r))
    as Hreads.
  destruct (isValid v) eqn:Hvalid.
  - destruct (solana_valid_inversion this env p r v Hv Hvalid)
      as (tx & who & Hbody & _ & ->).
    rewrite (solana_settle_after_valid this env p r tx (valid who)
               Hbody Hv Hvalid); cbv zeta.
    destruct (broadcast_submissions this env tx) as [Hle Hge].
    destruct (fst (Solana.broadcast this env tx)) as [sig|e] eqn:Eb.
    + specialize (Hge sig eq_refl).
      eexists; split; [reflexivity|]; cbn [snd].
      rewrite !submissions_app, Hreads.
      replace (Derived.submissions [ConfirmTransaction sig]) with 0%nat
        by reflexivity.
      split; [lia|].
      destruct (confirmTransaction env sig) as [[err|]|e']; split;
        try discriminate; try (intros _; eexists; reflexivity).
      intros _; split; [eexists; reflexivity|].
      split; [eexists; reflexivity|]; split; [reflexivity | lia].
    + eexists; split; [reflexivity|]; cbn [snd].
      rewrite submissions_app, Hreads.
      split; [lia|]; split; [discriminate|].
      intros _; eexists; reflexivity.
  - assert (E : Solana.settle this env p r =
                (Ok (settle_failure (invalidReason v) None (network p)
                                    (payer v)),
                 snd (Solana.verify this env p r))).
    { unfold Solana.settle, Solana.settle_steps, try_catch.
      rewrite (bind_Ok _ v _ Hv), Hvalid; cbn.
      now rewrite app_nil_r. }
    rewrite E; eexists; split; [reflexivity|]; cbn [snd]; rewrite Hreads.
    split; [lia|]; split; [discriminate|].
    intros _; exact (solana_invalid_has_reason this env p r v Hv Hvalid).
Qed.

(** [settle] on the Solana backend always answers, submits at most two
    transactions, and its answer is consistent: [success: true] comes
    with a transaction id, the payer, no error reason and at least one
    submission; [success: false] comes with an error reason. *)
Theorem solana_settle_answer_shape (this : Solana.SolanaFacilitator)
    (env : Env) (p : PaymentPayload) (r : PaymentRequirements) :
  exists s,
    fst (Solana.settle this env p r) = Ok s /\
    (Derived.submissions (snd (Solana.settle this env p r)) <= 2)%nat /\
    (success s = true ->
     (exists sig, transaction s = Some sig) /\
     (exists who, settle_payer s = Some who) /\
     errorReason s = None /\
     (1 <= Derived.submissions (snd (Solana.settle this env p r)))%nat) /\
    (success s = false -> exists reason, errorReason s = Some reason).
Proof. exact (solana_settle_summary this env p r). Qed.

(* ===================================================================== *)
(** ** The registry: lookup, removal, repeated cataloging, statistics *)
(* ===================================================================== *)

Section RegistryMore.

Implicit Types (reg : Discovery.Registry) (k : string)
  (v : Discovery.DiscoveredResource).

Lemma get_Some_key reg k v :
  Discovery.get reg k = Some v -> In k (map fst reg).
Proof.
  intros H; apply get_In in H.
  apply in_map_iff; exists (k, v); split; [reflexivity | exact H].
Qed.

Lemma get_present reg k :
  In k (map fst reg) -> exists v, Discovery.get reg k = Some v.
Proof.
  intros H.
  destruct (Discovery.get reg k) as [v|] eqn:E; [now exists v|].
  exfalso; exact (get_None _ _ E H).
Qed.

(** Storing again what is stored changes nothing. *)
Lemma set_same reg k v : Discovery.get reg k = Some v ->
                         Discovery.set reg k v = reg.
Proof.
  induction reg as [|[k0 v0] rest IH]; simpl; [discriminate|].
  destruct (String.eqb_spec k0 k) as [->|Hne].
  - now intros [= ->].
  - intros H; f_equal; auto.
Qed.

Lemma remove_spec reg k :
  NoDup (map fst reg) ->
  fst (Discovery.removeResource reg k) =
    (if in_dec string_dec k (map fst reg) then true else false) /\
  map fst (snd (Discovery.removeResource reg k)) =
    filter (fun k0 => negb (k0 =? k)%string) (map fst reg) /\
  Discovery.get (snd (Discovery.removeResource reg k)) k = None /\
  (forall k', k' <> k ->
     Discovery.get (snd (Discovery.removeResource reg k)) k' =
     Discovery.get reg k').
Proof.
  induction reg as [|[k0 v0] rest IH]; intros Hnd.
  - simpl; repeat split; reflexivity.
  - simpl in Hnd; inversion Hnd as [|? ? Hnotin Hrest]; subst.
    destruct (IH Hrest) as (Hf & Hk & Hg & Ho).
    simpl Discovery.removeResource.
    destruct (String.eqb_spec k0 k) as [->|Hne].
    + simpl; repeat split.
      * destruct (string_dec k k); [|contradiction].
        reflexivity.
      * rewrite String.eqb_refl; simpl; symmetry.
        apply forallb_filter_id, forallb_forall; intros x Hx.
        apply negb_true_iff, String.eqb_neq; intros ->; contradiction.
      * destruct (Discovery.get rest k) eqn:E; [|reflexivity].
        exfalso; exact (Hnotin (get_Some_key _ _ _ E)).
      * intros k' Hk'.
        assert (E : (k =? k')%string = false)
          by (apply String.eqb_neq; congruence).
        now rewrite E.
    + destruct (Discovery.removeResource rest k) as [found rest'] eqn:Er.
      simpl in *; repeat split.
      * rewrite Hf.
        destruct (string_dec k0 k); [contradiction|].
        destruct (in_dec string_dec k (map fst rest)); reflexivity.
      * apply String.eqb_neq in Hne; rewrite Hne; simpl; now rewrite Hk.
      * apply String.eqb_neq in Hne; rewrite Hne; exact Hg.
      * intros k' Hk'.
        destruct (k0 =? k')%string; [reflexivity | now apply Ho].
Qed.

End RegistryMore.

(** [removeResource] deletes: it answers [true] exactly when the URL had
    an entry; afterwards the URL has none, every other URL has the entry it
    had, the order of the remaining entries is kept, and a removal that
    answers [false] changed nothing. *)
Theorem remove_resource_deletes (reg : Discovery.Registry) (url : string) :
  NoDup (map fst reg) ->
  let answer := fst (Discovery.removeResource reg url) in
  let after := snd (Discovery.removeResource reg url) in
  (answer = true <-> exists e, Discovery.getResource reg url = Some e) /\
  Discovery.getResource after url = None /\
  (forall other, other <> url ->
     Discovery.getResource after other = Discovery.getResource reg other) /\
  map fst after =
    filter (fun k => negb (k =? url)%string) (map fst reg) /\
  (answer = false -> after = reg).
Proof.
  intros Hnd answer after.
  destruct (remove_spec reg url Hnd) as (Hf & Hk & Hg & Ho).
  unfold Discovery.getResource.
  split; [|split; [exact Hg | split; [exact Ho | split; [exact Hk|]]]].
  - unfold answer; rewrite Hf.
    destruct (in_dec string_dec url (map fst reg)) as [Hin|Hout]; split.
    + intros _; exact (get_present _ _ Hin).
    + reflexivity.
    + discriminate.
    + intros [e He]; exfalso; exact (Hout (get_Some_key _ _ _ He)).
  - unfold answer, after; clear.
    induction reg as [|[k0 v0] rest IH]; simpl; [reflexivity|].
    destruct (k0 =? url)%string; [discriminate|].
    destruct (Discovery.removeResource rest url) as [found rest'].
    simpl in *; intros H; now rewrite (IH H).
Qed.

Lemma remove_resource_deletes_witness :
  Discovery.getResource
    (snd (Discovery.removeResource Fixtures.three "https://b.example/2"))
    "https://b.example/2" = None /\
  map fst
    (snd (Discovery.removeResource Fixtures.three "https://b.example/2")) =
  ["https://a.example/1"; "https://c.example/3"].
Proof.
  destruct (remove_resource_deletes Fixtures.three "https://b.example/2")
    as (_ & Hnone & _ & Hkeys & _).
  - simpl; repeat constructor; simpl; intuition discriminate.
  - split; [exact Hnone | rewrite Hkeys; reflexivity].
Defined.

Section CatalogMore.

Variable env : Env.
Variable reg : Discovery.Registry.
Variable version : Z.
Variable r : PaymentRequirements.
Variable ext : BazaarExtension.
Hypothesis Hlisted : bazaar r = Some ext.

(** The entry a catalog call leaves under the resource's URL. *)
Lemma catalog_entry :
  exists res,
    Discovery.extractDiscoveryInfo env version r = Some res /\
    Discovery.catalogFromPayment env reg version r =
      Discovery.set reg (Types.resource r)
        (match Discovery.get reg (Types.resource r) with
         | Some existing => Discovery.merge existing res
         | None => res
         end).
Proof.
  destruct (extract_listed env version r ext Hlisted) as [res E].
  exists res; split; [exact E|].
  destruct (extract_shape _ _ _ _ E) as (Hr & _).
  unfold Discovery.catalogFromPayment, Discovery.registerResource.
  rewrite E, Hr.
  destruct (Discovery.get reg (Types.resource r)); reflexivity.
Qed.

Lemma merged_accepts (existing res : Discovery.DiscoveredResource) :
  Discovery.accepts res = [Spec.accept_of r] ->
  Discovery.accepts (Discovery.merge existing res) =
  if Discovery.has (map Discovery.accept_key (Discovery.accepts existing))
                   (Discovery.accept_key (Spec.accept_of r))
  then Discovery.accepts existing
  else (Discovery.accepts existing ++ [Spec.accept_of r])%list.
Proof.
  intros Ha; simpl; rewrite push_new_filter, Ha; simpl.
  destruct (Discovery.has _ _); simpl; [apply app_nil_r | reflexivity].
Qed.

End CatalogMore.

(** After a catalog call for requirements that carry the extension, the
    resource can be looked up: its entry offers the requirements'
    [network:asset] key, is stamped with the clock of the call and has at
    least the call's protocol version; a resource that had no entry gets
    one of type 'http' with this single offer; the entries of the other
    URLs are the ones that were there. *)
Theorem catalog_then_lookup (env : Env) (reg : Discovery.Registry)
    (version : Z) (r : PaymentRequirements) (ext : BazaarExtension) :
  bazaar r = Some ext ->
  let after := Discovery.catalogFromPayment env reg version r in
  (exists e,
     Discovery.getResource after (Types.resource r) = Some e /\
     In (Discovery.accept_key (Spec.accept_of r))
        (map Discovery.accept_key (Discovery.accepts e)) /\
     Discovery.lastUpdated e = dateNow env /\
     version <= Discovery.x402Version e /\
     (Discovery.getResource reg (Types.resource r) = None ->
      Discovery.resource e = Types.resource r /\
      Discovery.accepts e = [Spec.accept_of r] /\
      Discovery.x402Version e = version /\
      Discovery.type e = "http"))
  /\
  (forall other, other <> Types.resource r ->
     Discovery.getResource after other = Discovery.getResource reg other).
Proof.
  intros Hlisted after; unfold Discovery.getResource.
  destruct (catalog_entry env reg version r ext Hlisted) as (res & E & Eafter).
  destruct (extract_shape _ _ _ _ E) as (Hr & Ht & Hv & Ha & Hl).
  unfold after; rewrite Eafter; split.
  - eexists; split; [apply get_set_same|].
    destruct (Discovery.get reg (Types.resource r)) as [ex|] eqn:Eg.
    + split.
      * rewrite (merged_accepts r ex res Ha).
        destruct (Discovery.has _ _) eqn:Eh.
        -- now apply has_In.
        -- rewrite map_app; apply in_or_app; right; now left.
      * split; [exact Hl|]; split; [simpl; lia | discriminate].
    + split; [rewrite Ha; now left|].
      split; [exact Hl|]; split; [lia|].
      intros _; repeat split; assumption.
  - intros other Hne; apply get_set_other; exact Hne.
Qed.

Lemma catalog_then_lookup_witness :
  exists e,
    Discovery.getResource
      (Discovery.catalogFromPayment Fixtures.sunny Fixtures.three 2
         Fixtures.on_solana)
      "https://api.example.com/weather" = Some e /\
    Discovery.lastUpdated e = 1700000000500.
Proof.
  destruct (catalog_then_lookup Fixtures.sunny Fixtures.three 2
              Fixtures.on_solana {| info := None; schema := None |} eq_refl)
    as [(e & Hg & _ & Hl & _) _].
  exists e; split; [exact Hg | exact Hl].
Defined.

(** Re-cataloging a resource on a [network:asset] key it already offers
    leaves its offers as they are: the amount and the recipient first
    recorded under that key are kept, whatever the new requirements say. *)
Theorem catalog_keeps_first_offer (env : Env) (reg : Discovery.Registry)
    (version : Z) (r : PaymentRequirements) (ext : BazaarExtension)
    (existing : Discovery.DiscoveredResource) :
  bazaar r = Some ext ->
  Discovery.getResource reg (Types.resource r) = Some existing ->
  In (Discovery.accept_key (Spec.accept_of r))
     (map Discovery.accept_key (Discovery.accepts existing)) ->
  exists e,
    Discovery.getResource (Discovery.catalogFromPayment env reg version r)
      (Types.resource r) = Some e /\
    Discovery.accepts e = Discovery.accepts existing.
Proof.
  unfold Discovery.getResource; intros Hlisted Hg Hin.
  destruct (catalog_entry env reg version r ext Hlisted) as (res & E & ->).
  destruct (extract_shape _ _ _ _ E) as (_ & _ & _ & Ha & _).
  rewrite Hg; eexists; split; [apply get_set_same|].
  rewrite (merged_accepts r existing res Ha).
  apply has_In in Hin; now rewrite Hin.
Qed.

Lemma catalog_keeps_first_offer_witness :
  exists e,
    Discovery.getResource
      (Discovery.catalogFromPayment Fixtures.sunny
         (Discovery.catalogFromPayment Fixtures.sunny [] 1 Fixtures.on_base)
         1 Scenarios.dearer)
      "https://api.example.com/weather" = Some e /\
    map Discovery.a_amount (Discovery.accepts e) = ["10000"].
Proof.
  destruct (catalog_keeps_first_offer Fixtures.sunny
              (Discovery.catalogFromPayment Fixtures.sunny [] 1
                 Fixtures.on_base)
              1 Scenarios.dearer {| info := None; schema := None |}
              (snd (hd (EmptyString, Fixtures.entry EmptyString 0)
                      (Discovery.catalogFromPayment Fixtures.sunny [] 1
                         Fixtures.on_base)))
              eq_refl eq_refl) as (e & Hg & Ha).
  - simpl; now left.
  - exists e; split; [exact Hg | rewrite Ha; reflexivity].
Defined.

Lemma or_field_absorbs {A} (x y : option A) :
  Discovery.or_field x (Discovery.or_field x y) = Discovery.or_field x y.
Proof. destruct x; reflexivity. Qed.

Lemma spread_twice (older : option Discovery.Metadata)
    (newer : Discovery.Metadata) :
  Discovery.spread (Some (Discovery.spread older newer)) newer =
  Discovery.spread older newer.
Proof.
  destruct older as [o|]; simpl.
  - now rewrite !or_field_absorbs.
  - destruct newer as [d i s o s']; simpl.
    destruct d, i, s, o, s'; reflexivity.
Qed.

(** Cataloging is idempotent: the same call made twice, the clock not
    having moved, leaves the registry the first call left. *)
Theorem catalog_idempotent (env : Env) (reg : Discovery.Registry)
    (version : Z) (r : PaymentRequirements) :
  let once := Discovery.catalogFromPayment env reg version r in
  Discovery.catalogFromPayment env once version r = once.
Proof.
  intros once.
  destruct (bazaar r) as [ext|] eqn:Hlisted.
  2:{ unfold once.
      now rewrite !(catalog_without_extension env _ version r Hlisted). }
  destruct (catalog_entry env reg version r ext Hlisted) as (res & E & E1).
  destruct (catalog_entry env once version r ext Hlisted) as (res' & E' & E2).
  rewrite E in E'; injection E' as <-.
  destruct (extract_shape _ _ _ _ E) as (_ & _ & _ & Ha & _).
  rewrite E2.
  set (e1 := match Discovery.get reg (Types.resource r) with
             | Some existing => Discovery.merge existing res
             | None => res
             end) in *.
  assert (Hget : Discovery.get once (Types.resource r) = Some e1)
    by (unfold once; rewrite E1; apply get_set_same).
  rewrite Hget.
  assert (Hkey : Discovery.has
                   (map Discovery.accept_key (Discovery.accepts e1))
                   (Discovery.accept_key (Spec.accept_of r)) = true).
  { apply has_In; unfold e1.
    destruct (Discovery.get reg (Types.resource r)) as [ex|].
    - rewrite (merged_accepts r ex res Ha).
      destruct (Discovery.has _ _) eqn:Eh; [now apply has_In|].
      rewrite map_app; apply in_or_app; right; now left.
    - rewrite Ha; now left. }
  assert (Hsame : Discovery.merge e1 res = e1).
  { assert (Hacc : Discovery.accepts (Discovery.merge e1 res) =
                   Discovery.accepts e1)
      by (rewrite (merged_accepts r e1 res Ha), Hkey; reflexivity).
    assert (Hparts :
      Discovery.x402Version e1 =
        Z.max (Discovery.x402Version e1) (Discovery.x402Version res) /\
      Discovery.lastUpdated e1 = Discovery.lastUpdated res /\
      Discovery.metadata e1 =
        match Discovery.metadata res with
        | Some m => Some (Discovery.spread (Discovery.metadata e1) m)
        | None => Discovery.metadata e1
        end).
    { unfold e1.
      destruct (Discovery.get reg (Types.resource r)) as [ex|]; simpl.
      - split; [lia|]; split; [reflexivity|].
        destruct (Discovery.metadata res) as [m|]; [|reflexivity].
        now rewrite spread_twice.
      - split; [lia|]; split; [reflexivity|].
        destruct (Discovery.metadata res) as [m|]; [|reflexivity].
        f_equal; destruct m as [d i s o s']; simpl.
        destruct d, i, s, o, s'; reflexivity. }
    destruct Hparts as (Hv & Hl & Hm).
    destruct e1 as [u t v a l m]; unfold Discovery.merge in *; simpl in *.
    rewrite <- Hv, <- Hl, <- Hm.
    f_equal; exact Hacc. }
  rewrite Hsame.
  apply set_same; exact Hget.
Qed.

Lemma prefix_of_refl {A} (l : list A) : Derived.prefix_of l l.
Proof. exists []; now rewrite app_nil_r. Qed.

Lemma prefix_of_trans {A} (a b c : list A) :
  Derived.prefix_of a b -> Derived.prefix_of b c -> Derived.prefix_of a c.
Proof.
  intros [x ->] [y ->]; exists (x ++ y)%list; now rewrite app_assoc.
Qed.

(** One catalog call forgets nothing. *)
Lemma catalog_step_keeps (env : Env) (reg : Discovery.Registry) (version : Z)
    (r : PaymentRequirements) :
  let after := Discovery.catalogFromPayment env reg version r in
  Derived.prefix_of (map fst reg) (map fst after) /\
  (forall url e,
     Discovery.get reg url = Some e ->
     exists e',
       Discovery.get after url = Some e' /\
       Derived.prefix_of (Discovery.accepts e) (Discovery.accepts e') /\
       Discovery.x402Version e <= Discovery.x402Version e' /\
       Discovery.resource e' = Discovery.resource e /\
       Discovery.type e' = Discovery.type e).
Proof.
  intros after; unfold after.
  destruct (bazaar r) as [ext|] eqn:Hlisted.
  2:{ rewrite (catalog_without_extension env reg version r Hlisted).
      split; [apply prefix_of_refl|].
      intros url e He; exists e; split; [exact He|].
      split; [apply prefix_of_refl|]; split; [lia|]; split; reflexivity. }
  destruct (catalog_entry env reg version r ext Hlisted) as (res & E & ->).
  destruct (Discovery.get reg (Types.resource r)) as [ex|] eqn:Eg; split.
  - rewrite (set_keys_existing _ _ _ ex Eg); apply prefix_of_refl.
  - intros url e He.
    destruct (string_dec url (Types.resource r)) as [->|Hne].
    + rewrite Eg in He; injection He as <-.
      eexists; split; [apply get_set_same|].
      split; [simpl; rewrite push_new_filter; eexists; reflexivity|].
      split; [simpl; lia|]; split; reflexivity.
    + exists e; split; [rewrite get_set_other by exact Hne; exact He|].
      split; [apply prefix_of_refl|]; split; [lia|]; split; reflexivity.
  - rewrite (set_keys_fresh _ _ _ Eg); eexists; reflexivity.
  - intros url e He.
    destruct (string_dec url (Types.resource r)) as [->|Hne];
      [rewrite Eg in He; discriminate|].
    exists e; split; [rewrite get_set_other by exact Hne; exact He|].
    split; [apply prefix_of_refl|]; split; [lia|]; split; reflexivity.
Qed.

(** Cataloging never forgets: whatever catalog calls follow, the URLs
    registered so far stay registered, in their order, with new ones after
    them; every entry keeps its offers, in their order, with new ones after
    them; and its protocol version never goes down. *)
Theorem catalog_never_forgets (calls : list Spec.CatalogCall)
    (reg : Discovery.Registry) :
  let after := Spec.replay reg calls in
  Derived.prefix_of (map fst reg) (map fst after) /\
  (forall url e,
     Discovery.getResource reg url = Some e ->
     exists e',
       Discovery.getResource after url = Some e' /\
       Derived.prefix_of (Discovery.accepts e) (Discovery.accepts e') /\
       Discovery.x402Version e <= Discovery.x402Version e' /\
       Discovery.resource e' = Discovery.resource e /\
       Discovery.type e' = Discovery.type e).
Proof.
  unfold Discovery.getResource.
  revert reg; induction calls as [|[[env version] r] calls IH];
    intros reg; simpl.
  - split; [apply prefix_of_refl|].
    intros url e He; exists e; split; [exact He|].
    split; [apply prefix_of_refl|]; split; [lia|]; split; reflexivity.
  - destruct (catalog_step_keeps env reg version r) as [Hk He].
    destruct (IH (Discovery.catalogFromPayment env reg version r))
      as [Hk' He'].
    split; [exact (prefix_of_trans _ _ _ Hk Hk')|].
    intros url e Hg.
    destruct (He url e Hg) as (e1 & Hg1 & Ha1 & Hv1 & Hr1 & Ht1).
    destruct (He' url e1 Hg1) as (e2 & Hg2 & Ha2 & Hv2 & Hr2 & Ht2).
    exists e2; split; [exact Hg2|].
    split; [exact (prefix_of_trans _ _ _ Ha1 Ha2)|].
    split; [lia|]; split; congruence.
Qed.

Lemma catalog_never_forgets_witness :
  exists e,
    Discovery.getResource
      (Spec.replay Fixtures.three
         [(Fixtures.sunny, 2, Fixtures.on_solana);
          (Fixtures.sunny, 1, Scenarios.dearer)])
      "https://b.example/2" = Some e /\
    1 <= Discovery.x402Version e.
Proof.
  destruct (catalog_never_forgets
              [(Fixtures.sunny, 2, Fixtures.on_solana);
               (Fixtures.sunny, 1, Scenarios.dearer)] Fixtures.three)
    as [_ H].
  destruct (H "https://b.example/2"
              (Fixtures.entry "https://b.example/2" 3000) eq_refl)
    as (e & Hg & _ & Hv & _).
  exists e; split; [exact Hg | exact Hv].
Defined.

Section Stats.

Lemma add_spec (nets : list string) (n : string) :
  (NoDup nets -> NoDup (Discovery.add nets n)) /\
  (forall x, In x (Discovery.add nets n) <-> In x nets \/ x = n).
Proof.
  unfold Discovery.add.
  destruct (Discovery.has nets n) eqn:Eh.
  - apply has_In in Eh; split; [auto|].
    intros x; split; [auto | intros [H | ->]; assumption].
  - assert (Hout : ~ In n nets).
    { intros Hin; apply has_In in Hin; congruence. }
    split.
    + intros Hnd; apply NoDup_app; [exact Hnd | repeat constructor; auto |].
      intros a Ha [<- | []]; contradiction.
    + intros x; rewrite in_app_iff; simpl; intuition.
Qed.

Lemma stats_inner (accs : list Discovery.Accept) (nets : list string) :
  let out :=
    fold_left (fun nets a => Discovery.add nets (Discovery.a_network a))
              accs nets in
  (NoDup nets -> NoDup out) /\
  (forall x, In x out <->
             In x nets \/ exists a, In a accs /\ Discovery.a_network a = x).
Proof.
  revert nets; induction accs as [|a accs IH]; intros nets; simpl.
  - split; [auto|]; intros x; split; [auto|].
    intros [H | (a & [] & _)]; exact H.
  - destruct (add_spec nets (Discovery.a_network a)) as [Hnd Hin].
    destruct (IH (Discovery.add nets (Discovery.a_network a))) as [Hnd' Hin'].
    split; [auto|].
    intros x; rewrite Hin', Hin; split.
    + intros [[H | ->] | (b & Hb & E)]; auto.
      * right; exists a; auto.
      * right; exists b; auto.
    + intros [H | (b & [<- | Hb] & E)]; auto.
      right; exists b; auto.
Qed.

Lemma stats_outer (vals : list Discovery.DiscoveredResource)
    (nets : list string) :
  let out :=
    fold_left
      (fun nets r =>
         fold_left (fun nets a => Discovery.add nets (Discovery.a_network a))
                   (Discovery.accepts r) nets)
      vals nets in
  (NoDup nets -> NoDup out) /\
  (forall x, In x out <->
             In x nets \/
             exists e a, In e vals /\ In a (Discovery.accepts e) /\
                         Discovery.a_network a = x).
Proof.
  revert nets; induction vals as [|e vals IH]; intros nets; simpl.
  - split; [auto|]; intros x; split; [auto|].
    intros [H | (e & a & [] & _)]; exact H.
  - destruct (stats_inner (Discovery.accepts e) nets) as [Hnd Hin].
    cbv zeta in Hnd, Hin.
    destruct (IH (fold_left
                    (fun nets a => Discovery.add nets (Discovery.a_network a))
                    (Discovery.accepts e) nets)) as [Hnd' Hin'].
    split; [auto|].
    intros x; rewrite Hin', Hin; split.
    + intros [[H | (a & Ha & E)] | (e' & a & He' & Ha & E)]; auto.
      * right; exists e, a; auto.
      * right; exists e', a; auto.
    + intros [H | (e' & a & [<- | He'] & Ha & E)]; auto.
      * left; right; exists a; auto.
      * right; exists e', a; auto.
Qed.

End Stats.

(** [getStats] counts the entries and lists each network some entry
    offers exactly once: a network is listed if and only if some
    registered resource accepts payment on it. *)
Theorem stats_list_offered_networks (reg : Discovery.Registry) :
  fst (Discovery.getStats reg) = Z.of_nat (List.length reg) /\
  NoDup (snd (Discovery.getStats reg)) /\
  (forall n,
     In n (snd (Discovery.getStats reg)) <->
     exists url e a,
       In (url, e) reg /\ In a (Discovery.accepts e) /\
       Discovery.a_network a = n).
Proof.
  unfold Discovery.getStats; simpl.
  destruct (stats_outer (Discovery.values reg) []) as [Hnd Hin].
  split; [reflexivity|]; split; [apply Hnd; constructor|].
  intros n; rewrite Hin; split.
  - intros [[] | (e & a & He & Ha & E)].
    unfold Discovery.values in He.
    apply in_map_iff in He as ([url e'] & <- & Hkv).
    exists url, e', a; auto.
  - intros (url & e & a & Hkv & Ha & E).
    right; exists e, a; split; [|auto].
    unfold Discovery.values; apply in_map_iff.
    exists (url, e); auto.
Qed.

Lemma stats_list_offered_networks_witness :
  In "solana" (snd (Discovery.getStats Scenarios.two_offers)).
Proof.
  destruct (stats_list_offered_networks Scenarios.two_offers) as (_ & _ & H).
  apply H; do 3 eexists.
  split; [vm_compute; left; reflexivity|].
  split; [vm_compute; right; left; reflexivity | reflexivity].
Defined.

Section Pages.

Context {A : Type}.

Lemma window_firstn_skipn (l : list A) (offset limit : Z) :
  0 <= offset ->
  Spec.window l offset limit =
  firstn (Z.to_nat limit) (skipn (Z.to_nat offset) l).
Proof.
  intros Ho; unfold Spec.window.
  rewrite window_from_before by exact Ho.
  now replace (offset - 0) with offset by lia.
Qed.

Lemma firstn_split (l : list A) (a b : nat) :
  (firstn a l ++ firstn b (skipn a l))%list = firstn (a + b) l.
Proof.
  revert l; induction a as [|a IH]; intros l; [reflexivity|].
  destruct l as [|x l]; simpl; [now rewrite firstn_nil|].
  now rewrite IH.
Qed.

End Pages.

(** Pages of a listing tile the sorted sequence: the page at [offset] of
    [l1] items followed by the page at [offset + l1] of [l2] items is the
    page at [offset] of [l1 + l2] items; a page holds
    [min (limit, max (0, total - offset))] items, so it is short only at
    the end and empty from [total] on; and one page from 0 with
    [limit = total] holds every matching entry. *)
Theorem list_pages_tile (reg : Discovery.Registry) (t : string)
    (off l1 l2 : Z) :
  truthy t = true -> 0 <= off -> 0 <= l1 -> 0 <= l2 ->
  let list o l :=
    Discovery.listResources reg
      {| Discovery.q_type := Some t; Discovery.q_limit := Some l;
         Discovery.q_offset := Some o |} in
  let page o l := Discovery.items (list o l) in
  let total := Discovery.total (Discovery.pagination (list off l1)) in
  (page off l1 ++ page (off + l1) l2)%list = page off (l1 + l2) /\
  Z.of_nat (List.length (page off l1)) = Z.min l1 (Z.max 0 (total - off)) /\
  Discovery.total (Discovery.pagination (list (off + l1) l2)) = total /\
  Permutation (page 0 total)
    (filter (fun r => (Discovery.type r =? t)%string)
            (Discovery.values reg)).
Proof.
  intros Ht Ho Hl1 Hl2; cbv zeta.
  unfold Discovery.listResources; simpl; rewrite Ht.
  set (sorted := Discovery.sort_newest _).
  replace (Discovery.slice sorted 0 (Z.of_nat (List.length sorted)))
    with (Discovery.slice sorted 0 (0 + Z.of_nat (List.length sorted)))
    by reflexivity.
  rewrite !slice_window by lia.
  rewrite !window_firstn_skipn by lia.
  split; [|split; [|split; [reflexivity|]]].
  - rewrite !Z2Nat.inj_add by lia.
    rewrite Nat.add_comm, <- skipn_skipn.
    apply firstn_split.
  - rewrite length_firstn, length_skipn; lia.
  - change (Z.to_nat 0) with 0%nat; simpl skipn.
    rewrite Nat2Z.id, firstn_all.
    apply sort_newest_perm.
Qed.

Lemma list_pages_tile_witness :
  let page o l :=
    Discovery.items
      (Discovery.listResources Fixtures.three
         {| Discovery.q_type := Some "http"; Discovery.q_limit := Some l;
            Discovery.q_offset := Some o |}) in
  (page 0 2 ++ page 2 2)%list = page 0 4 /\
  Z.of_nat (List.length (page 0 2)) = 2.
Proof.
  destruct (list_pages_tile Fixtures.three "http" 0 2 2
              eq_refl ltac:(lia) ltac:(lia) ltac:(lia)) as (H1 & H2 & _).
  split; [exact H1 | exact H2].
Defined.

Lemma served_by_base (n : string) :
  In n Base.getSupportedNetworks -> Server.isEvmNetwork n = true.
Proof.
  intros H; simpl in H.
  repeat (destruct H as [<- | H]; [reflexivity|]); contradiction.
Qed.

Lemma served_by_solana (n : string) :
  In n Solana.getSupportedNetworks ->
  Server.isEvmNetwork n = false /\ Server.isSolanaNetwork n = true.
Proof.
  intros H; simpl in H.
  repeat (destruct H as [<- | H]; [split; reflexivity|]); contradiction.
Qed.

Lemma base_valid_network (this : Base.BaseFacilitator) (env : Env)
    (p : PaymentPayload) (r : PaymentRequirements) (v : VerifyResponse) :
  fst (Base.verify this env p r) = Ok v ->
  isValid v = true ->
  In (network p) Base.getSupportedNetworks /\ exists who, v = valid who.
Proof.
  intros Hv Hvalid.
  destruct (base_valid_inversion this env p r v Hv Hvalid)
    as (sig & a & cid & msg & _ & Hnet & _ & ->).
  split; [exact (chain_id_supported _ _ Hnet) | eexists; reflexivity].
Qed.

Lemma solana_valid_network (this : Solana.SolanaFacilitator) (env : Env)
    (p : PaymentPayload) (r : PaymentRequirements) (v : VerifyResponse) :
  fst (Solana.verify this env p r) = Ok v ->
  isValid v = true ->
  In (network p) Solana.getSupportedNetworks /\ exists who, v = valid who.
Proof.
  intros Hv Hvalid.
  destruct (solana_valid_inversion this env p r v Hv Hvalid)
    as (tx & who & Hbody & _ & ->).
  split; [|eexists; reflexivity].
  destruct (solana_verify_decision this env p r tx Hbody)
    as [(_ & E) | [(_ & E) | (who' & _ & [(_ & E) | (mint & Hm & _)])]];
    try (rewrite E in Hv; injection Hv as Hv; discriminate Hv).
  exact (mint_supported _ _ Hm).
Qed.

Section Requests.

Variable srv : Server.Server.
Variable env : Env.

(** What a verification that passed went through, whatever the identifier
    the handler dispatched on. *)
Lemma dispatch_verify_valid (n : string) (pp : PaymentPayload)
    (pr : PaymentRequirements) (v : VerifyResponse) :
  fst (Server.dispatch_verify srv env n pp pr) = Ok v ->
  isValid v = true ->
  In (network pp)
     (Base.getSupportedNetworks ++ Solana.getSupportedNetworks)%list /\
  exists who, v = valid who.
Proof.
  unfold Server.dispatch_verify; intros Hv Hvalid.
  destruct (Server.isEvmNetwork n).
  { destruct (base_valid_network _ env pp pr v Hv Hvalid) as [Hin Hwho].
    split; [apply in_or_app; left; exact Hin | exact Hwho]. }
  destruct (Server.isSolanaNetwork n).
  { destruct (solana_valid_network _ env pp pr v Hv Hvalid) as [Hin Hwho].
    split; [apply in_or_app; right; exact Hin | exact Hwho]. }
  injection Hv as <-; discriminate.
Qed.

Lemma base_settle_success (this : Base.BaseFacilitator) (pp : PaymentPayload)
    (pr : PaymentRequirements) (s : SettleResponse) :
  fst (Base.settle this env pp pr) = Ok s ->
  success s = true ->
  In (network pp) Base.getSupportedNetworks.
Proof.
  intros Hs Hsucc.
  destruct (Base.privateKey this) as [key|] eqn:Hkey.
  2:{ unfold Base.settle in Hs; rewrite Hkey in Hs.
      injection Hs as <-; discriminate. }
  destruct (base_verify_total this env pp pr) as [v Hv].
  destruct (isValid v) eqn:Hvalid;
    [exact (proj1 (base_valid_network this env pp pr v Hv Hvalid))|].
  exfalso; revert Hs.
  unfold Base.settle; rewrite Hkey.
  unfold Base.settle_steps, try_catch.
  rewrite (bind_Ok _ v _ Hv), Hvalid; cbn.
  intros Hs; injection Hs as <-; discriminate.
Qed.

Lemma solana_settle_success (this : Solana.SolanaFacilitator)
    (pp : PaymentPayload) (pr : PaymentRequirements) (s : SettleResponse) :
  fst (Solana.settle this env pp pr) = Ok s ->
  success s = true ->
  In (network pp) Solana.getSupportedNetworks.
Proof.
  intros Hs Hsucc.
  destruct (solana_verify_total this env pp pr) as [v Hv].
  destruct (isValid v) eqn:Hvalid;
    [exact (proj1 (solana_valid_network this env pp pr v Hv Hvalid))|].
  exfalso; revert Hs.
  unfold Solana.settle, Solana.settle_steps, try_catch.
  rewrite (bind_Ok _ v _ Hv), Hvalid; cbn.
  intros Hs; injection Hs as <-; discriminate.
Qed.

(** The settlement the handler dispatches to always answers; a success
    was settled on an advertised network of the payload, with a
    transaction id and at least one submission, and a failure carries a
    reason. *)
Lemma dispatch_settle_summary (n : string) (pp : PaymentPayload)
    (pr : PaymentRequirements) :
  exists s,
    fst (Server.dispatch_settle srv env n pp pr) = Ok s /\
    (success s = true ->
     In (network pp)
        (Base.getSupportedNetworks ++ Solana.getSupportedNetworks)%list /\
     (exists id, transaction s = Some id) /\
     (1 <= Derived.submissions
             (snd (Server.dispatch_settle srv env n pp pr)))%nat) /\
    (success s = false -> exists reason, errorReason s = Some reason).
Proof.
  unfold Server.dispatch_settle.
  destruct (Server.isEvmNetwork n).
  { destruct (base_settle_summary (Server.baseFacilitator srv) env pp pr)
      as (s & Hs & _ & Hsucc & Hfail).
    exists s; split; [exact Hs|]; split; [|exact Hfail].
    intros H; destruct (Hsucc H) as (Hid & _ & Hone).
    split; [apply in_or_app; left;
            exact (base_settle_success _ pp pr s Hs H)|].
    split; [exact Hid | lia]. }
  destruct (Server.isSolanaNetwork n).
  { destruct (solana_settle_summary (Server.solanaFacilitator srv) env pp pr)
      as (s & Hs & _ & Hsucc & Hfail).
    exists s; split; [exact Hs|]; split; [|exact Hfail].
    intros H; destruct (Hsucc H) as (Hid & _ & _ & Hone).
    split; [apply in_or_app; right;
            exact (solana_settle_success _ pp pr s Hs H)|].
    split; [exact Hid | exact Hone]. }
  eexists; split; [reflexivity|]; split; [discriminate|].
  intros _; eexists; reflexivity.
Qed.

End Requests.

(** POST /verify answers 200 only for a payload whose own [network] field
    is one of the eight advertised identifiers: the body is then
    [isValid: true] with a payer and the requirements are cataloged.  A
    payload whose [network] is anything else, the empty one of a v2
    payload that names its network under [accepted] included, is answered
    400 and leaves the catalog as it was, whatever identifier the handler
    dispatched on. *)
Theorem verify_request_served_networks (srv : Server.Server) (env : Env)
    (reg : Discovery.Registry) (req : Server.Request) :
  let out := Server.post_verify srv env reg req in
  let advertised :=
    (Base.getSupportedNetworks ++ Solana.getSupportedNetworks)%list in
  (Server.status out = 200 ->
   exists pp pr who,
     Server.paymentPayload req = Some pp /\
     Server.paymentRequirements req = Some pr /\
     In (network pp) advertised /\
     Server.body out = valid who /\
     Server.registry out =
       Discovery.catalogFromPayment env reg (Server.x402Version req) pr)
  /\
  (forall pp,
     Server.paymentPayload req = Some pp ->
     ~ In (network pp) advertised ->
     Server.status out = 400 /\
     isValid (Server.body out) = false /\
     Server.registry out = reg).
Proof.
  cbv zeta.
  assert (H200 :
    Server.status (Server.post_verify srv env reg req) = 200 ->
    exists pp pr who,
      Server.paymentPayload req = Some pp /\
      Server.paymentRequirements req = Some pr /\
      In (network pp)
         (Base.getSupportedNetworks ++ Solana.getSupportedNetworks)%list /\
      Server.body (Server.post_verify srv env reg req) = valid who /\
      Server.registry (Server.post_verify srv env reg req) =
        Discovery.catalogFromPayment env reg (Server.x402Version req) pr).
  { unfold Server.post_verify; cbv zeta.
    destruct (Server.paymentPayload req) as [pp|]; [|discriminate].
    destruct (Server.paymentRequirements req) as [pr|]; [|discriminate].
    destruct (negb (truthy (Server.request_network pp pr))); [discriminate|].
    destruct (dispatch_verify_total srv env (Server.request_network pp pr)
                pp pr) as [v Hv].
    rewrite Hv; simpl.
    destruct (isValid v) eqn:Hvalid; [intros _ | discriminate].
    destruct (dispatch_verify_valid srv env _ pp pr v Hv Hvalid)
      as [Hin [who ->]].
    exists pp, pr, who; repeat split; assumption. }
  split; [exact H200|].
  intros pp Hpp Hout.
  destruct (post_verify_structured srv env reg req) as [[H _] | [H Hinv]].
  - destruct (H200 H) as (pp' & _ & _ & Hpp' & _ & Hin & _).
    rewrite Hpp in Hpp'; injection Hpp' as <-; contradiction.
  - split; [exact H|]; split; [exact Hinv|].
    exact (proj1 (post_verify_registry srv env reg req) Hinv).
Qed.

Lemma verify_request_served_networks_witness :
  Server.status
    (Server.post_verify Fixtures.server Fixtures.sunny []
       (Fixtures.verifyRequest
          (Scenarios.v2Payload "base")
          (Fixtures.requirements "base" Fixtures.usdc Fixtures.listed))) = 400.
Proof.
  destruct (verify_request_served_networks Fixtures.server Fixtures.sunny []
              (Fixtures.verifyRequest
                 (Scenarios.v2Payload "base")
                 (Fixtures.requirements "base" Fixtures.usdc
                                        Fixtures.listed)))
    as [_ H].
  apply (H (Scenarios.v2Payload "base") eq_refl).
  simpl; intros H0.
  repeat (destruct H0 as [H0 | H0]; [discriminate H0|]); exact H0.
Defined.

Lemma evm_pattern_truthy (n : string) :
  Server.isEvmNetwork n = true -> truthy n = true.
Proof. destruct n; [discriminate | reflexivity]. Qed.

Lemma built_key_guard (srv : Server.Server) (url : string) (cid : option Z) :
  Server.baseFacilitator srv =
    Base.new url (Server.basePrivateKey (Server.config srv)) cid ->
  match Server.basePrivateKey (Server.config srv) with
  | Some k => negb (truthy k)
  | None => true
  end = true <->
  Base.privateKey (Server.baseFacilitator srv) = None.
Proof.
  intros ->; unfold Base.new; simpl.
  destruct (Server.basePrivateKey (Server.config srv)) as [k|];
    [destruct (truthy k)|]; simpl; split; congruence.
Qed.

(** POST /settle, on a server whose Base facilitator was built from the
    configured key, answers 200, 400 or 503 and never 500.  It answers
    200 exactly on success, which was settled on an advertised network of
    the payload, with a transaction id and at least one submission; it
    answers 503 exactly when the identifier it dispatches on has the EVM
    pattern and the facilitator has no key, before any chain interaction;
    and every answer other than 200 carries an error reason. *)
Theorem settle_request_outcomes (srv : Server.Server) (env : Env)
    (reg : Discovery.Registry) (req : Server.Request) (url : string)
    (cid : option Z) :
  Server.baseFacilitator srv =
    Base.new url (Server.basePrivateKey (Server.config srv)) cid ->
  let out := Server.post_settle srv env reg req in
  let advertised :=
    (Base.getSupportedNetworks ++ Solana.getSupportedNetworks)%list in
  ((Server.status out = 200 /\ success (Server.body out) = true /\
    (exists id, transaction (Server.body out) = Some id) /\
    (exists pp, Server.paymentPayload req = Some pp /\
                In (network pp) advertised) /\
    (1 <= Derived.submissions (Server.interactions out))%nat)
   \/
   (Server.status out = 400 /\ success (Server.body out) = false /\
    exists reason, errorReason (Server.body out) = Some reason)
   \/
   (Server.status out = 503 /\ success (Server.body out) = false /\
    errorReason (Server.body out) = Some settlement_failed /\
    Server.interactions out = []))
  /\
  (Server.status out = 503 <->
   exists pp pr,
     Server.paymentPayload req = Some pp /\
     Server.paymentRequirements req = Some pr /\
     Server.isEvmNetwork (Server.request_network pp pr) = true /\
     Base.privateKey (Server.baseFacilitator srv) = None).
Proof.
  intros Hbuilt; cbv zeta.
  pose proof (built_key_guard srv url cid Hbuilt) as Hk.
  unfold Server.post_settle; cbv zeta.
  destruct (Server.paymentPayload req) as [pp|].
  2:{ split; [right; left; repeat split; eexists; reflexivity|].
      split; [discriminate|]; intros (pp & pr & E & _); discriminate. }
  destruct (Server.paymentRequirements req) as [pr|].
  2:{ split; [right; left; repeat split; eexists; reflexivity|].
      split; [discriminate|]; intros (pp' & pr' & _ & E & _); discriminate. }
  destruct (truthy (Server.request_network pp pr)) eqn:Ht; cbn [negb].
  2:{ split; [right; left; repeat split; eexists; reflexivity|].
      split; [discriminate|].
      intros (pp' & pr' & E & E' & Hevm & _).
      injection E as <-; injection E' as <-.
      apply evm_pattern_truthy in Hevm; congruence. }
  destruct (Server.isEvmNetwork (Server.request_network pp pr)) eqn:Hevm;
    [destruct (match Server.basePrivateKey (Server.config srv) with
               | Some k => negb (truthy k)
               | None => true
               end) eqn:Hc|]; cbn [andb].
  - split; [right; right; repeat split|].
    split; [intros _ | reflexivity].
    exists pp, pr; repeat split; [exact Hevm | apply Hk; reflexivity].
  - destruct (dispatch_settle_summary srv env (Server.request_network pp pr)
                pp pr) as (s & Hs & Hsucc & Hfail).
    rewrite Hs; cbn [Server.status Server.body Server.interactions].
    destruct (success s) eqn:Hsuccess.
    + split; [left | split; [discriminate|]].
      * destruct (Hsucc eq_refl) as (Hin & Hid & Hone).
        repeat split; [exact Hid | exists pp; split; [reflexivity | exact Hin]
                       | exact Hone].
      * intros (pp' & pr' & E & E' & _ & Hnone).
        apply Hk in Hnone; congruence.
    + split; [right; left; repeat split; exact (Hfail eq_refl)
              | split; [discriminate|]].
      intros (pp' & pr' & E & E' & _ & Hnone).
      apply Hk in Hnone; congruence.
  - destruct (dispatch_settle_summary srv env (Server.request_network pp pr)
                pp pr) as (s & Hs & Hsucc & Hfail).
    rewrite Hs; cbn [Server.status Server.body Server.interactions].
    destruct (success s) eqn:Hsuccess.
    + split; [left | split; [discriminate|]].
      * destruct (Hsucc eq_refl) as (Hin & Hid & Hone).
        repeat split; [exact Hid | exists pp; split; [reflexivity | exact Hin]
                       | exact Hone].
      * intros (pp' & pr' & E & E' & Hevm' & _).
        injection E as <-; injection E' as <-; congruence.
    + split; [right; left; repeat split; exact (Hfail eq_refl)
              | split; [discriminate|]].
      intros (pp' & pr' & E & E' & Hevm' & _).
      injection E as <-; injection E' as <-; congruence.
Qed.

Lemma settle_request_outcomes_witness :
  Server.status
    (Server.post_settle Fixtures.server Fixtures.sunny []
       (Fixtures.verifyRequest
          (Fixtures.evmPayload "base" Fixtures.authorization)
          (Fixtures.requirements "base" Fixtures.usdc None))) <> 503.
Proof.
  destruct (settle_request_outcomes Fixtures.server Fixtures.sunny []
              (Fixtures.verifyRequest
                 (Fixtures.evmPayload "base" Fixtures.authorization)
                 (Fixtures.requirements "base" Fixtures.usdc None))
              "https://mainnet.base.org" (Some 8453) eq_refl) as [_ [H _]].
  intros E; destruct (H E) as (_ & _ & _ & _ & _ & Hnone); discriminate Hnone.
Defined.

(** GET /supported advertises what is served: the networks of its kinds
    are those of the two backends' [getSupportedNetworks], each one is
    dispatched by the verify and the settle handler to the backend whose
    table knows it, and the CAIP-2 names are the version 2 kinds.  It
    lists at most one signer per family, the Base one being the address
    derived from the key; and the request fails exactly when a Base key
    is configured from which no account can be derived. *)
Theorem supported_networks_are_served (srv : Server.Server) (env : Env) :
  (forall s,
     Server.get_supported srv env = Ok s ->
     map Server.kind_network (Server.kinds s) =
       (Base.getSupportedNetworks ++ Solana.getSupportedNetworks)%list /\
     (forall k,
        In k (Server.kinds s) ->
        let n := Server.kind_network k in
        Server.kind_x402Version k = (if includes n ":" then 2 else 1) /\
        (((forall pp pr,
             Server.dispatch_verify srv env n pp pr =
               Base.verify (Server.baseFacilitator srv) env pp pr /\
             Server.dispatch_settle srv env n pp pr =
               Base.settle (Server.baseFacilitator srv) env pp pr) /\
          exists chain, Base.getChainId n = Ok chain) \/
         ((forall pp pr,
             Server.dispatch_verify srv env n pp pr =
               Solana.verify (Server.solanaFacilitator srv) env pp pr /\
             Server.dispatch_settle srv env n pp pr =
               Solana.settle (Server.solanaFacilitator srv) env pp pr) /\
          exists mint, Solana.USDC_MINTS n = Some mint))) /\
     (Server.signers_eip155 s = [] \/
      exists a,
        Server.signers_eip155 s = [a] /\
        Base.getSignerAddress (Server.baseFacilitator srv) env =
          Ok (Some a)) /\
     (Server.signers_solana s = [] \/
      exists kp,
        Server.signers_solana s = [publicKey kp] /\
        Solana.keypair (Server.solanaFacilitator srv) = Some kp))
  /\
  (forall e,
     Server.get_supported srv env = Throw e <->
     exists key,
       Base.privateKey (Server.baseFacilitator srv) = Some key /\
       privateKeyToAccount env key = Throw e).
Proof.
  unfold Server.get_supported, Base.getSignerAddress, Solana.getSignerAddress.
  split.
  - intros s Hs.
    assert (Hkinds :
      Server.kinds s =
      [Server.kind 1 "base"; Server.kind 1 "base-sepolia";
       Server.kind 2 "eip155:8453"; Server.kind 2 "eip155:84532";
       Server.kind 1 "solana"; Server.kind 1 "solana-devnet";
       Server.kind 2 "solana:5eykt4UsFv8P8NJdTREpY1vzqKqZKvdp";
       Server.kind 2 "solana:EtWTRABZaYq6iMfeYKouRu166VU2xqa1"]).
    { destruct (Base.privateKey _) as [key|];
        [destruct (privateKeyToAccount env key); [|discriminate]|];
        injection Hs as <-; reflexivity. }
    split; [rewrite Hkinds; reflexivity|].
    split.
    { intros k Hk; rewrite Hkinds in Hk; simpl in Hk.
      repeat (destruct Hk as [<- | Hk];
              [split; [reflexivity|];
               first [left; split;
                      [intros pp pr; split; reflexivity
                      | eexists; reflexivity]
                     | right; split;
                       [intros pp pr; split; reflexivity
                       | eexists; reflexivity]]|]).
      contradiction. }
    split.
    + destruct (Base.privateKey _) as [key|];
        [destruct (privateKeyToAccount env key) as [addr|]; [|discriminate]|];
        injection Hs as <-; simpl; [|now left].
      destruct (truthy addr); [right; exists addr; split; reflexivity
                              | now left].
    + assert (Hsol :
        Server.signers_solana s =
        match Solana.keypair (Server.solanaFacilitator srv) with
        | Some kp => if truthy (publicKey kp) then [publicKey kp] else []
        | None => []
        end).
      { destruct (Base.privateKey _) as [key|];
          [destruct (privateKeyToAccount env key); [|discriminate]|];
          injection Hs as <-; simpl;
          destruct (Solana.keypair _); reflexivity. }
      rewrite Hsol.
      destruct (Solana.keypair _) as [kp|]; [|now left].
      destruct (truthy (publicKey kp)); [|now left].
      right; exists kp; split; reflexivity.
  - intros e; split.
    + destruct (Base.privateKey _) as [key|]; [|discriminate].
      destruct (privateKeyToAccount env key) as [addr|e'] eqn:E;
        [discriminate|].
      intros H; injection H as <-; exists key; split; [reflexivity | exact E].
    + intros (key & -> & ->); reflexivity.
Qed.

Lemma supported_networks_are_served_witness :
  exists s,
    Server.get_supported Fixtures.server Fixtures.sunny = Ok s /\
    Server.signers_eip155 s = ["0xRelayer"].
Proof.
  eexists; split; [reflexivity|].
  destruct (supported_networks_are_served Fixtures.server Fixtures.sunny)
    as [H _].
  destruct (H _ eq_refl) as (_ & _ & [E | (a & E & _)] & _);
    [discriminate E | reflexivity].
Defined.

Section Segments.

Context {A : Type}.
Variable R : A -> A -> Prop.





End Segments.

